(** * pyeo: raster alignment, compositing, masks and chunked classification

    A shallow embedding of the raster engine of [pyeo/core.py] and the
    properties its specification states about it.

    Conventions of the embedding.
    - Python integers are [Z]; a numpy array is a nested list together with
      its [shape], so that an empty window still knows its width.
    - Pixel values and class labels are integers; the conversions numpy and
      GDAL apply when a value is stored at another width are not modelled.
    - A GDAL geotransform holds six numbers.  The conversion from a point
      to a pixel is generic in the arithmetic it is computed with ([Arith]);
      the development reasons at exact rationals ([Q]) throughout, and
      evaluates the IEEE binary64 arithmetic Python computes with where
      the round trip between pixels and coordinates is at stake.
    - An OGR polygon is the region it covers, kept as a finite union of
      axis-parallel rectangles: every polygon the engine builds starts from
      raster footprints and is closed under [Intersection] and [Union].
    - The files on disk are a finite map from path to dataset; whatever is
      written through a virtual-memory array reaches the file, also when a
      later statement raises. *)

From Stdlib Require Import ZArith QArith Qround Qminmax List Lia Lqa Floats Ascii.
From stdpp Require Import gmap strings.
Import ListNotations.
Open Scope Z_scope.
#[local] Set Warnings "-inexact-float".

(** ** Exceptions *)

Inductive exn : Set :=
| StackImagesException (msg : string)
| Exception (msg : string)
| ZeroDivisionError
| OverflowError
| ValueError
| IndexError
| TypeError
| RuntimeError.

Inductive result (A : Type) : Type :=
| Ok (a : A)
| Raise (e : exn).
Arguments Ok {A} a.
Arguments Raise {A} e.

#[global] Instance result_ret : MRet result := fun A a => Ok a.
#[global] Instance result_bind : MBind result :=
  fun A B k m => match m with Ok a => k a | Raise e => Raise e end.

(** ** Python sequences *)

(** [range(n)] *)
Definition range (n : Z) : list Z := map Z.of_nat (seq 0 (Z.to_nat n)).

(** A slice bound [i] of a sequence of length [n], as Python normalises it:
    a negative bound counts from the end, and both ends are clamped. *)
Definition clip (n i : Z) : Z :=
  if i <? 0 then Z.max 0 (i + n) else Z.min i n.

(** The number of items of [s[lo:hi]] for a sequence of length [n]. *)
Definition slice_len (n lo hi : Z) : Z := Z.max 0 (clip n hi - clip n lo).

(** [l[lo:hi]] *)
Definition slice {A} (lo hi : Z) (l : list A) : list A :=
  let n := Z.of_nat (length l) in
  firstn (Z.to_nat (slice_len n lo hi)) (skipn (Z.to_nat (clip n lo)) l).

(** Writing [new] through the view [l[lo:hi]]: the items of the view are
    replaced, the rest of [l] stays. *)
Definition slice_write {A} (lo hi : Z) (new : list A) (l : list A) : list A :=
  let n := Z.of_nat (length l) in
  firstn (Z.to_nat (clip n lo)) l ++ new
    ++ skipn (Z.to_nat (clip n lo + slice_len n lo hi)) l.

(** numpy broadcasts an axis of length one to the length asked for, and
    refuses any other mismatch. *)
Definition broadcast {A} (n : nat) (l : list A) : result (list A) :=
  if (length l =? n)%nat then Ok l
  else match l with
       | [x] => Ok (repeat x n)
       | _ => Raise ValueError
       end.

(** [view[:] = values] for a one-dimensional view [l[lo:hi]] *)
Definition slice_assign {A} (lo hi : Z) (values : list A) (l : list A)
  : result (list A) :=
  new ← broadcast (length (slice lo hi l)) values;
  Ok (slice_write lo hi new l).

(** [enumerate(l)] *)
Definition enumerate {A} (l : list A) : list (Z * A) :=
  combine (range (Z.of_nat (length l))) l.

(** [int(a / b)] on integers: true division, then truncation toward zero
    (the float quotient is exact for the sizes below [2^53] met here). *)
Definition int_div (a b : Z) : result Z :=
  if b =? 0 then Raise ZeroDivisionError else Ok (Z.quot a b).

(** ** Datasets and arrays *)

Record geotransform (R : Type) : Type := GeoTransform {
  gt_0 : R;  (* x of the top left corner *)
  gt_1 : R;  (* pixel width *)
  gt_2 : R;
  gt_3 : R;  (* y of the top left corner *)
  gt_4 : R;
  gt_5 : R   (* pixel height, negative for a north-up image *)
}.
Arguments GeoTransform {R}.
Arguments gt_0 {R}. Arguments gt_1 {R}. Arguments gt_2 {R}.
Arguments gt_3 {R}. Arguments gt_4 {R}. Arguments gt_5 {R}.

Inductive GDALDataType : Set :=
| GDT_Byte | GDT_UInt16 | GDT_Int16 | GDT_UInt32 | GDT_Int32.

(** [dtype.itemsize] *)
Definition itemsize (t : GDALDataType) : Z :=
  match t with
  | GDT_Byte => 1
  | GDT_UInt16 | GDT_Int16 => 2
  | GDT_UInt32 | GDT_Int32 => 4
  end.

Definition band := list (list Z).

Record Dataset : Type := {
  RasterXSize : Z;
  RasterYSize : Z;
  RasterCount : Z;
  GetGeoTransform : geotransform Q;
  GetProjection : string;
  DataType : GDALDataType;
  pixels : list band          (* [band][y][x] *)
}.

(** What [GetVirtualMemArray] hands out: [(y, x)] for a dataset of one band,
    [(band, y, x)] otherwise. *)
Inductive ndarray : Type :=
| Arr2 (h w : Z) (a : band)
| Arr3 (b h w : Z) (a : list band).

Definition GetVirtualMemArray (d : Dataset) : ndarray :=
  if RasterCount d =? 1
  then Arr2 (RasterYSize d) (RasterXSize d) (hd [] (pixels d))
  else Arr3 (RasterCount d) (RasterYSize d) (RasterXSize d) (pixels d).

(** [np.expand_dims(a, 0)] where [len(a.shape) == 2] *)
Definition expand_if_2d (a : ndarray) : Z * Z * Z * list band :=
  match a with
  | Arr2 h w d => (1, h, w, [d])
  | Arr3 b h w d => (b, h, w, d)
  end.

(** The files, by path. *)
Abbreviation files := (gmap string Dataset).

(** [gdal.Open(path)] *)
Definition gdal_Open (fs : files) (path : string) : result Dataset :=
  match fs !! path with
  | Some d => Ok d
  | None => Raise RuntimeError
  end.

(** [driver.Create(path, xsize, ysize, bands, eType)]: a zero-filled
    dataset; GDAL refuses a side of less than one pixel. *)
Definition driver_Create (xsize ysize bands : Z) (eType : GDALDataType)
  : result Dataset :=
  if (xsize <? 1) || (ysize <? 1) then Raise RuntimeError
  else Ok {| RasterXSize := xsize; RasterYSize := ysize; RasterCount := bands;
             GetGeoTransform := GeoTransform 0%Q 1%Q 0%Q 0%Q 0%Q 1%Q;
             GetProjection := "";
             DataType := eType;
             pixels := repeat (repeat (repeat 0 (Z.to_nat xsize)) (Z.to_nat ysize))
                              (Z.to_nat bands) |}.

Definition SetGeoTransform (d : Dataset) (gt : geotransform Q) : Dataset :=
  {| RasterXSize := RasterXSize d; RasterYSize := RasterYSize d;
     RasterCount := RasterCount d; GetGeoTransform := gt;
     GetProjection := GetProjection d; DataType := DataType d;
     pixels := pixels d |}.

Definition SetProjection (d : Dataset) (p : string) : Dataset :=
  {| RasterXSize := RasterXSize d; RasterYSize := RasterYSize d;
     RasterCount := RasterCount d; GetGeoTransform := GetGeoTransform d;
     GetProjection := p; DataType := DataType d;
     pixels := pixels d |}.

(** The dataset after its virtual-memory array was written to. *)
Definition set_pixels (d : Dataset) (a : list band) : Dataset :=
  {| RasterXSize := RasterXSize d; RasterYSize := RasterYSize d;
     RasterCount := RasterCount d; GetGeoTransform := GetGeoTransform d;
     GetProjection := GetProjection d; DataType := DataType d;
     pixels := a |}.

(** [create_matching_dataset(in_dataset, out_path, bands=1, datatype)] *)
Definition create_matching_dataset (in_dataset : Dataset) (bands : Z)
    (datatype : GDALDataType) : result Dataset :=
  out_dataset ← driver_Create (RasterXSize in_dataset) (RasterYSize in_dataset)
                              bands datatype;
  let out_dataset := SetGeoTransform out_dataset (GetGeoTransform in_dataset) in
  Ok (SetProjection out_dataset (GetProjection in_dataset)).

(** Operations that read and write files: the files are threaded through,
    and what was written before an exception stays written. *)
Definition io (A : Type) : Type := files → result A * files.

#[global] Instance io_ret : MRet io := fun A a fs => (Ok a, fs).
#[global] Instance io_bind : MBind io :=
  fun A B k m fs =>
    match m fs with
    | (Ok a, fs') => k a fs'
    | (Raise e, fs') => (Raise e, fs')
    end.

Definition lift {A} (r : result A) : io A := fun fs => (r, fs).
Definition open (path : string) : io Dataset := fun fs => (gdal_Open fs path, fs).
Definition flush (path : string) (d : Dataset) : io unit :=
  fun fs => (Ok tt, <[path := d]> fs).

(** What a loop wrote into the array of the dataset at [path] is in the
    file, whether the loop ended or raised. *)
Definition written (path : string) (run : result unit * Dataset) : io unit :=
  fun fs => (fst run, <[path := snd run]> fs).

(** ** The chunked classifier *)

Definition sample := list Z.

(** A pretrained model, read-only during inference: [predict] labels each
    row of the samples it is given on its own. *)
Record Model : Type := { predict_one : sample → Z }.

Definition predict (model : Model) (X : list sample) : list Z :=
  map (predict_one model) X.

(** [reshape_raster_for_ml]: from gdal order [band, y, x] to scikit order
    [x*y, band]; unpacking the shape of a two-dimensional array fails. *)
Definition reshape_raster_for_ml (image_array : ndarray) : result (list sample) :=
  match image_array with
  | Arr2 _ _ _ => Raise ValueError
  | Arr3 bands y x a =>
      Ok (flat_map (fun j =>
            map (fun i => map (fun band => nth i (nth j band []) 0) a)
                (seq 0 (Z.to_nat x)))
          (seq 0 (Z.to_nat y)))
  end.

(** [reshape_ml_out_to_raster]: [np.reshape(classes, (height, width))] *)
Definition reshape_ml_out_to_raster (classes : list Z) (width height : Z)
  : result band :=
  if Z.of_nat (length classes) =? height * width
  then Ok (map (fun j => firstn (Z.to_nat width)
                           (skipn (j * Z.to_nat width)%nat classes))
               (seq 0 (Z.to_nat height)))
  else Raise ValueError.

(** [autochunk(dataset, mem_limit)]: [available] is what the machine reports
    when no limit is given, [int] of 0.8 times the free physical memory.
    [None] is Python's: the loop ended without a [return]. *)
Definition autochunk (available : Z) (dataset : Dataset) (mem_limit : option Z)
  : option Z :=
  let pixels := RasterXSize dataset * RasterYSize dataset in
  let bytes_per_pixel := itemsize (DataType dataset) * RasterCount dataset in
  let mem_limit :=
    match mem_limit with
    | Some m => if m =? 0 then available else m
    | None => available
    end in
  find (fun num_chunks =>
          (pixels mod num_chunks =? 0)
          && (pixels / num_chunks * bytes_per_pixel <? mem_limit))
       (map (Z.add 1) (range (pixels - 1))).

(** [np.all(j != nodata)] *)
Definition all_not (nodata : Z) (j : sample) : bool :=
  forallb (fun v => negb (v =? nodata)) j.

(** [0 in image_array] *)
Definition contains_0 (image_array : list sample) : bool :=
  existsb (existsb (Z.eqb 0)) image_array.

Definition good_samples (image_array : list sample) (nodata : Z) : list sample :=
  if contains_0 image_array
  then List.filter (all_not nodata) image_array
  else image_array.

Definition good_indices (image_array : list sample) (nodata : Z) : list Z :=
  if contains_0 image_array
  then map fst (List.filter (fun ij => all_not nodata (snd ij))
                            (enumerate image_array))
  else range (Z.of_nat (length image_array)).

(** The loop over the chunks.  [chunk_size] is a variable of the loop: the
    last chunk adds the residual to it. *)
Fixpoint classify_chunks (model : Model) (num_chunks chunk_resid : Z)
    (good_samples : list sample) (chunk_ids : list Z)
    (chunk_size : Z) (classes : list Z) : result (list Z) :=
  match chunk_ids with
  | [] => Ok classes
  | chunk_id :: rest =>
      let offset := chunk_id * chunk_size in
      let chunk_size :=
        if chunk_id =? num_chunks - 1 then chunk_size + chunk_resid
        else chunk_size in
      let chunk_view := slice offset (offset + chunk_size) good_samples in
      classes ← slice_assign offset (offset + chunk_size)
                  (predict model chunk_view) classes;
      classify_chunks model num_chunks chunk_resid good_samples rest
                      chunk_size classes
  end.

(** [for i, class_val in zip(good_indices, classes): class_out_array[i] = class_val] *)
Definition scatter (good_indices classes class_out_array : list Z) : list Z :=
  fold_left (fun out ic => <[Z.to_nat (fst ic) := snd ic]> out)
            (combine good_indices classes) class_out_array.

(** The flat class map [class_out_array] that [classify_image] builds from
    the samples.  [num_chunks] is [None] when [autochunk] returned nothing. *)
Definition class_out_array (model : Model) (image_array : list sample)
    (num_chunks : option Z) (nodata : Z) : result (list Z) :=
  let n_samples := Z.of_nat (length image_array) in
  let good_samples := good_samples image_array nodata in
  let good_indices := good_indices image_array nodata in
  let n_good_samples := Z.of_nat (length good_samples) in
  let classes := repeat nodata (Z.to_nat n_good_samples) in
  num_chunks ← match num_chunks with
               | Some k => Ok k
               | None => Raise TypeError
               end;
  chunk_size ← int_div n_good_samples num_chunks;
  let chunk_resid := n_good_samples - chunk_size * num_chunks in
  classes ← classify_chunks model num_chunks chunk_resid good_samples
              (range num_chunks) chunk_size classes;
  Ok (scatter good_indices classes (repeat nodata (Z.to_nat n_samples))).

(** [classify_image(image_path, model_path, class_out_dir, num_chunks=..,
    nodata=..)], without a probability image and without a mask. *)
Definition classify_image (available : Z) (model : Model)
    (image_path class_out_dir : string) (num_chunks : option Z) (nodata : Z)
  : io string :=
  image ← open image_path;
  let num_chunks :=
    match num_chunks with
    | None => autochunk available image None
    | Some k => Some k
    end in
  class_out_image ← lift (create_matching_dataset image 1 GDT_Byte);
  _ ← flush class_out_dir class_out_image;
  image_array ← lift (reshape_raster_for_ml (GetVirtualMemArray image));
  out ← lift (class_out_array model image_array num_chunks nodata);
  class_map ← lift (reshape_ml_out_to_raster out (RasterXSize image)
                                             (RasterYSize image));
  _ ← flush class_out_dir (set_pixels class_out_image [class_map]);
  mret class_out_dir.

(** ** Arithmetic of coordinates *)

(** What the geometry asks of the numbers of a geotransform.  [r_div] is
    Python's [/] on floats, which raises on a zero divisor; [floor_int] is
    [int(np.floor(x))]. *)
Class Arith (R : Type) : Type := {
  r_add : R → R → R;
  r_sub : R → R → R;
  r_mul : R → R → R;
  r_div : R → R → result R;
  floor_int : R → result Z;
  of_int : Z → R
}.

(** Exact arithmetic. *)
#[global] Instance Q_arith : Arith Q := {|
  r_add := Qplus;
  r_sub := Qminus;
  r_mul := Qmult;
  r_div x y := if Qeq_bool y 0 then Raise ZeroDivisionError else Ok (x / y)%Q;
  floor_int x := Ok (Qfloor x);
  of_int := inject_Z
|}.

(** [int(np.floor(x))] of a binary64 number: the floor of the value
    [(-1)^s * m * 2^e] it stands for. *)
Definition float_floor_int (x : float) : result Z :=
  match Prim2SF x with
  | S754_zero _ => Ok 0
  | S754_infinity _ => Raise OverflowError
  | S754_nan => Raise ValueError
  | S754_finite s m e =>
      let n := if s then Z.neg m else Z.pos m in
      Ok (if 0 <=? e then n * 2 ^ e else n / 2 ^ (- e))
  end.

(** [float(z)], exact below [2^53]. *)
Definition float_of_int (z : Z) : float :=
  match z with
  | Z0 => PrimFloat.zero
  | Zpos _ => PrimFloat.of_uint63 (Uint63.of_Z z)
  | Zneg _ => PrimFloat.opp (PrimFloat.of_uint63 (Uint63.of_Z (- z)))
  end.

(** IEEE binary64, as Python's [float] computes. *)
#[global] Instance binary64_arith : Arith float := {|
  r_add := PrimFloat.add;
  r_sub := PrimFloat.sub;
  r_mul := PrimFloat.mul;
  r_div x y := if PrimFloat.eqb y PrimFloat.zero then Raise ZeroDivisionError
               else Ok (PrimFloat.div x y);
  floor_int := float_floor_int;
  of_int := float_of_int
|}.

(** ** GeoGrid *)

(** [point_to_pixel_coordinates(raster, point)] for a point given as an
    [(x, y)] pair; the raster enters through its geotransform [gt]. *)
Definition point_to_pixel_coordinates {R} `{Arith R}
    (gt : geotransform R) (point : R * R) : result (Z * Z) :=
  let x_geo := fst point in
  let y_geo := snd point in
  qx ← r_div (r_sub x_geo (gt_0 gt)) (gt_1 gt);
  x_pixel ← floor_int qx;
  qy ← r_div (r_sub y_geo (gt_3 gt)) (gt_5 gt);
  y_pixel ← floor_int qy;
  Ok (x_pixel, y_pixel).

(** Modelled from the spec: [pixel_to_geo(grid, col, row)] is not a function
    of [core.py]; the specification has it multiply by the pixel width and
    height and add the origin. *)
Definition pixel_to_geo {R} `{Arith R}
    (gt : geotransform R) (col row : Z) : R * R :=
  (r_add (gt_0 gt) (r_mul (of_int col) (gt_1 gt)),
   r_add (gt_3 gt) (r_mul (of_int row) (gt_5 gt))).

(** ** Footprint geometry *)

Record rect : Type := Rect { x_lo : Q; x_hi : Q; y_lo : Q; y_hi : Q }.

(** The region of an OGR geometry, a union of rectangles; [[]] is the empty
    geometry. *)
Definition polygon := list rect.

Definition rect_inter (a b : rect) : rect :=
  {| x_lo := Qmax (x_lo a) (x_lo b); x_hi := Qmin (x_hi a) (x_hi b);
     y_lo := Qmax (y_lo a) (y_lo b); y_hi := Qmin (y_hi a) (y_hi b) |}.

Definition nonempty (r : rect) : bool :=
  Qle_bool (x_lo r) (x_hi r) && Qle_bool (y_lo r) (y_hi r).

(** [p.Intersection(q)] *)
Definition Intersection (p q : polygon) : polygon :=
  flat_map (fun a =>
    flat_map (fun b =>
      let c := rect_inter a b in if nonempty c then [c] else []) q) p.

(** [p.Union(q)] *)
Definition Union (p q : polygon) : polygon := p ++ q.

(** [p.Simplify(0)] and [p.Boundary()] keep the region, and with it the
    envelope, which is all the engine reads of them. *)
Definition Simplify (p : polygon) : polygon := p.
Definition Boundary (p : polygon) : polygon := p.

(** [p.GetEnvelope()]: [(minX, maxX, minY, maxY)], all zero for the empty
    geometry. *)
Definition GetEnvelope (p : polygon) : Q * Q * Q * Q :=
  match p with
  | [] => (0, 0, 0, 0)%Q
  | r :: rs =>
      fold_left (fun env r =>
                   let '(a, b, c, d) := env in
                   (Qmin a (x_lo r), Qmax b (x_hi r),
                    Qmin c (y_lo r), Qmax d (y_hi r)))
                rs (x_lo r, x_hi r, y_lo r, y_hi r)
  end.

(** [get_raster_bounds(raster)]: the rectangle whose ring runs through the
    four corners computed from the geotransform and the size. *)
Definition get_raster_bounds (raster : Dataset) : polygon :=
  let geotrans := GetGeoTransform raster in
  let top_left_x := gt_0 geotrans in
  let top_left_y := gt_3 geotrans in
  let width := (gt_1 geotrans * inject_Z (RasterXSize raster))%Q in
  let height := (gt_5 geotrans * inject_Z (RasterYSize raster) * -1)%Q in
  [ {| x_lo := Qmin top_left_x (top_left_x + width);
       x_hi := Qmax top_left_x (top_left_x + width);
       y_lo := Qmin top_left_y (top_left_y - height);
       y_hi := Qmax top_left_y (top_left_y - height) |} ].

(** [get_poly_intersection(poly1, poly2)] *)
Definition get_poly_intersection (poly1 poly2 : polygon) : polygon :=
  Intersection poly1 poly2.

(** [multiple_intersection(polygons)] *)
Definition multiple_intersection (polygons : list polygon) : result polygon :=
  match polygons with
  | [] => Raise IndexError
  | first :: others => Ok (Simplify (fold_left Intersection others first))
  end.

(** [multiple_union(polygons)] *)
Definition multiple_union (polygons : list polygon) : result polygon :=
  match polygons with
  | [] => Raise IndexError
  | first :: others => Ok (Simplify (fold_left Union others first))
  end.

(** [get_combined_polygon(rasters, geometry_mode)] *)
Definition get_combined_polygon (rasters : list Dataset) (geometry_mode : string)
  : result polygon :=
  let raster_bounds := map get_raster_bounds rasters in
  if String.eqb geometry_mode "intersect" then multiple_intersection raster_bounds
  else if String.eqb geometry_mode "union" then multiple_union raster_bounds
  else Raise (Exception "Invalid geometry mode").

(** ** Window mapper *)

(** [pixel_bounds_from_polygon(raster, polygon)]:
    [(x_min, x_max, y_min, y_max)] in pixels of [raster]. *)
Definition pixel_bounds_from_polygon (raster : Dataset) (polygon : polygon)
  : result (Z * Z * Z * Z) :=
  let raster_bounds := get_raster_bounds raster in
  let intersection := get_poly_intersection raster_bounds polygon in
  let bounds_geo := Boundary intersection in
  let '(x_min_geo, x_max_geo, y_min_geo, y_max_geo) := GetEnvelope bounds_geo in
  min_pixel ← point_to_pixel_coordinates (GetGeoTransform raster)
                                         (x_min_geo, y_min_geo);
  max_pixel ← point_to_pixel_coordinates (GetGeoTransform raster)
                                         (x_max_geo, y_max_geo);
  let '(x_min_pixel, y_min_pixel) := min_pixel in
  let '(x_max_pixel, y_max_pixel) := max_pixel in
  (* Kludge time: swap the two values around if they are wrong *)
  let '(x_min_pixel, x_max_pixel) :=
    if x_min_pixel >=? x_max_pixel then (x_max_pixel, x_min_pixel)
    else (x_min_pixel, x_max_pixel) in
  let '(y_min_pixel, y_max_pixel) :=
    if y_min_pixel >=? y_max_pixel then (y_max_pixel, y_min_pixel)
    else (y_min_pixel, y_max_pixel) in
  Ok (x_min_pixel, x_max_pixel, y_min_pixel, y_max_pixel).

(** ** Grid allocator *)

(** [int(x)]: truncation toward zero. *)
Definition int_of_Q (x : Q) : Z := Z.quot (Qnum x) (Zpos (Qden x)).

(** [create_new_image_from_polygon(polygon, out_path, x_res, y_res, bands,
    projection, format, datatype)]; the caller keeps the path. *)
Definition create_new_image_from_polygon (polygon : polygon) (x_res y_res : Q)
    (bands : Z) (projection : string) (datatype : GDALDataType)
  : result Dataset :=
  let '(bounds_x_min, bounds_x_max, bounds_y_min, bounds_y_max) :=
    GetEnvelope polygon in
  w ← r_div (bounds_x_max - bounds_x_min)%Q x_res;
  let final_width_pixels := int_of_Q w in
  h ← r_div (bounds_y_max - bounds_y_min)%Q y_res;
  let final_height_pixels := int_of_Q h in
  out_raster ← driver_Create final_width_pixels final_height_pixels bands datatype;
  let out_raster :=
    SetGeoTransform out_raster
      (GeoTransform bounds_x_min x_res 0 bounds_y_max 0 (y_res * -1))%Q in
  Ok (SetProjection out_raster projection).

(** ** Windows of arrays *)

(** A three-dimensional array: its shape [(bands, y, x)] and its items. *)
Definition array3 : Type := Z * Z * Z * list band.

(** An axis of length one stands for as many copies as are asked for. *)
Definition stretch {A} (n : nat) (l : list A) : list A :=
  match l with
  | [x] => repeat x n
  | _ => l
  end.

(** Whether an axis of length [src] broadcasts to one of length [dst]. *)
Definition can_broadcast (src dst : Z) : bool := (src =? dst) || (src =? 1).

(** [a[b0:b1, y0:y1, x0:x1]] *)
Definition window3 (a : array3) (b0 b1 y0 y1 x0 x1 : Z) : array3 :=
  let '(b, h, w, items) := a in
  (slice_len b b0 b1, slice_len h y0 y1, slice_len w x0 x1,
   map (fun band => map (slice x0 x1) (slice y0 y1 band)) (slice b0 b1 items)).

(** Writing the items [new] through the view [a[b0:b1, y0:y1, x0:x1]]. *)
Definition write_window3 (items : list band) (b0 b1 y0 y1 x0 x1 : Z)
    (new : list band) : list band :=
  slice_write b0 b1
    (zip_with (fun band new_band =>
                 slice_write y0 y1
                   (zip_with (fun row new_row => slice_write x0 x1 new_row row)
                             (slice y0 y1 band) new_band)
                   band)
              (slice b0 b1 items) new)
    items.

(** [np.copyto(out[b0:b1, y0:y1, x0:x1], src, where=where_(src))]: the items
    of the array [out] afterwards. *)
Definition copyto (out : array3) (b0 b1 y0 y1 x0 x1 : Z) (src : array3)
    (where_ : Z → bool) : result (list band) :=
  let '(vb, vh, vw, view) := window3 out b0 b1 y0 y1 x0 x1 in
  let '(sb, sh, sw, src_items) := src in
  if can_broadcast sb vb && can_broadcast sh vh && can_broadcast sw vw then
    let new :=
      zip_with (fun dst_band src_band =>
        zip_with (fun dst_row src_row =>
          zip_with (fun d s => if where_ s then s else d)
                   dst_row (stretch (length dst_row) src_row))
          dst_band (stretch (length dst_band) src_band))
        view (stretch (length view) src_items) in
    Ok (write_window3 (snd out) b0 b1 y0 y1 x0 x1 new)
  else Raise ValueError.

(** Indexing [a[.., .., ..]] with three indices needs three axes. *)
Definition three_axes (a : ndarray) : result array3 :=
  match a with
  | Arr3 b h w items => Ok (b, h, w, items)
  | Arr2 _ _ _ => Raise IndexError
  end.

(** [a[y0:y1, x0:x1]]: the first two axes, whatever they are. *)
Definition window2 (a : ndarray) (y0 y1 x0 x1 : Z) : ndarray :=
  match a with
  | Arr2 h w items =>
      Arr2 (slice_len h y0 y1) (slice_len w x0 x1)
           (map (slice x0 x1) (slice y0 y1 items))
  | Arr3 b h w items =>
      Arr3 (slice_len b y0 y1) (slice_len h x0 x1) w
           (map (slice x0 x1) (slice y0 y1 items))
  end.

(** Two axes broadcast against each other when they agree or one is 1. *)
Definition axes_agree (m n : Z) : bool := (m =? n) || (m =? 1) || (n =? 1).
Definition axis_of (m n : Z) : Z := if m =? 1 then n else m.

Definition zip_stretch {A} (f : A → A → A) (l1 l2 : list A) : list A :=
  zip_with f (stretch (length l2) l1) (stretch (length l1) l2).

Definition bitwise_band (op : Z → Z → Z) (a b : band) : band :=
  zip_stretch (zip_stretch op) a b.

(** A binary ufunc such as [np.bitwise_or(a, b)]: a new array. *)
Definition bitwise (op : Z → Z → Z) (a b : ndarray) : result ndarray :=
  match a, b with
  | Arr2 h1 w1 x, Arr2 h2 w2 y =>
      if axes_agree h1 h2 && axes_agree w1 w2
      then Ok (Arr2 (axis_of h1 h2) (axis_of w1 w2) (bitwise_band op x y))
      else Raise ValueError
  | Arr2 h1 w1 x, Arr3 b2 h2 w2 y =>
      if axes_agree h1 h2 && axes_agree w1 w2
      then Ok (Arr3 b2 (axis_of h1 h2) (axis_of w1 w2)
                    (map (bitwise_band op x) y))
      else Raise ValueError
  | Arr3 b1 h1 w1 x, Arr2 h2 w2 y =>
      if axes_agree h1 h2 && axes_agree w1 w2
      then Ok (Arr3 b1 (axis_of h1 h2) (axis_of w1 w2)
                    (map (fun xb => bitwise_band op xb y) x))
      else Raise ValueError
  | Arr3 b1 h1 w1 x, Arr3 b2 h2 w2 y =>
      if axes_agree b1 b2 && axes_agree h1 h2 && axes_agree w1 w2
      then Ok (Arr3 (axis_of b1 b2) (axis_of h1 h2) (axis_of w1 w2)
                    (zip_stretch (bitwise_band op) x y))
      else Raise ValueError
  end.

(** [np.bitwise_not(a)] on bytes: a new array. *)
Definition bitwise_not (a : ndarray) : ndarray :=
  match a with
  | Arr2 h w x => Arr2 h w (map (map (fun v => 255 - v)) x)
  | Arr3 b h w x => Arr3 b h w (map (map (map (fun v => 255 - v))) x)
  end.

(** ** Compositor *)

(** [[gdal.Open(p) for p in paths]] *)
Definition open_all (paths : list string) : io (list Dataset) :=
  fun fs => (mapM (gdal_Open fs) paths, fs).

(** [rasters[0]] *)
Definition first_of (rasters : list Dataset) : result Dataset :=
  match rasters with
  | r :: _ => Ok r
  | [] => Raise IndexError
  end.

(** The loop of [stack_images] over the rasters; the dataset returned is
    [out_raster] with what was copied into its array so far. *)
Fixpoint stack_loop (combined_polygons : polygon) (rasters : list Dataset)
    (present_layer : Z) (out_raster : Dataset) : result unit * Dataset :=
  match rasters with
  | [] => (Ok tt, out_raster)
  | in_raster :: rest =>
      let copied : result (list band) :=
        let in_raster_array := GetVirtualMemArray in_raster in
        '(out_x_min, out_x_max, out_y_min, out_y_max) ←
          pixel_bounds_from_polygon out_raster combined_polygons;
        '(in_x_min, in_x_max, in_y_min, in_y_max) ←
          pixel_bounds_from_polygon in_raster combined_polygons;
        let in_raster_array := expand_if_2d in_raster_array in
        out_raster_array ← three_axes (GetVirtualMemArray out_raster);
        let in_raster_view :=
          window3 in_raster_array 0 (RasterCount in_raster)
                  in_y_min in_y_max in_x_min in_x_max in
        copyto out_raster_array
               present_layer (present_layer + RasterCount in_raster)
               out_y_min out_y_max out_x_min out_x_max
               in_raster_view (fun _ => true) in
      match copied with
      | Raise e => (Raise e, out_raster)
      | Ok items =>
          stack_loop combined_polygons rest
                     (present_layer + RasterCount in_raster)
                     (set_pixels out_raster items)
      end
  end.

(** [sum(raster.RasterCount for raster in rasters)] *)
Definition total_layers (rasters : list Dataset) : Z :=
  fold_right Z.add 0 (map RasterCount rasters).

(** [stack_images(raster_paths, out_raster_path, geometry_mode)], with the
    default format and datatype. *)
Definition stack_images (raster_paths : list string) (out_raster_path : string)
    (geometry_mode : string) : io unit :=
  if Z.of_nat (length raster_paths) <=? 1
  then lift (Raise (StackImagesException
                      "stack_images requires at least two input images"))
  else
    rasters ← open_all raster_paths;
    first ← lift (first_of rasters);
    let projection := GetProjection first in
    let in_gt := GetGeoTransform first in
    let x_res := gt_1 in_gt in
    let y_res := (gt_5 in_gt * -1)%Q in
    combined_polygons ← lift (get_combined_polygon rasters geometry_mode);
    out_raster ← lift (create_new_image_from_polygon combined_polygons
                         x_res y_res (total_layers rasters) projection GDT_Int32);
    _ ← flush out_raster_path out_raster;
    written out_raster_path (stack_loop combined_polygons rasters 0 out_raster).

(** The loop of [mosaic_images]. *)
Fixpoint mosaic_loop (nodata : Z) (rasters : list Dataset)
    (out_raster : Dataset) : result unit * Dataset :=
  match rasters with
  | [] => (Ok tt, out_raster)
  | raster :: rest =>
      let copied : result (list band) :=
        let in_raster_array := expand_if_2d (GetVirtualMemArray raster) in
        let in_bounds := get_raster_bounds raster in
        '(out_x_min, out_x_max, out_y_min, out_y_max) ←
          pixel_bounds_from_polygon out_raster in_bounds;
        out_raster_array ← three_axes (GetVirtualMemArray out_raster);
        copyto out_raster_array 0 (RasterCount out_raster)
               out_y_min out_y_max out_x_min out_x_max
               in_raster_array (fun v => negb (v =? nodata)) in
      match copied with
      | Raise e => (Raise e, out_raster)
      | Ok items => mosaic_loop nodata rest (set_pixels out_raster items)
      end
  end.

(** [mosaic_images(raster_paths, out_raster_file, nodata=..)], with the
    default format and datatype. *)
Definition mosaic_images (raster_paths : list string) (out_raster_file : string)
    (nodata : Z) : io unit :=
  rasters ← open_all raster_paths;
  first ← lift (first_of rasters);
  let projection := GetProjection first in
  let in_gt := GetGeoTransform first in
  let x_res := gt_1 in_gt in
  let y_res := (gt_5 in_gt * -1)%Q in
  combined_polyon ← lift (get_combined_polygon rasters "union");
  let layers := RasterCount first in
  out_raster ← lift (create_new_image_from_polygon combined_polyon
                       x_res y_res layers projection GDT_Int32);
  _ ← flush out_raster_file out_raster;
  written out_raster_file (mosaic_loop nodata rasters out_raster).

(** ** Mask algebra *)

(** [a[:, :] = v] *)
Definition fill (d : Dataset) (v : Z) : Dataset :=
  set_pixels d (map (map (map (fun _ => v))) (pixels d)).

(** The loop of [combine_masks] over the input masks.  Each turn takes the
    views, computes the combination as a new array and binds the name
    [out_mask_view] to it: the array of [out_mask] is read, never written.
    The names are compared with [is]; the literals of a caller are the
    interned strings the comparison expects. *)
Fixpoint combine_loop (combination_func geometry_func : string)
    (combined_polygon : polygon) (masks : list Dataset) (out_mask : Dataset)
  : result unit :=
  match masks with
  | [] => Ok tt
  | in_mask :: rest =>
      let out_mask_array := GetVirtualMemArray out_mask in
      let in_mask_array := GetVirtualMemArray in_mask in
      '(out_bounds, in_bounds) ←
        (if String.eqb geometry_func "intersect" then
           o ← pixel_bounds_from_polygon out_mask combined_polygon;
           i ← pixel_bounds_from_polygon in_mask combined_polygon;
           Ok (o, i)
         else if String.eqb geometry_func "union" then
           o ← pixel_bounds_from_polygon out_mask (get_raster_bounds in_mask);
           i ← pixel_bounds_from_polygon in_mask (get_raster_bounds in_mask);
           Ok (o, i)
         else Raise (Exception
                       "Invalid geometry_func; can be 'intersect' or 'union'"));
      let '(out_x_min, out_x_max, out_y_min, out_y_max) := out_bounds in
      let '(in_x_min, in_x_max, in_y_min, in_y_max) := in_bounds in
      let out_mask_view :=
        window2 out_mask_array out_y_min out_y_max out_x_min out_x_max in
      let in_mask_view :=
        window2 in_mask_array in_y_min in_y_max in_x_min in_x_max in
      out_mask_view ←
        (if String.eqb combination_func "or" then
           bitwise Z.lor out_mask_view in_mask_view
         else if String.eqb combination_func "and" then
           bitwise Z.land out_mask_view in_mask_view
         else if String.eqb combination_func "nor" then
           either ← bitwise Z.lor out_mask_view in_mask_view;
           Ok (bitwise_not either)
         else Raise (Exception
           "Invalid combination_func; valid values are 'or', 'and', and 'nor'"));
      combine_loop combination_func geometry_func combined_polygon rest out_mask
  end.

(** [combine_masks(mask_paths, out_path, combination_func, geometry_func)] *)
Definition combine_masks (mask_paths : list string) (out_path : string)
    (combination_func geometry_func : string) : io string :=
  masks ← open_all mask_paths;
  combined_polygon ← lift (get_combined_polygon masks geometry_func);
  first ← lift (first_of masks);
  let gt := GetGeoTransform first in
  let x_res := gt_1 gt in
  let y_res := (gt_5 gt * -1)%Q in
  let bands := 1 in
  let projection := GetProjection first in
  out_mask ← lift (create_new_image_from_polygon combined_polygon x_res y_res
                     bands projection GDT_Byte);
  _ ← flush out_path out_mask;
  let out_mask := fill out_mask 1 in
  _ ← flush out_path out_mask;
  _ ← lift (combine_loop combination_func geometry_func combined_polygon
                         masks out_mask);
  mret out_path.

(** ** Names and paths *)

(** [c in s] for a character [c] *)
Fixpoint occurs (c : Ascii.ascii) (s : string) : bool :=
  match s with
  | EmptyString => false
  | String a rest => Ascii.eqb a c || occurs c rest
  end.

(** [s.split(sep)] for a separator of one character: at least one part,
    one more than there are separators.  Without a limit [s.rsplit(sep)]
    gives the same list. *)
Fixpoint str_split (sep : Ascii.ascii) (s : string) : list string :=
  match s with
  | EmptyString => [EmptyString]
  | String c rest =>
      if Ascii.eqb c sep then EmptyString :: str_split sep rest
      else match str_split sep rest with
           | part :: parts => String c part :: parts
           | [] => [String c EmptyString]
           end
  end.

(** [l[i]]: a negative index counts from the end. *)
Definition item {A} (i : Z) (l : list A) : result A :=
  let n := Z.of_nat (length l) in
  let i := if i <? 0 then i + n else i in
  if (0 <=? i) && (i <? n)
  then match l !! Z.to_nat i with
       | Some x => Ok x
       | None => Raise IndexError
       end
  else Raise IndexError.

(** [p[:i], p[i:]] for [i = p.rfind(sep) + 1]: the part up to the last
    separator, the separator included, and what follows it. *)
Fixpoint cut_after_last (sep : Ascii.ascii) (p : string) : string * string :=
  match p with
  | EmptyString => (EmptyString, EmptyString)
  | String c rest =>
      match cut_after_last sep rest with
      | (EmptyString, tail) =>
          if Ascii.eqb c sep then (String c EmptyString, tail)
          else (EmptyString, String c tail)
      | (head, tail) => (String c head, tail)
      end
  end.

(** [s.rstrip(sep)] *)
Fixpoint rstrip (sep : Ascii.ascii) (s : string) : string :=
  match s with
  | EmptyString => EmptyString
  | String c rest =>
      match rstrip sep rest with
      | EmptyString => if Ascii.eqb c sep then EmptyString
                       else String c EmptyString
      | kept => String c kept
      end
  end.

(** [s.startswith(c)] and [s.endswith(c)] for a character [c] *)
Definition startswith (c : Ascii.ascii) (s : string) : bool :=
  match s with
  | String a _ => Ascii.eqb a c
  | EmptyString => false
  end.
Fixpoint endswith (c : Ascii.ascii) (s : string) : bool :=
  match s with
  | EmptyString => false
  | String a EmptyString => Ascii.eqb a c
  | String _ rest => endswith c rest
  end.

(** [os.path.basename(p)] *)
Definition basename (p : string) : string := snd (cut_after_last "/"%char p).

(** [os.path.dirname(p)]: the slashes that end the head are dropped, unless
    the head is nothing but slashes. *)
Definition dirname (p : string) : string :=
  let head := fst (cut_after_last "/"%char p) in
  match rstrip "/"%char head with
  | EmptyString => head
  | stripped => stripped
  end.

(** [os.path.join(a, b)] *)
Definition join (a b : string) : string :=
  if startswith "/"%char b then b
  else if String.eqb a EmptyString || endswith "/"%char a then a +:+ b
  else a +:+ "/" +:+ b.

(** [get_mask_path(image_path)] *)
Definition get_mask_path (image_path : string) : result string :=
  let image_name := basename image_path in
  let image_dir := dirname image_path in
  stem ← item 0 (str_split "."%char image_name);
  let mask_name := stem +:+ ".msk" in
  let mask_path := join image_dir mask_name in
  Ok mask_path.

(** [get_sen_2_image_orbit(image_name)] *)
Definition get_sen_2_image_orbit (image_name : string) : result string :=
  tmp1 ← item (-1) (str_split "/"%char image_name);
  tmp2 ← item 0 (str_split "."%char tmp1);
  let comps := str_split "_"%char tmp2 in
  item 4 comps.

(** [get_sen_2_image_tile(image_name)] *)
Definition get_sen_2_image_tile (image_name : string) : result string :=
  tmp1 ← item (-1) (str_split "/"%char image_name);
  tmp2 ← item 0 (str_split "."%char tmp1);
  let comps := str_split "_"%char tmp2 in
  item 5 comps.

(** [get_sen_2_granule_id(safe_dir)] *)
Definition get_sen_2_granule_id (safe_dir : string) : result string :=
  tmp ← item (-1) (str_split "/"%char safe_dir);
  item 0 (str_split "."%char tmp).

(** ** The corner of one raster in the grid of another *)

(** [get_local_top_left(raster1, raster2)] *)
Definition get_local_top_left (raster1 raster2 : Dataset) : result (Z * Z) :=
  let inner_gt := GetGeoTransform raster2 in
  point_to_pixel_coordinates (GetGeoTransform raster1)
                             (gt_0 inner_gt, gt_3 inner_gt).

(** ** Masks from a model *)

(** [np.where(a != model_clear, 0, 1)] *)
Definition where_clear (model_clear : Z) (a : ndarray) : ndarray :=
  let clear := fun v => if negb (v =? model_clear) then 0 else 1 in
  match a with
  | Arr2 h w x => Arr2 h w (map (map clear) x)
  | Arr3 b h w x => Arr3 b h w (map (map (map clear)) x)
  end.

(** [a[:, :] = values] for an array [a] of [h] rows and [w] columns: the
    values are broadcast to the shape of [a]; a first axis of length one
    is dropped, any other third axis is refused. *)
Definition assign_2d (h w : Z) (values : ndarray) : result band :=
  let fit (h' w' : Z) (v : band) : result band :=
    if can_broadcast h' h && can_broadcast w' w
    then Ok (map (stretch (Z.to_nat w)) (stretch (Z.to_nat h) v))
    else Raise ValueError in
  match values with
  | Arr2 h' w' v => fit h' w' v
  | Arr3 b h' w' v => if b =? 1 then fit h' w' (hd [] v) else Raise ValueError
  end.

(** [create_mask_from_model(image_path, model_path, model_clear, num_chunks)]
    with the default [buffer_size=0].  [td] is the directory that
    [TemporaryDirectory()] makes: it is new, the class image is all the
    block writes to it, and it is removed when the block is left, by
    [return] or by an exception.  The chunk count handed to
    [classify_image] is the literal 10, not [num_chunks]. *)
Definition create_mask_from_model (available : Z) (model : Model) (td : string)
    (image_path : string) (model_clear num_chunks : Z) : io string :=
  let temp_mask_path := join td "cat_mask.tif" in
  let block : io string :=
    _ ← classify_image available model image_path temp_mask_path (Some 10) 0;
    temp_mask ← open temp_mask_path;
    let temp_mask_array := GetVirtualMemArray temp_mask in
    mask_path ← lift (get_mask_path image_path);
    mask ← lift (create_matching_dataset temp_mask 1 GDT_Byte);
    _ ← flush mask_path mask;
    values ← lift (assign_2d (RasterYSize mask) (RasterXSize mask)
                             (where_clear model_clear temp_mask_array));
    _ ← flush mask_path (set_pixels mask [values]);
    mret mask_path in
  fun fs => (fst (block fs), delete temp_mask_path (snd (block fs))).

(** ** The masked composite *)

(** [a.shape], [a.size] and the items of [a] in row-major order *)
Definition shape (a : ndarray) : list Z :=
  match a with
  | Arr2 h w _ => [h; w]
  | Arr3 b h w _ => [b; h; w]
  end.
Definition size (a : ndarray) : Z := fold_right Z.mul 1 (shape a).
Definition flat (a : ndarray) : list Z :=
  match a with
  | Arr2 _ _ x => concat x
  | Arr3 _ _ _ x => concat (map (fun band : band => concat band) x)
  end.

(** A flat list cut into [k] rows of [n] items. *)
Definition rows_of {A} (n k : Z) (l : list A) : list (list A) :=
  map (fun j => firstn (Z.to_nat n) (skipn (j * Z.to_nat n) l))
      (seq 0 (Z.to_nat k)).

(** [np.reshape(items, data.shape)] *)
Definition reshape_like (data : ndarray) (items : list Z) : ndarray :=
  match data with
  | Arr2 h w _ => Arr2 h w (rows_of w h items)
  | Arr3 b h w _ => Arr3 b h w (map (rows_of w h) (rows_of (h * w) b items))
  end.

(** [np.logical_not(a)], with 1 for [True] and 0 for [False] *)
Definition logical_not (a : ndarray) : ndarray :=
  let flip := fun v => if v =? 0 then 1 else 0 in
  match a with
  | Arr2 h w x => Arr2 h w (map (map flip) x)
  | Arr3 b h w x => Arr3 b h w (map (map (map flip)) x)
  end.

(** [project_array(array_in, depth, 0)] for an array of two axes: a new
    first axis, along which the array is repeated [depth] times. *)
Definition project_array (h w : Z) (array_in : band) (depth : Z) : ndarray :=
  Arr3 depth h w (repeat array_in (Z.to_nat depth)).

(** [np.ma.array(data, mask=mask)]: the data and a mask of its shape.  A
    mask of another shape is repeated when it has one item, reshaped when
    it has as many items as the data, and refused otherwise (numpy's
    [MaskError], an [Exception] the engine does not name). *)
Definition ma_array (data mask : ndarray) : result (ndarray * ndarray) :=
  if bool_decide (shape mask = shape data) then Ok (data, mask)
  else if size mask =? 1
  then Ok (data, reshape_like data (repeat (hd 0 (flat mask))
                                           (Z.to_nat (size data))))
  else if size mask =? size data
  then Ok (data, reshape_like data (flat mask))
  else Raise (Exception "Mask and data not compatible").

(** [get_masked_array(raster, mask_path)]: the array of the raster and
    the mask of the masked array, which is set where the mask image is 0. *)
Definition get_masked_array (fs : files) (raster : Dataset) (mask_path : string)
  : result (ndarray * ndarray) :=
  mask ← gdal_Open fs mask_path;
  let mask_array := GetVirtualMemArray mask in
  let raster_array := GetVirtualMemArray raster in
  let mask_array :=
    match mask_array, raster_array with
    | Arr2 h w a, Arr3 b _ _ _ => project_array h w a b
    | _, _ => mask_array
    end in
  ma_array raster_array (logical_not mask_array).

Fixpoint zip_with3 {A B C D} (f : A → B → C → D)
    (l1 : list A) (l2 : list B) (l3 : list C) : list D :=
  match l1, l2, l3 with
  | a :: l1, b :: l2, c :: l3 => f a b c :: zip_with3 f l1 l2 l3
  | _, _, _ => []
  end.

(** [np.copyto(out[b0:b1, y0:y1, x0:x1], src, where=where_)] for a source
    and a [where_] array that both broadcast to the view: the items of
    the array [out] afterwards. *)
Definition copyto_where (out : array3) (b0 b1 y0 y1 x0 x1 : Z)
    (src where_ : array3) : result (list band) :=
  let '(vb, vh, vw, view) := window3 out b0 b1 y0 y1 x0 x1 in
  let '(sb, sh, sw, src_items) := src in
  let '(wb, wh, ww, where_items) := where_ in
  if can_broadcast sb vb && can_broadcast sh vh && can_broadcast sw vw
     && can_broadcast wb vb && can_broadcast wh vh && can_broadcast ww vw
  then
    let new :=
      zip_with3 (fun dst_band src_band where_band =>
        zip_with3 (fun dst_row src_row where_row =>
          zip_with3 (fun d s w => if w =? 0 then d else s)
                    dst_row (stretch (length dst_row) src_row)
                    (stretch (length dst_row) where_row))
          dst_band (stretch (length dst_band) src_band)
          (stretch (length dst_band) where_band))
        view (stretch (length view) src_items)
        (stretch (length view) where_items) in
    Ok (write_window3 (snd out) b0 b1 y0 y1 x0 x1 new)
  else Raise ValueError.

(** The loop of [composite_images_with_mask] over the rasters and their
    paths.  The mask of each raster is opened when its turn comes; what a
    turn copies is in the file of the composite before the next. *)
Fixpoint composite_loop (composite_out_path : string)
    (sources : list (string * Dataset)) (composite_image : Dataset)
    (mask_paths : list string) : io (list string) :=
  match sources with
  | [] => mret mask_paths
  | (in_raster_path, in_raster) :: rest =>
      fun fs =>
        let output_array := expand_if_2d (GetVirtualMemArray composite_image) in
        let step : result (list string * list band) :=
          let in_bounds := get_raster_bounds in_raster in
          '(x_min, x_max, y_min, y_max) ←
            pixel_bounds_from_polygon composite_image in_bounds;
          mask_path ← get_mask_path in_raster_path;
          let mask_paths := mask_paths ++ [mask_path] in
          '(data, mask) ← get_masked_array fs in_raster mask_path;
          items ← copyto_where output_array 0 (fst (fst (fst output_array)))
                               y_min y_max x_min x_max
                               (expand_if_2d data)
                               (expand_if_2d (logical_not mask));
          Ok (mask_paths, items) in
        match step with
        | Raise e => (Raise e, fs)
        | Ok (mask_paths, items) =>
            let composite_image := set_pixels composite_image items in
            composite_loop composite_out_path rest composite_image mask_paths
                           (<[composite_out_path := composite_image]> fs)
        end
  end.

(** [composite_images_with_mask(in_raster_path_list, composite_out_path)] *)
Definition composite_images_with_mask (in_raster_path_list : list string)
    (composite_out_path : string) : io string :=
  in_raster_list ← open_all in_raster_path_list;
  first ← lift (first_of in_raster_list);
  let projection := GetProjection first in
  let in_gt := GetGeoTransform first in
  let x_res := gt_1 in_gt in
  let y_res := (gt_5 in_gt * -1)%Q in
  let n_bands := RasterCount first in
  let datatype := DataType first in
  out_bounds ← lift (get_combined_polygon in_raster_list "union");
  composite_image ← lift (create_new_image_from_polygon out_bounds x_res y_res
                            n_bands projection datatype);
  _ ← flush composite_out_path composite_image;
  mask_paths ← composite_loop composite_out_path
                 (zip in_raster_path_list in_raster_list) composite_image [];
  stem ← lift (item 0 (str_split "."%char composite_out_path));
  _ ← combine_masks mask_paths (stem +:+ ".msk") "or" "union";
  mret composite_out_path.

(** ** Notions used to state the properties *)

(** What [classes] holds once the samples before the index [o] are
    classified and the others still hold their first value. *)
Definition done_to (model : Model) (good : list sample) (classes0 : list Z)
    (o : Z) : list Z :=
  predict model (firstn (Z.to_nat o) good) ++ skipn (Z.to_nat o) classes0.

(** The class map the index bookkeeping is meant to build: the label of
    every sample to keep, nodata for the others. *)
Definition labelled (label : sample → Z) (nodata : Z) (keep : sample → bool)
    (image_array : list sample) : list Z :=
  map (fun s => if keep s then label s else nodata) image_array.

(** The column of an x coordinate and the row of a y coordinate on a grid,
    in exact arithmetic. *)
Definition column_of (gt : geotransform Q) (x : Q) : Z :=
  Qfloor ((x - gt_0 gt) / gt_1 gt).
Definition row_of (gt : geotransform Q) (y : Q) : Z :=
  Qfloor ((y - gt_3 gt) / gt_5 gt).

(** The rectangle [r] is not empty and lies in the rectangle [outer]. *)
Definition inside (outer r : rect) : Prop :=
  (x_lo outer <= x_lo r)%Q ∧ (x_lo r <= x_hi r)%Q ∧ (x_hi r <= x_hi outer)%Q ∧
  (y_lo outer <= y_lo r)%Q ∧ (y_lo r <= y_hi r)%Q ∧ (y_hi r <= y_hi outer)%Q.

(** The polygon [p] is not empty and fully contained in the polygon [q]. *)
Definition contained (p q : polygon) : Prop :=
  p ≠ [] ∧ Forall (fun r => Exists (fun outer => inside outer r) q) p.

(** Two datasets on the same grid: all but the pixels agree. *)
Definition same_grid (d d' : Dataset) : Prop :=
  RasterXSize d' = RasterXSize d ∧ RasterYSize d' = RasterYSize d
  ∧ RasterCount d' = RasterCount d
  ∧ GetGeoTransform d' = GetGeoTransform d
  ∧ GetProjection d' = GetProjection d.

(** The items of an array of shape [(b, y, x)]. *)
Definition shaped (b y x : Z) (a : list band) : Prop :=
  Z.of_nat (length a) = b
  ∧ Forall (fun band =>
              Z.of_nat (length band) = y
              ∧ Forall (fun row : list Z => Z.of_nat (length row) = x) band) a.

(** Every item of the array satisfies [P]. *)
Definition all_items (P : Z → Prop) (a : list band) : Prop :=
  Forall (Forall (Forall P)) a.

(** A dataset as GDAL hands it out: at least one pixel and one band, and
    an array of the shape its sizes announce. *)
Definition well_formed (d : Dataset) : Prop :=
  1 <= RasterXSize d ∧ 1 <= RasterYSize d ∧ 1 <= RasterCount d
  ∧ shaped (RasterCount d) (RasterYSize d) (RasterXSize d) (pixels d).

(** Two rectangles with the same sides. *)
Definition same_region (f g : rect) : Prop :=
  (x_lo g == x_lo f)%Q ∧ (x_hi g == x_hi f)%Q
  ∧ (y_lo g == y_lo f)%Q ∧ (y_hi g == y_hi f)%Q.

(** Two datasets whose grids coincide: the same corner, pixel size and
    numbers of columns and rows. *)
Definition coincide (d d' : Dataset) : Prop :=
  (gt_0 (GetGeoTransform d') == gt_0 (GetGeoTransform d))%Q
  ∧ (gt_1 (GetGeoTransform d') == gt_1 (GetGeoTransform d))%Q
  ∧ (gt_3 (GetGeoTransform d') == gt_3 (GetGeoTransform d))%Q
  ∧ (gt_5 (GetGeoTransform d') == gt_5 (GetGeoTransform d))%Q
  ∧ RasterXSize d' = RasterXSize d ∧ RasterYSize d' = RasterYSize d.

(** The array of a new image: every pixel zero. *)
Definition blank (b y x : Z) : list band :=
  repeat (repeat (repeat 0 (Z.to_nat x)) (Z.to_nat y)) (Z.to_nat b).

(** One array laid over another of the same shape: the pixel of [above]
    where [where_] accepts it, the pixel of [below] elsewhere. *)
Definition overlay (where_ : Z → bool) (below above : list band) : list band :=
  zip_with (zip_with (zip_with (fun d s => if where_ s then s else d)))
           below above.

(** A mosaic of two arrays: [above] wherever it is not nodata. *)
Definition mosaic_of (nodata : Z) (below above : list band) : list band :=
  overlay (fun v => negb (v =? nodata)) below above.

(** The sample of the pixel in row [j], column [i]: its value in each band. *)
Definition sample_at (a : list band) (j i : nat) : sample :=
  map (fun band => nth i (nth j band []) 0) a.

(** The samples of an image, row by row. *)
Definition samples_of (image : Dataset) : list sample :=
  flat_map (fun j => map (fun i => sample_at (pixels image) j i)
                         (seq 0 (Z.to_nat (RasterXSize image))))
           (seq 0 (Z.to_nat (RasterYSize image))).

(** The class map of an image, pixel by pixel: the label of the sample
    of the pixel, nodata where a band of it is nodata. *)
Definition class_map_of (model : Model) (nodata : Z) (image : Dataset) : band :=
  map (fun j =>
         map (fun i =>
                let s := sample_at (pixels image) j i in
                if all_not nodata s then predict_one model s else nodata)
             (seq 0 (Z.to_nat (RasterXSize image))))
      (seq 0 (Z.to_nat (RasterYSize image))).

(** [sep.join(parts)] *)
Fixpoint str_join (sep : Ascii.ascii) (parts : list string) : string :=
  match parts with
  | [] => EmptyString
  | [part] => part
  | part :: rest => part +:+ String sep (str_join sep rest)
  end.

(** The rectangle [f] has the sides of the footprint of the dataset [d]. *)
Definition foot_of (d : Dataset) (f : rect) : Prop :=
  (x_lo f == gt_0 (GetGeoTransform d))%Q
  ∧ (x_hi f == gt_0 (GetGeoTransform d)
               + gt_1 (GetGeoTransform d) * inject_Z (RasterXSize d))%Q
  ∧ (y_lo f == gt_3 (GetGeoTransform d)
               + gt_5 (GetGeoTransform d) * inject_Z (RasterYSize d))%Q
  ∧ (y_hi f == gt_3 (GetGeoTransform d))%Q.

(** A polygon that is not empty and whose every rectangle has the sides
    of [f]. *)
Definition covers (f : rect) (p : polygon) : Prop :=
  p ≠ [] ∧ Forall (same_region f) p.

(** A band of [y] rows of [x] pixels. *)
Definition rows_ok (y x : Z) (band : band) : Prop :=
  Z.of_nat (length band) = y
  ∧ Forall (fun row : list Z => Z.of_nat (length row) = x) band.

(** The class image of an image: one band of bytes on the grid of the
    image, holding its class map. *)
Definition class_image_of (model : Model) (nodata : Z) (image : Dataset)
  : Dataset :=
  {| RasterXSize := RasterXSize image; RasterYSize := RasterYSize image;
     RasterCount := 1; GetGeoTransform := GetGeoTransform image;
     GetProjection := GetProjection image; DataType := GDT_Byte;
     pixels := [class_map_of model nodata image] |}.

(** One array laid over another through a mask of one band: the pixel of
    [above] where the mask is not zero, the pixel of [below] elsewhere, in
    every band. *)
Definition masked_over (mask : band) (below above : list band) : list band :=
  zip_with (fun below_band above_band =>
              zip_with3 (zip_with3 (fun d s w => if w =? 0 then d else s))
                        below_band above_band mask)
           below above.

(** The rows [y0 .. y1] and the columns [x0 .. x1] of every band. *)
Definition crop (y0 y1 x0 x1 : Z) (a : list band) : list band :=
  map (fun band => map (slice x0 x1) (slice y0 y1 band)) a.

(** A row with a patch laid into it from column [x0] on: the pixel of the
    patch where [where_] accepts it, the pixel of the row elsewhere and
    beside the patch.  The same for the rows of a band from row [y0] on,
    and for every band of an array. *)
Definition inset_row (where_ : Z → bool) (x0 : nat) (row patch : list Z)
  : list Z :=
  firstn x0 row
  ++ zip_with (fun d s => if where_ s then s else d)
              (firstn (length patch) (skipn x0 row)) patch
  ++ skipn (x0 + length patch) row.
Definition inset_band (where_ : Z → bool) (y0 x0 : nat) (below patch : band)
  : band :=
  firstn y0 below
  ++ zip_with (inset_row where_ x0) (firstn (length patch) (skipn y0 below))
              patch
  ++ skipn (y0 + length patch) below.
Definition inset (where_ : Z → bool) (y0 x0 : nat) (below patch : list band)
  : list band :=
  zip_with (inset_band where_ y0 x0) below patch.

(** ** Worked inputs *)

(** A north-up grid: origin [(x0, y0)], square pixels of side [res]. *)
Definition north_up (x0 y0 res : Q) : geotransform Q :=
  GeoTransform x0 res 0%Q y0 0%Q (- res)%Q.

(** A raster given by its grid and its bands. *)
Definition raster_of (gt : geotransform Q) (datatype : GDALDataType)
    (bands : list band) : Dataset :=
  {| RasterXSize := Z.of_nat (length (hd [] (hd [] bands)));
     RasterYSize := Z.of_nat (length (hd [] bands));
     RasterCount := Z.of_nat (length bands);
     GetGeoTransform := gt;
     GetProjection := "EPSG:32736";
     DataType := datatype;
     pixels := bands |}.

(** A band of [ysize] rows and [xsize] columns, every pixel [v]. *)
Definition flat_band (xsize ysize : nat) (v : Z) : band :=
  repeat (repeat v xsize) ysize.

(** Two rasters of tile T1, two bands each, 10 by 10 pixels of 10 m; the
    second lies four columns further west, so they share six columns. *)
Definition tile_east : Dataset :=
  raster_of (north_up 0 100 10) GDT_Int32 [flat_band 10 10 7; flat_band 10 10 8].
Definition tile_west : Dataset :=
  raster_of (north_up (-40) 100 10) GDT_Int32 [flat_band 10 10 5; flat_band 10 10 6].
Definition tiles : files :=
  <["east.tif" := tile_east]> (<["west.tif" := tile_west]> ∅).

(** A model that labels a sample by its first band, plus ten. *)
Definition first_band_model : Model := {| predict_one := fun s => 10 + hd 0 s |}.

(** Two bands of 3 by 3 pixels, nine samples; two of them hold a zero. *)
Definition nine_samples : Dataset :=
  raster_of (north_up 0 30 10) GDT_Byte
    [ [[1; 2; 3]; [4; 0; 6]; [7; 8; 9]];
      [[9; 8; 7]; [6; 5; 4]; [0; 2; 1]] ].

(** Two bands of 2 rows and 7 columns, fourteen samples. *)
Definition fourteen_samples : Dataset :=
  raster_of (north_up 0 20 10) GDT_Byte
    [ [[1; 2; 3; 4; 5; 6; 7]; [8; 9; 1; 2; 3; 4; 5]];
      [[5; 4; 3; 2; 1; 9; 8]; [7; 6; 0; 4; 3; 2; 1]] ].

(** Two bands of one row and two columns; no pixel is zero, the first
    sample holds the value 5. *)
Definition sentinel_five : Dataset :=
  raster_of (north_up 0 10 10) GDT_Byte [ [[5; 3]]; [[7; 4]] ].

Definition samples_on_file : files :=
  <["nine.tif" := nine_samples]>
    (<["fourteen.tif" := fourteen_samples]>
       (<["five.tif" := sentinel_five]> ∅)).

(** Masks of 2 by 2 pixels on one grid. *)
Definition mask_of (rows : band) : Dataset :=
  raster_of (north_up 0 20 10) GDT_Byte [rows].
Definition masks_on_file : files :=
  <["m.msk" := mask_of [[1; 0]; [0; 1]]]>
    (<["ones.msk" := mask_of [[1; 1]; [1; 1]]]>
       (<["zeros.msk" := mask_of [[0; 0]; [0; 0]]]> ∅)).

(** A raster of one band; two bands of one pixel; two bands of four. *)
Definition one_band : Dataset :=
  raster_of (north_up 0 20 10) GDT_Int32 [ [[5; 6]; [7; 8]] ].
Definition one_pixel : Dataset :=
  raster_of (north_up 0 10 10) GDT_Byte [ [[9]]; [[4]] ].
Definition four_pixels : Dataset :=
  raster_of (north_up 0 20 10) GDT_Byte [ [[1; 2]; [3; 4]]; [[5; 6]; [7; 8]] ].

(** A grid in degrees, in binary64 and in exact arithmetic: origin
    [(0.1, 0.5)], pixels of [0.1] by [-0.1]. *)
Definition degrees64 : geotransform float :=
  GeoTransform 0.1%float 0.1%float 0%float 0.5%float 0%float (-0.1)%float.
Definition degrees : geotransform Q :=
  GeoTransform (1 # 10) (1 # 10) 0%Q (1 # 2) 0%Q (- (1 # 10))%Q.

(** A later raster on the grid of [four_pixels]; three of its pixels are
    zero in the first band, one in the second. *)
Definition four_pixels_later : Dataset :=
  raster_of (north_up 0 20 10) GDT_Byte [ [[0; 9]; [0; 0]]; [[9; 0]; [9; 9]] ].
Definition pair_on_file : files :=
  <["four.tif" := four_pixels]> (<["later.tif" := four_pixels_later]> ∅).

(** The two rasters of four pixels with their masks: the first is clear
    but for its last pixel, the later one only in its first row. *)
Definition pair_with_masks : files :=
  <["four.msk" := mask_of [[1; 1]; [1; 0]]]>
    (<["later.msk" := mask_of [[1; 1]; [0; 0]]]> pair_on_file).

(** A raster of one band with its mask. *)
Definition one_with_mask : files :=
  <["one.tif" := one_band]> (<["one.msk" := mask_of [[1; 0]; [0; 1]]]> ∅).


(** A raster of four pixels one column east and one row south of
    [four_pixels], on the same lattice; its first pixel is zero in the
    first band. *)
Definition four_pixels_aside : Dataset :=
  raster_of (north_up 10 10 10) GDT_Byte [ [[0; 9]; [9; 9]]; [[9; 0]; [9; 9]] ].
Definition aside_on_file : files :=
  <["four.tif" := four_pixels]> (<["aside.tif" := four_pixels_aside]> ∅).
(* ===================================================================== *)
(** * Properties *)
(* ===================================================================== *)

(** ** Slices *)

Section Slices.
Context {A : Type}.
Implicit Types l : list A.

Lemma clip_inside n i : 0 <= i <= n → clip n i = i.
Proof. intros H. unfold clip. destruct (Z.ltb_spec i 0); lia. Qed.

Lemma slice_inside lo hi l :
  0 <= lo <= hi → hi <= Z.of_nat (length l) →
  slice lo hi l = firstn (Z.to_nat (hi - lo)) (skipn (Z.to_nat lo) l).
Proof.
  intros H1 H2. unfold slice, slice_len.
  rewrite !clip_inside by lia. f_equal. lia.
Qed.

Lemma slice_write_inside lo hi new l :
  0 <= lo <= hi → hi <= Z.of_nat (length l) →
  slice_write lo hi new l
  = firstn (Z.to_nat lo) l ++ new ++ skipn (Z.to_nat hi) l.
Proof.
  intros H1 H2. unfold slice_write, slice_len.
  rewrite !clip_inside by lia. do 3 f_equal. lia.
Qed.

Lemma slice_all l : slice 0 (Z.of_nat (length l)) l = l.
Proof.
  rewrite slice_inside by lia. simpl.
  rewrite Z.sub_0_r, Nat2Z.id. apply firstn_all.
Qed.

Lemma broadcast_same n l : length l = n → broadcast n l = Ok l.
Proof. intros <-. unfold broadcast. now rewrite Nat.eqb_refl. Qed.
End Slices.

(** ** The chunk loop *)

Section ChunkLoop.
Variable model : Model.
Variable good : list sample.
Variable classes0 : list Z.
Hypothesis same_len : length classes0 = length good.

Lemma done_to_length o : 0 <= o → length (done_to model good classes0 o) = length good.
Proof using same_len.
  intros Ho. unfold done_to, predict.
  rewrite length_app, length_map, length_firstn, length_skipn. lia.
Qed.

Lemma done_to_all : done_to model good classes0 (Z.of_nat (length good)) = predict model good.
Proof using same_len.
  unfold done_to. rewrite Nat2Z.id, firstn_all, skipn_all2 by lia.
  apply app_nil_r.
Qed.

(** One chunk [offset : offset + c] moves the frontier from [o] to [o + c]. *)
Lemma assign_chunk o c :
  0 <= o → 0 <= c → o + c <= Z.of_nat (length good) →
  slice_assign o (o + c) (predict model (slice o (o + c) good)) (done_to model good classes0 o)
  = Ok (done_to model good classes0 (o + c)).
Proof using same_len.
  intros Ho Hc Hn. unfold slice_assign.
  assert (Hlen := done_to_length o Ho).
  rewrite (slice_inside o (o + c) good) by lia.
  rewrite (slice_inside o (o + c) (done_to model good classes0 o)) by lia.
  replace (o + c - o) with c by lia.
  rewrite broadcast_same.
  2:{ unfold predict. rewrite length_map, !length_firstn, !length_skipn. lia. }
  cbn. f_equal.
  rewrite slice_write_inside by lia.
  unfold done_to, predict.
  assert (Hf : length (map (predict_one model) (firstn (Z.to_nat o) good))
               = Z.to_nat o).
  { rewrite length_map, length_firstn. lia. }
  rewrite firstn_app, Hf, Nat.sub_diag, firstn_O, app_nil_r.
  rewrite firstn_all2 by lia.
  rewrite skipn_app, Hf.
  rewrite (skipn_all2 (n := Z.to_nat (o + c))) by lia.
  rewrite skipn_skipn. cbn [app].
  replace (Z.to_nat (o + c) - Z.to_nat o + Z.to_nat o)%nat
    with (Z.to_nat (o + c)) by lia.
  rewrite app_assoc, <- map_app. do 2 f_equal.
  replace (Z.to_nat (o + c)) with (Z.to_nat o + Z.to_nat c)%nat by lia.
  rewrite <- (firstn_skipn (Z.to_nat o) (firstn (Z.to_nat o + Z.to_nat c) good)).
  rewrite firstn_firstn, Nat.min_l by lia. f_equal.
  rewrite skipn_firstn_comm. f_equal. lia.
Qed.

(** The chunks [j, j+1, .., num_chunks - 1], run from the frontier
    [j * chunk_size], classify every good sample. *)
Lemma classify_chunks_from num_chunks chunk_size m : ∀ j : nat,
  0 <= chunk_size →
  chunk_size * num_chunks <= Z.of_nat (length good) →
  Z.of_nat (j + S m) = num_chunks →
  classify_chunks model num_chunks
    (Z.of_nat (length good) - chunk_size * num_chunks) good
    (map Z.of_nat (seq j (S m))) chunk_size (done_to model good classes0 (Z.of_nat j * chunk_size))
  = Ok (predict model good).
Proof using same_len.
  induction m as [|m IH]; intros j Hcs Hfit Hk.
  - (* the last chunk takes the residual *)
    cbn [seq map classify_chunks].
    replace (Z.of_nat j =? num_chunks - 1) with true
      by (symmetry; apply Z.eqb_eq; lia).
    set (o := Z.of_nat j * chunk_size).
    set (c := chunk_size + (Z.of_nat (length good) - chunk_size * num_chunks)).
    assert (Hoc : o + c = Z.of_nat (length good)) by (unfold o, c; nia).
    rewrite assign_chunk by (unfold o, c; nia).
    cbn. rewrite Hoc. now rewrite done_to_all.
  - cbn [seq map classify_chunks].
    replace (Z.of_nat j =? num_chunks - 1) with false
      by (symmetry; apply Z.eqb_neq; lia).
    rewrite assign_chunk by nia.
    cbn.
    replace (Z.of_nat j * chunk_size + chunk_size)
      with (Z.of_nat (S j) * chunk_size) by lia.
    apply (IH (S j)); lia.
Qed.
End ChunkLoop.

Lemma classify_chunks_all model good classes0 num_chunks :
  1 <= num_chunks →
  length classes0 = length good →
  let n := Z.of_nat (length good) in
  let chunk_size := Z.quot n num_chunks in
  classify_chunks model num_chunks (n - chunk_size * num_chunks) good
    (range num_chunks) chunk_size classes0
  = Ok (predict model good).
Proof.
  intros Hk Hlen n chunk_size.
  assert (Hq : chunk_size = n / num_chunks)
    by (apply Z.quot_div_nonneg; lia).
  assert (0 <= chunk_size) by (rewrite Hq; apply Z.div_pos; lia).
  assert (chunk_size * num_chunks <= n)
    by (rewrite Hq, Z.mul_comm; apply Z.mul_div_le; lia).
  unfold range.
  destruct (Z.to_nat num_chunks) as [|m] eqn:Hm; [lia|].
  pose proof (classify_chunks_from model good classes0 Hlen
                num_chunks chunk_size m 0%nat) as L.
  unfold done_to in L. cbn in L. apply L; lia.
Qed.

(** The class map, for any positive number of chunks: the labels of the good
    samples, each at the index it came from. *)
Lemma class_out_array_chunks model image_array nodata num_chunks :
  1 <= num_chunks →
  class_out_array model image_array (Some num_chunks) nodata
  = Ok (scatter (good_indices image_array nodata)
                (predict model (good_samples image_array nodata))
                (repeat nodata (length image_array))).
Proof.
  intros Hk. unfold class_out_array. cbn.
  unfold int_div. destruct (Z.eqb_spec num_chunks 0) as [|_]; [lia|].
  cbn. rewrite classify_chunks_all; [|lia|].
  - cbn. now rewrite Nat2Z.id.
  - now rewrite repeat_length, Nat2Z.id.
Qed.


(** ** Putting the labels back *)

Lemma insert_after {A} (done : list A) (x y : A) (l : list A) :
  <[length done := x]> (done ++ y :: l) = done ++ x :: l.
Proof.
  rewrite <- (Nat.add_0_r (length done)). now rewrite insert_app_r.
Qed.

Section Scatter.
Variable label : sample → Z.
Variable nodata : Z.
Variable keep : sample → bool.

Lemma scatter_kept image_array : ∀ (done : list Z),
  scatter
    (map fst (List.filter (fun ij => keep (snd ij))
                (combine (map Z.of_nat (seq (length done) (length image_array)))
                         image_array)))
    (map label (List.filter keep image_array))
    (done ++ repeat nodata (length image_array))
  = done ++ labelled label nodata keep image_array.
Proof.
  induction image_array as [|s rest IH]; intros done; [reflexivity|].
  cbn [length seq map combine List.filter snd labelled].
  specialize (IH (done ++ [if keep s then label s else nodata])).
  rewrite length_app, Nat.add_1_r, <- !app_assoc in IH. cbn [app] in IH.
  destruct (keep s); [|exact IH].
  cbn [map fst]. unfold scatter in *. cbn [combine fold_left fst snd].
  rewrite Nat2Z.id. cbn [repeat].
  rewrite insert_after. exact IH.
Qed.
End Scatter.

Lemma filter_all {A} (f : A → bool) (l : list A) :
  forallb f l = true → List.filter f l = l.
Proof.
  induction l as [|x l IH]; cbn; [reflexivity|].
  intros [-> H]%andb_true_iff. now rewrite IH.
Qed.

Lemma labelled_all label nodata keep image_array :
  forallb keep image_array = true →
  labelled label nodata keep image_array = map label image_array.
Proof.
  unfold labelled. induction image_array as [|x l IH]; cbn; [reflexivity|].
  intros [-> H]%andb_true_iff. now rewrite IH.
Qed.

(** An array without a zero has no sample with a zero band. *)
Lemma no_zero_sample (s : sample) :
  existsb (Z.eqb 0) s = false → all_not 0 s = true.
Proof.
  unfold all_not. induction s as [|v s IH]; [reflexivity|].
  cbn [existsb forallb]. intros [Hv Hs]%orb_false_iff.
  rewrite IH by exact Hs. rewrite Z.eqb_sym, Hv. reflexivity.
Qed.

Lemma no_zero_all_not image_array :
  contains_0 image_array = false → forallb (all_not 0) image_array = true.
Proof.
  unfold contains_0. induction image_array as [|s l IH]; [reflexivity|].
  cbn [existsb forallb]. intros [Hs Hl]%orb_false_iff.
  now rewrite IH, no_zero_sample.
Qed.

Lemma filter_all_snd {A B} (keep : B → bool) (l : list B) : ∀ idx : list A,
  forallb keep l = true →
  List.filter (fun ij => keep (snd ij)) (combine idx l) = combine idx l.
Proof.
  induction l as [|x l IH]; intros [|i idx]; try reflexivity.
  cbn [forallb combine List.filter snd]. intros [-> H]%andb_true_iff.
  now rewrite IH.
Qed.

Lemma map_fst_combine {A B} (l : list B) : ∀ idx : list A,
  length idx = length l → map fst (combine idx l) = idx.
Proof.
  induction l as [|x l IH]; intros [|i idx]; cbn; try congruence.
  intros [= H]. now rewrite IH.
Qed.


(** ** GeoGrid in exact arithmetic *)

Lemma point_to_pixel_exact (gt : geotransform Q) (x y : Q) :
  ¬ (gt_1 gt == 0)%Q → ¬ (gt_5 gt == 0)%Q →
  point_to_pixel_coordinates gt (x, y)
  = Ok (Qfloor ((x - gt_0 gt) / gt_1 gt), Qfloor ((y - gt_3 gt) / gt_5 gt)).
Proof.
  intros H1 H5. unfold point_to_pixel_coordinates. cbn.
  destruct (Qeq_bool (gt_1 gt) 0) eqn:E1.
  { apply Qeq_bool_iff in E1. contradiction. }
  destruct (Qeq_bool (gt_5 gt) 0) eqn:E5.
  { apply Qeq_bool_iff in E5. contradiction. }
  reflexivity.
Qed.

(** The pixel index of a coordinate [n] steps of size [s] from the origin. *)
Lemma floor_of_step (o s : Q) (n : Z) :
  ¬ (s == 0)%Q → Qfloor ((o + inject_Z n * s - o) / s) = n.
Proof.
  intros Hs. rewrite <- (Qfloor_Z n) at 2. apply Qfloor_comp. now field.
Qed.

(** Between the origin and [n] steps of a positive size the index lies in
    [0 .. n], and it grows with the coordinate. *)
Lemma floor_step_bounds (t o s : Q) (n : Z) :
  (0 < s)%Q → (o <= t)%Q → (t <= o + s * inject_Z n)%Q →
  0 <= Qfloor ((t - o) / s) <= n.
Proof.
  intros Hs Hlo Hhi. split.
  - change 0 with (Qfloor 0). apply Qfloor_resp_le.
    apply Qle_shift_div_l; [exact Hs | lra].
  - rewrite <- (Qfloor_Z n). apply Qfloor_resp_le.
    apply Qle_shift_div_r; [exact Hs | lra].
Qed.

Lemma floor_step_mono (t1 t2 o s : Q) :
  (0 < s)%Q → (t1 <= t2)%Q → Qfloor ((t1 - o) / s) <= Qfloor ((t2 - o) / s).
Proof.
  intros Hs H. apply Qfloor_resp_le.
  apply Qle_shift_div_r; [exact Hs|].
  assert (E : ((t2 - o) / s * s == t2 - o)%Q) by (field; lra).
  rewrite E. lra.
Qed.

(** A negative step turns the axis over. *)
Lemma neg_step (t o s : Q) :
  (s < 0)%Q → ((t - o) / s == (- t - - o) / - s)%Q.
Proof. intros Hs. field. lra. Qed.

Lemma floor_neg_step_bounds (t o s : Q) (n : Z) :
  (s < 0)%Q → (o + s * inject_Z n <= t)%Q → (t <= o)%Q →
  0 <= Qfloor ((t - o) / s) <= n.
Proof.
  intros Hs Hlo Hhi. rewrite (Qfloor_comp _ _ (neg_step t o s Hs)).
  apply floor_step_bounds; lra.
Qed.

Lemma floor_neg_step_mono (t1 t2 o s : Q) :
  (s < 0)%Q → (t1 <= t2)%Q → Qfloor ((t2 - o) / s) <= Qfloor ((t1 - o) / s).
Proof.
  intros Hs H.
  rewrite (Qfloor_comp _ _ (neg_step t1 o s Hs)),
          (Qfloor_comp _ _ (neg_step t2 o s Hs)).
  apply floor_step_mono; lra.
Qed.


(** ** Footprints and windows *)

(** A whole number of steps of a size that is not negative. *)
Lemma steps_nonneg (s : Q) (n : Z) :
  (0 <= s)%Q → 0 <= n → (0 <= s * inject_Z n)%Q.
Proof.
  intros Hs Hn. apply Qmult_le_0_compat; [exact Hs|].
  change 0%Q with (inject_Z 0). now rewrite <- Zle_Qle.
Qed.

(** The envelope of rectangles inside [outer] is inside [outer]. *)
Lemma envelope_fold_inside (outer : rect) (rs : list rect) : ∀ a b c d,
  Forall (inside outer) rs →
  (x_lo outer <= a)%Q → (a <= b)%Q → (b <= x_hi outer)%Q →
  (y_lo outer <= c)%Q → (c <= d)%Q → (d <= y_hi outer)%Q →
  ∃ a' b' c' d',
    fold_left (fun env r =>
                 let '(a, b, c, d) := env in
                 (Qmin a (x_lo r), Qmax b (x_hi r),
                  Qmin c (y_lo r), Qmax d (y_hi r)))
              rs (a, b, c, d) = (a', b', c', d')
    ∧ (x_lo outer <= a')%Q ∧ (a' <= b')%Q ∧ (b' <= x_hi outer)%Q
    ∧ (y_lo outer <= c')%Q ∧ (c' <= d')%Q ∧ (d' <= y_hi outer)%Q.
Proof.
  induction rs as [|r rs IH]; intros a b c d Hall Ha Hab Hb Hc Hcd Hd.
  - exists a, b, c, d. cbn. auto 10.
  - apply Forall_cons in Hall as [(H1 & H2 & H3 & H4 & H5 & H6) Hall].
    cbn [fold_left]. apply IH; try exact Hall.
    + apply Q.min_glb; assumption.
    + apply Qle_trans with a; [apply Q.le_min_l|].
      apply Qle_trans with b; [exact Hab | apply Q.le_max_l].
    + apply Q.max_lub; assumption.
    + apply Q.min_glb; assumption.
    + apply Qle_trans with c; [apply Q.le_min_l|].
      apply Qle_trans with d; [exact Hcd | apply Q.le_max_l].
    + apply Q.max_lub; assumption.
Qed.

Lemma envelope_inside (outer : rect) (p : polygon) :
  p ≠ [] → Forall (inside outer) p →
  ∃ a b c d,
    GetEnvelope p = (a, b, c, d)
    ∧ (x_lo outer <= a)%Q ∧ (a <= b)%Q ∧ (b <= x_hi outer)%Q
    ∧ (y_lo outer <= c)%Q ∧ (c <= d)%Q ∧ (d <= y_hi outer)%Q.
Proof.
  destruct p as [|r rs]; [congruence|]. intros _ Hall.
  apply Forall_cons in Hall as [(H1 & H2 & H3 & H4 & H5 & H6) Hall].
  cbn [GetEnvelope]. apply envelope_fold_inside; assumption.
Qed.

(** What [Intersection] keeps of a polygon lies in the rectangle it is
    intersected with. *)
Lemma intersection_inside (outer : rect) (p : polygon) :
  Forall (inside outer) (Intersection [outer] p).
Proof.
  unfold Intersection. cbn [flat_map]. rewrite app_nil_r.
  induction p as [|b p IH]; cbn [flat_map]; [constructor|].
  apply Forall_app. split; [|exact IH].
  destruct (nonempty (rect_inter outer b)) eqn:E; [|constructor].
  constructor; [|constructor].
  unfold nonempty in E. apply andb_true_iff in E as [Ex Ey].
  apply Qle_bool_iff in Ex, Ey. cbn in Ex, Ey.
  unfold inside. cbn. repeat split.
  - apply Q.le_max_l.
  - exact Ex.
  - apply Q.le_min_l.
  - apply Q.le_max_l.
  - exact Ey.
  - apply Q.le_min_l.
Qed.

(** A polygon with a part inside the rectangle meets it. *)
Lemma intersection_meets (outer : rect) (p : polygon) :
  Exists (inside outer) p → Intersection [outer] p ≠ [].
Proof.
  unfold Intersection. cbn [flat_map]. rewrite app_nil_r.
  induction 1 as [b p (H1 & H2 & H3 & H4 & H5 & H6)|b p _ IH]; cbn [flat_map].
  - replace (nonempty (rect_inter outer b)) with true; [discriminate|].
    symmetry. unfold nonempty. apply andb_true_iff.
    split; apply Qle_bool_iff; cbn.
    + apply Q.max_lub; [|apply Q.min_glb]; try lra.
      apply Q.min_glb; lra.
    + apply Q.max_lub; [|apply Q.min_glb]; try lra.
      apply Q.min_glb; lra.
  - intros E. apply app_eq_nil in E as [_ E]. now apply IH.
Qed.

Section Window.
Variable raster : Dataset.
Hypothesis width_pos : (0 < gt_1 (GetGeoTransform raster))%Q.
Hypothesis height_neg : (gt_5 (GetGeoTransform raster) < 0)%Q.

(** The window of a polygon whose intersection with the footprint has the
    envelope [(a, b, c, d)]: the rows come out inverted and are swapped. *)
Lemma pixel_bounds_of_envelope (polygon : polygon) (a b c d : Q) :
  GetEnvelope (Intersection (get_raster_bounds raster) polygon) = (a, b, c, d) →
  (a <= b)%Q → (c <= d)%Q →
  pixel_bounds_from_polygon raster polygon
  = Ok (column_of (GetGeoTransform raster) a, column_of (GetGeoTransform raster) b,
        row_of (GetGeoTransform raster) d, row_of (GetGeoTransform raster) c).
Proof using width_pos height_neg.
  intros Henv Hab Hcd. unfold pixel_bounds_from_polygon.
  unfold get_poly_intersection, Boundary. rewrite Henv.
  rewrite !point_to_pixel_exact by lra.
  cbn [mbind result_bind].
  set (gt := GetGeoTransform raster) in *.
  fold (column_of gt a) (column_of gt b) (row_of gt c) (row_of gt d).
  assert (Hx : column_of gt a <= column_of gt b)
    by (apply floor_step_mono; assumption).
  assert (Hy : row_of gt d <= row_of gt c)
    by (apply floor_neg_step_mono; assumption).
  destruct (Z.geb_spec (column_of gt a) (column_of gt b)) as [Hge|_];
    destruct (Z.geb_spec (row_of gt c) (row_of gt d)) as [_|Hlt]; try lia.
  - replace (column_of gt a) with (column_of gt b) by lia. reflexivity.
  - reflexivity.
Qed.

(** The footprint, as far as the window needs it. *)
Lemma footprint_sides :
  0 <= RasterXSize raster → 0 <= RasterYSize raster →
  ∃ foot, get_raster_bounds raster = [foot]
    ∧ (x_lo foot == gt_0 (GetGeoTransform raster))%Q
    ∧ (x_hi foot == gt_0 (GetGeoTransform raster)
                    + gt_1 (GetGeoTransform raster)
                      * inject_Z (RasterXSize raster))%Q
    ∧ (y_lo foot == gt_3 (GetGeoTransform raster)
                    + gt_5 (GetGeoTransform raster)
                      * inject_Z (RasterYSize raster))%Q
    ∧ (y_hi foot == gt_3 (GetGeoTransform raster))%Q.
Proof using width_pos height_neg.
  intros HX HY. eexists. split; [reflexivity|]. cbn.
  set (gt := GetGeoTransform raster) in *.
  assert (0 <= gt_1 gt * inject_Z (RasterXSize raster))%Q
    by (apply steps_nonneg; [lra | exact HX]).
  assert (0 <= - gt_5 gt * inject_Z (RasterYSize raster))%Q
    by (apply steps_nonneg; [lra | exact HY]).
  repeat split.
  - apply Q.min_l. lra.
  - apply Q.max_r. lra.
  - rewrite Q.min_r by lra. ring.
  - apply Q.max_l. lra.
Qed.
End Window.

(** The swap leaves every window ordered, whatever the polygon. *)
Lemma pixel_bounds_ordered raster polygon x_min x_max y_min y_max :
  pixel_bounds_from_polygon raster polygon = Ok (x_min, x_max, y_min, y_max) →
  x_min <= x_max ∧ y_min <= y_max.
Proof.
  unfold pixel_bounds_from_polygon.
  destruct (GetEnvelope _) as [[[a b] c] d].
  destruct (point_to_pixel_coordinates _ (a, c)) as [[xa yc]|e]; [|discriminate].
  destruct (point_to_pixel_coordinates _ (b, d)) as [[xb yd]|e]; [|discriminate].
  cbn [mbind result_bind].
  destruct (Z.geb_spec xa xb); destruct (Z.geb_spec yc yd);
    intros [= <- <- <- <-]; lia.
Qed.


(** ** Stacking *)

(** C9.  Too few inputs.  For every list of fewer than two raster paths
    [stack_images] raises [StackImagesException], the error kind of the
    engine for a multi-raster operation given too few inputs (the
    specification calls it AlignmentError), before it opens or creates any
    file: the files are as they were and no output raster exists. *)
Theorem stack_images_requires_two
    (raster_paths : list string) (out_raster_path geometry_mode : string)
    (fs : files) :
  (length raster_paths < 2)%nat →
  stack_images raster_paths out_raster_path geometry_mode fs
  = (Raise (StackImagesException
              "stack_images requires at least two input images"), fs).
Proof.
  intros Hlen. unfold stack_images.
  destruct (Z.leb_spec (Z.of_nat (length raster_paths)) 1) as [_|H]; [|lia].
  reflexivity.
Qed.

(** ** Mask algebra *)

Lemma fill_created xsize ysize bands eType gt projection d v :
  driver_Create xsize ysize bands eType = Ok d →
  pixels (fill (SetProjection (SetGeoTransform d gt) projection) v)
  = repeat (repeat (repeat v (Z.to_nat xsize)) (Z.to_nat ysize)) (Z.to_nat bands)
  ∧ 1 <= xsize ∧ 1 <= ysize.
Proof.
  unfold driver_Create.
  destruct (Z.ltb_spec xsize 1); [discriminate|].
  destruct (Z.ltb_spec ysize 1); [discriminate|].
  intros [= <-]. cbn. split; [|lia].
  induction (Z.to_nat bands) as [|n IHn]; cbn; [reflexivity|].
  f_equal; [|exact IHn]. clear.
  induction (Z.to_nat ysize) as [|n IHn]; cbn; [reflexivity|].
  f_equal; [|exact IHn]. clear.
  induction (Z.to_nat xsize) as [|n IHn]; cbn; [reflexivity|].
  f_equal. exact IHn.
Qed.

Lemma created_sizes polygon x_res y_res bands projection datatype d :
  create_new_image_from_polygon polygon x_res y_res bands projection datatype
  = Ok d →
  ∃ raw, driver_Create (RasterXSize d) (RasterYSize d) bands datatype = Ok raw
    ∧ d = SetProjection (SetGeoTransform raw (GetGeoTransform d)) projection
    ∧ RasterCount d = bands.
Proof.
  unfold create_new_image_from_polygon.
  destruct (GetEnvelope polygon) as [[[a b] c] e].
  destruct (r_div _ x_res) as [w|]; [|discriminate].
  destruct (r_div _ y_res) as [h|]; [|discriminate].
  cbn [mbind result_bind].
  destruct (driver_Create _ _ _ _) as [raw|] eqn:E; [|discriminate].
  intros [= <-]. exists raw.
  assert (Hraw : RasterXSize raw = int_of_Q w ∧ RasterYSize raw = int_of_Q h
                 ∧ RasterCount raw = bands).
  { unfold driver_Create in E. destruct (_ || _); [discriminate|].
    injection E as <-. cbn. auto. }
  destruct Hraw as (HX & HY & HB). cbn. rewrite HX, HY. auto.
Qed.


(** ** The grid allocator *)

Lemma int_of_Q_floor (q : Q) : (0 <= q)%Q → int_of_Q q = Qfloor q.
Proof.
  destruct q as [n d]. unfold Qle, int_of_Q, Qfloor. cbn.
  intros H. apply Z.quot_div_nonneg; lia.
Qed.

Lemma int_of_Q_whole (q : Q) (n : Z) : (q == inject_Z n)%Q → int_of_Q q = n.
Proof.
  intros E. destruct (Z.le_gt_cases 0 n) as [Hn|Hn].
  - rewrite int_of_Q_floor.
    + rewrite (Qfloor_comp _ _ E). apply Qfloor_Z.
    + rewrite E. change 0%Q with (inject_Z 0). now rewrite <- Zle_Qle.
  - destruct q as [m d]. unfold Qeq, int_of_Q in *. cbn in *.
    rewrite Z.mul_1_r in E. subst m. apply Z.quot_mul. lia.
Qed.

(** The sides of a created image: as many whole pixels as fit the envelope. *)
Lemma created_grid polygon x_res y_res bands projection datatype d a b c e :
  GetEnvelope polygon = (a, b, c, e) →
  (0 < x_res)%Q → (0 < y_res)%Q → (a <= b)%Q → (c <= e)%Q →
  create_new_image_from_polygon polygon x_res y_res bands projection datatype
  = Ok d →
  GetGeoTransform d = GeoTransform a x_res 0%Q e 0%Q (y_res * -1)%Q
  ∧ RasterXSize d = Qfloor ((b - a) / x_res)
  ∧ RasterYSize d = Qfloor ((e - c) / y_res)
  ∧ 1 <= RasterXSize d ∧ 1 <= RasterYSize d
  ∧ RasterCount d = bands
  ∧ GetProjection d = projection.
Proof.
  intros Henv Hx Hy Hab Hce. unfold create_new_image_from_polygon.
  rewrite Henv. cbn [r_div Q_arith].
  destruct (Qeq_bool x_res 0) eqn:Ex.
  { apply Qeq_bool_iff in Ex. lra. }
  destruct (Qeq_bool y_res 0) eqn:Ey.
  { apply Qeq_bool_iff in Ey. lra. }
  cbn [mbind result_bind].
  rewrite !int_of_Q_floor
    by (apply Qle_shift_div_l; [assumption | lra]).
  unfold driver_Create.
  destruct (Z.ltb_spec (Qfloor ((b - a) / x_res)) 1); [discriminate|].
  destruct (Z.ltb_spec (Qfloor ((e - c) / y_res)) 1); [discriminate|].
  intros [= <-]. cbn. repeat split; assumption.
Qed.

(** How far the whole pixels fall short of a length: less than one pixel. *)
Lemma whole_pixels (len res : Q) :
  (0 < res)%Q →
  (res * inject_Z (Qfloor (len / res)) <= len)%Q
  ∧ (len < res * inject_Z (Qfloor (len / res) + 1))%Q.
Proof.
  intros Hres.
  pose proof (Qfloor_le (len / res)) as Hlo.
  pose proof (Qlt_floor (len / res)) as Hhi.
  assert (E : (len / res * res == len)%Q) by (field; lra).
  split.
  - rewrite <- E at 2. rewrite (Qmult_comm res).
    apply Qmult_le_compat_r; lra.
  - rewrite <- E at 1. rewrite (Qmult_comm res).
    apply Qmult_lt_compat_r; lra.
Qed.

Lemma create_succeeds polygon x_res y_res bands projection datatype a b c e :
  GetEnvelope polygon = (a, b, c, e) →
  (0 < x_res)%Q → (0 < y_res)%Q →
  (x_res <= b - a)%Q → (y_res <= e - c)%Q →
  ∃ d, create_new_image_from_polygon polygon x_res y_res bands projection
         datatype = Ok d.
Proof.
  intros Henv Hx Hy Hw Hh. unfold create_new_image_from_polygon.
  rewrite Henv. cbn [r_div Q_arith].
  destruct (Qeq_bool x_res 0) eqn:Ex.
  { apply Qeq_bool_iff in Ex. lra. }
  destruct (Qeq_bool y_res 0) eqn:Ey.
  { apply Qeq_bool_iff in Ey. lra. }
  cbn [mbind result_bind].
  rewrite !int_of_Q_floor
    by (apply Qle_shift_div_l; [assumption | lra]).
  assert (1 <= Qfloor ((b - a) / x_res)).
  { change 1 with (Qfloor 1). apply Qfloor_resp_le.
    apply Qle_shift_div_l; [assumption | lra]. }
  assert (1 <= Qfloor ((e - c) / y_res)).
  { change 1 with (Qfloor 1). apply Qfloor_resp_le.
    apply Qle_shift_div_l; [assumption | lra]. }
  unfold driver_Create.
  destruct (Z.ltb_spec (Qfloor ((b - a) / x_res)) 1); [lia|].
  destruct (Z.ltb_spec (Qfloor ((e - c) / y_res)) 1); [lia|].
  cbn. eauto.
Qed.

Lemma open_two (p1 p2 : string) (fs : files) (r1 r2 : Dataset) :
  fs !! p1 = Some r1 → fs !! p2 = Some r2 →
  open_all [p1; p2] fs = (Ok [r1; r2], fs).
Proof.
  intros H1 H2. unfold open_all. cbn [mapM]. unfold gdal_Open.
  now rewrite H1, H2.
Qed.

Lemma stack_loop_same_grid combined rasters : ∀ present_layer out_raster,
  same_grid out_raster (snd (stack_loop combined rasters present_layer out_raster)).
Proof.
  induction rasters as [|in_raster rest IH]; intros present_layer out_raster.
  - cbn. unfold same_grid. auto.
  - cbn [stack_loop].
    match goal with
    | |- context [match ?c with Ok _ => _ | Raise _ => _ end] => destruct c as [items|e]
    end.
    + destruct (IH (present_layer + RasterCount in_raster)
                   (set_pixels out_raster items)) as (H1 & H2 & H3 & H4 & H5).
      unfold same_grid. cbn in *. auto.
    + cbn. unfold same_grid. auto.
Qed.


(** ** Copying through a window that is the whole array *)

Lemma stretch_same {A} (n : nat) (l : list A) : length l = n → stretch n l = l.
Proof.
  intros <-. destruct l as [|x [|y l]]; reflexivity.
Qed.

Lemma slice_write_all {A} (new l : list A) :
  slice_write 0 (Z.of_nat (length l)) new l = new.
Proof.
  rewrite slice_write_inside by lia.
  rewrite Nat2Z.id, skipn_all. cbn. apply app_nil_r.
Qed.

Lemma copy_row_all (where_ : Z → bool) (dst src : list Z) :
  length dst = length src → Forall (fun v => where_ v = true) src →
  zip_with (fun d s => if where_ s then s else d) dst (stretch (length dst) src)
  = src.
Proof.
  intros Hlen Hall. rewrite stretch_same by congruence.
  revert dst Hlen. induction Hall as [|s src Hs _ IH]; intros [|d dst] Hlen;
    try discriminate; [reflexivity|].
  cbn. rewrite Hs. f_equal. apply IH. now injection Hlen.
Qed.

Section CopyAll.
Variable where_ : Z → bool.
Variables b y x : Z.

Lemma copy_band_all (dst src : band) :
  Z.of_nat (length dst) = y → Z.of_nat (length src) = y →
  Forall (fun row : list Z => Z.of_nat (length row) = x) dst →
  Forall (fun row : list Z => Z.of_nat (length row) = x) src →
  Forall (Forall (fun v => where_ v = true)) src →
  zip_with (fun dst_row src_row =>
              zip_with (fun d s => if where_ s then s else d)
                       dst_row (stretch (length dst_row) src_row))
           dst (stretch (length dst) src)
  = src.
Proof.
  intros Hd Hs Hdx Hsx Hw. rewrite stretch_same by lia.
  assert (Hlen : length dst = length src) by lia. clear Hd Hs.
  revert dst Hlen Hdx.
  induction src as [|s src IH]; intros [|d dst] Hlen Hdx; try discriminate;
    [reflexivity|].
  apply Forall_cons in Hdx as [Hd Hdx]. apply Forall_cons in Hsx as [Hs Hsx].
  apply Forall_cons in Hw as [Hws Hw].
  cbn. f_equal.
  - apply copy_row_all; [lia | exact Hws].
  - apply IH; try assumption. now injection Hlen.
Qed.

Lemma view_all (a : list band) :
  shaped b y x a →
  map (fun band => map (slice 0 x) (slice 0 y band)) (slice 0 b a) = a.
Proof.
  intros [Hb Hall]. rewrite <- Hb, slice_all. clear Hb.
  induction Hall as [|band a [Hy Hrows] _ IH]; [reflexivity|].
  cbn [map]. f_equal; [|exact IH].
  rewrite <- Hy, slice_all. clear Hy.
  induction Hrows as [|row band Hx _ IHr]; [reflexivity|].
  cbn [map]. f_equal; [|exact IHr]. rewrite <- Hx. apply slice_all.
Qed.

Lemma write_all (a new : list band) :
  shaped b y x a → shaped b y x new →
  write_window3 a 0 b 0 y 0 x new = new.
Proof.
  intros [Hb Hall] [Hnb Hnall]. unfold write_window3.
  rewrite <- Hb, slice_all, slice_write_all.
  assert (Hlen : length a = length new) by lia. clear Hb Hnb.
  revert a Hlen Hall.
  induction Hnall as [|nb new [Hy Hrows] _ IH]; intros [|band a] Hlen Hall;
    try discriminate; [reflexivity|].
  apply Forall_cons in Hall as [[Hby Hbrows] Hall].
  cbn [zip_with]. f_equal; [|apply IH; [now injection Hlen | exact Hall]].
  rewrite <- Hby, slice_all, slice_write_all.
  assert (Hl : length band = length nb) by lia. clear Hby Hy Hlen IH Hall.
  revert band Hl Hbrows.
  induction Hrows as [|nr nb Hx _ IHr]; intros [|row band] Hl Hbrows;
    try discriminate; [reflexivity|].
  apply Forall_cons in Hbrows as [Hrx Hbrows].
  cbn [zip_with]. f_equal; [|apply IHr; [now injection Hl | exact Hbrows]].
  rewrite <- Hrx. apply slice_write_all.
Qed.

(** Copying a whole array over another of the same shape, where every
    source item passes [where_]: the result is the source. *)
Lemma copyto_all (dst src : list band) :
  0 <= b → 0 <= y → 0 <= x →
  shaped b y x dst → shaped b y x src →
  all_items (fun v => where_ v = true) src →
  copyto (b, y, x, dst) 0 b 0 y 0 x (b, y, x, src) where_ = Ok src.
Proof.
  intros Hb0 Hy0 Hx0 Hdst Hsrc Hw. unfold copyto, window3.
  unfold slice_len. rewrite !clip_inside by lia.
  rewrite !Z.sub_0_r, !Z.max_r by lia.
  unfold can_broadcast. rewrite !Z.eqb_refl. cbn [orb andb snd].
  rewrite (view_all dst Hdst).
  assert (E : zip_with (fun dst_band src_band =>
                zip_with (fun dst_row src_row =>
                  zip_with (fun d s => if where_ s then s else d)
                           dst_row (stretch (length dst_row) src_row))
                  dst_band (stretch (length dst_band) src_band))
                dst (stretch (length dst) src) = src).
  { destruct Hdst as [Hdb Hdall], Hsrc as [Hsb Hsall].
    rewrite stretch_same by lia.
    assert (Hlen : length dst = length src) by lia. clear Hdb Hsb.
    revert dst Hlen Hdall.
    induction src as [|s src IH]; intros [|d dst] Hlen Hdall;
      try discriminate; [reflexivity|].
    apply Forall_cons in Hdall as [[Hdy Hdx] Hdall].
    apply Forall_cons in Hsall as [[Hsy Hsx] Hsall].
    apply Forall_cons in Hw as [Hws Hw].
    cbn [zip_with]. f_equal.
    - apply copy_band_all; assumption.
    - apply IH; try assumption. now injection Hlen. }
  rewrite E. f_equal. apply write_all; assumption.
Qed.
End CopyAll.

(** ** Mosaicking a raster with itself *)

Lemma floor_whole (t o s : Q) (n : Z) :
  ¬ (s == 0)%Q → (t == o + inject_Z n * s)%Q → Qfloor ((t - o) / s) = n.
Proof.
  intros Hs Ht. rewrite <- (Qfloor_Z n). apply Qfloor_comp.
  rewrite Ht. now field.
Qed.

(** The window, in a raster [o], of the footprint of a raster [r] that lies
    on the same grid: the whole of [o]. *)
Lemma window_of_same_footprint (o r : Dataset) :
  (gt_0 (GetGeoTransform o) == gt_0 (GetGeoTransform r))%Q →
  (gt_1 (GetGeoTransform o) == gt_1 (GetGeoTransform r))%Q →
  (gt_3 (GetGeoTransform o) == gt_3 (GetGeoTransform r))%Q →
  (gt_5 (GetGeoTransform o) == gt_5 (GetGeoTransform r))%Q →
  RasterXSize o = RasterXSize r → RasterYSize o = RasterYSize r →
  (0 < gt_1 (GetGeoTransform r))%Q → (gt_5 (GetGeoTransform r) < 0)%Q →
  0 <= RasterXSize r → 0 <= RasterYSize r →
  pixel_bounds_from_polygon o (get_raster_bounds r)
  = Ok (0, RasterXSize r, 0, RasterYSize r).
Proof.
  intros E0 E1 E3 E5 EX EY Hw Hh HX HY.
  assert (Hwo : (0 < gt_1 (GetGeoTransform o))%Q) by (now rewrite E1).
  assert (Hho : (gt_5 (GetGeoTransform o) < 0)%Q) by (now rewrite E5).
  destruct (footprint_sides r Hw Hh HX HY) as (f & Hf & F1 & F2 & F3 & F4).
  destruct (footprint_sides o Hwo Hho ltac:(lia) ltac:(lia))
    as (fo & Hfo & O1 & O2 & O3 & O4).
  rewrite E0 in O1. rewrite EX, E0, E1 in O2.
  rewrite EY, E3, E5 in O3. rewrite E3 in O4.
  assert (PX : (0 <= gt_1 (GetGeoTransform r) * inject_Z (RasterXSize r))%Q)
    by (apply steps_nonneg; [lra | exact HX]).
  assert (PY : (0 <= - gt_5 (GetGeoTransform r) * inject_Z (RasterYSize r))%Q)
    by (apply steps_nonneg; [lra | exact HY]).
  assert (Hx : (Qmax (x_lo fo) (x_lo f) <= Qmin (x_hi fo) (x_hi f))%Q).
  { apply Q.max_lub; apply Q.min_glb; lra. }
  assert (Hy : (Qmax (y_lo fo) (y_lo f) <= Qmin (y_hi fo) (y_hi f))%Q)
    by (apply Q.max_lub; apply Q.min_glb; lra).
  assert (Hne : nonempty (rect_inter fo f) = true).
  { unfold nonempty. apply andb_true_iff. split; now apply Qle_bool_iff. }
  rewrite (pixel_bounds_of_envelope o Hwo Hho (get_raster_bounds r)
             (Qmax (x_lo fo) (x_lo f)) (Qmin (x_hi fo) (x_hi f))
             (Qmax (y_lo fo) (y_lo f)) (Qmin (y_hi fo) (y_hi f))).
  - assert (M1 : (Qmax (x_lo fo) (x_lo f) == gt_0 (GetGeoTransform r))%Q)
      by (rewrite Q.max_l; lra).
    assert (M2 : (Qmin (x_hi fo) (x_hi f)
                  == gt_0 (GetGeoTransform r)
                     + gt_1 (GetGeoTransform r) * inject_Z (RasterXSize r))%Q)
      by (rewrite Q.min_l; lra).
    assert (M3 : (Qmax (y_lo fo) (y_lo f)
                  == gt_3 (GetGeoTransform r)
                     + gt_5 (GetGeoTransform r) * inject_Z (RasterYSize r))%Q)
      by (rewrite Q.max_l; lra).
    assert (M4 : (Qmin (y_hi fo) (y_hi f) == gt_3 (GetGeoTransform r))%Q)
      by (rewrite Q.min_l; lra).
    unfold column_of, row_of.
    rewrite (floor_whole _ _ _ 0), (floor_whole _ _ _ (RasterXSize r)),
            (floor_whole _ _ _ 0), (floor_whole _ _ _ (RasterYSize r));
      try lra; try reflexivity.
    + rewrite M3, E3, E5. ring.
    + rewrite M4, E3. ring.
    + rewrite M2, E0, E1. ring.
    + rewrite M1, E0. ring.
  - rewrite Hfo, Hf. unfold Intersection. cbn [flat_map app].
    now rewrite Hne.
  - exact Hx.
  - exact Hy.
Qed.

Lemma created_shaped polygon x_res y_res bands projection datatype d :
  0 <= bands →
  create_new_image_from_polygon polygon x_res y_res bands projection datatype
  = Ok d →
  shaped (RasterCount d) (RasterYSize d) (RasterXSize d) (pixels d).
Proof.
  intros Hb. unfold create_new_image_from_polygon.
  destruct (GetEnvelope polygon) as [[[a b] c] e].
  destruct (r_div _ x_res) as [w|]; [|discriminate].
  destruct (r_div _ y_res) as [h|]; [|discriminate].
  cbn [mbind result_bind]. unfold driver_Create.
  destruct (Z.ltb_spec (int_of_Q w) 1); [discriminate|].
  destruct (Z.ltb_spec (int_of_Q h) 1); [discriminate|].
  intros [= <-]. cbn. unfold shaped. rewrite repeat_length. split; [lia|].
  apply List.Forall_forall. intros band ->%repeat_spec.
  rewrite repeat_length. split; [lia|].
  apply List.Forall_forall. intros row ->%repeat_spec.
  rewrite repeat_length. lia.
Qed.

Section MosaicTwice.
Variable r : Dataset.
Variable nodata : Z.
Hypothesis r_ok : well_formed r.
Hypothesis several_bands : RasterCount r ≠ 1.
Hypothesis width_pos : (0 < gt_1 (GetGeoTransform r))%Q.
Hypothesis height_neg : (gt_5 (GetGeoTransform r) < 0)%Q.
Hypothesis no_nodata : all_items (fun v => v ≠ nodata) (pixels r).

(** One turn of the loop, on an output that lies on the grid of [r]: the
    output holds the pixels of [r] afterwards. *)
Lemma mosaic_step (rest : list Dataset) (cur : Dataset) :
  (gt_0 (GetGeoTransform cur) == gt_0 (GetGeoTransform r))%Q →
  (gt_1 (GetGeoTransform cur) == gt_1 (GetGeoTransform r))%Q →
  (gt_3 (GetGeoTransform cur) == gt_3 (GetGeoTransform r))%Q →
  (gt_5 (GetGeoTransform cur) == gt_5 (GetGeoTransform r))%Q →
  RasterXSize cur = RasterXSize r → RasterYSize cur = RasterYSize r →
  RasterCount cur = RasterCount r →
  shaped (RasterCount r) (RasterYSize r) (RasterXSize r) (pixels cur) →
  mosaic_loop nodata (r :: rest) cur
  = mosaic_loop nodata rest (set_pixels cur (pixels r)).
Proof using r_ok several_bands width_pos height_neg no_nodata.
  intros E0 E1 E3 E5 EX EY EB Hcur.
  destruct r_ok as (HX & HY & HB & Hr).
  cbn [mosaic_loop].
  rewrite window_of_same_footprint by (assumption || lia).
  cbn [mbind result_bind].
  unfold GetVirtualMemArray. rewrite EB, EX, EY.
  destruct (Z.eqb_spec (RasterCount r) 1) as [|_]; [contradiction|].
  cbn [three_axes expand_if_2d mbind result_bind].
  rewrite copyto_all; try assumption; try lia.
  - reflexivity.
  - unfold all_items in *. eapply Forall_impl; [exact no_nodata|].
    intros band Hband. eapply Forall_impl; [exact Hband|].
    intros row Hrow. eapply Forall_impl; [exact Hrow|].
    intros v Hv. cbn. now apply negb_true_iff, Z.eqb_neq.
Qed.

End MosaicTwice.

(** ** Automatic chunk sizing *)

(** The first hit of a search upward from [start]. *)
Lemma find_first (f : Z → bool) (len : nat) : ∀ (start : nat) (n : Z),
  find f (map (Z.add 1) (map Z.of_nat (seq start len))) = Some n →
  f n = true
  ∧ 1 + Z.of_nat start <= n < 1 + Z.of_nat (start + len)
  ∧ ∀ m, 1 + Z.of_nat start <= m < n → f m = false.
Proof.
  induction len as [|len IH]; intros start n; cbn [seq map find]; [discriminate|].
  destruct (f (1 + Z.of_nat start)) eqn:E.
  - intros [= <-]. repeat split; try lia. exact E.
  - intros H. apply IH in H as (Hf & Hr & Hmin).
    repeat split; try lia; [exact Hf|].
    intros m Hm. destruct (Z.eq_dec m (1 + Z.of_nat start)) as [->|Hne];
      [exact E | apply Hmin; lia].
Qed.

(** X3.  What [autochunk] returns, when it returns a number: a divisor of the
    pixel count below the pixel count, whose chunks stay under the limit,
    and the smallest such. *)
Lemma autochunk_smallest_divisor available dataset mem_limit num_chunks :
  autochunk available dataset mem_limit = Some num_chunks →
  let pixels := RasterXSize dataset * RasterYSize dataset in
  let bytes_per_pixel := itemsize (DataType dataset) * RasterCount dataset in
  let limit := match mem_limit with
               | Some m => if m =? 0 then available else m
               | None => available
               end in
  1 <= num_chunks < pixels
  ∧ pixels mod num_chunks = 0
  ∧ pixels / num_chunks * bytes_per_pixel < limit
  ∧ ∀ m, 1 <= m < num_chunks →
         ¬ (pixels mod m = 0 ∧ pixels / m * bytes_per_pixel < limit).
Proof.
  unfold autochunk, range. intros H. cbv zeta.
  apply find_first in H as (Hf & Hr & Hmin).
  apply andb_true_iff in Hf as [Hd Hb].
  apply Z.eqb_eq in Hd. apply Z.ltb_lt in Hb.
  repeat split; try lia; try assumption.
  intros m Hm [Hdm Hbm].
  specialize (Hmin m ltac:(lia)).
  apply andb_false_iff in Hmin as [Hx|Hx].
  - apply Z.eqb_neq in Hx. contradiction.
  - apply Z.ltb_ge in Hx. lia.
Qed.

(** X20.  A divisor of the pixel count that lies below the pixel count and
    whose chunks stay under the limit is enough for [autochunk] to return
    a number. *)
Lemma autochunk_finds available dataset mem_limit d :
  let pixels := RasterXSize dataset * RasterYSize dataset in
  let bytes_per_pixel := itemsize (DataType dataset) * RasterCount dataset in
  let limit := match mem_limit with
               | Some m => if m =? 0 then available else m
               | None => available
               end in
  1 <= d < pixels → pixels mod d = 0 → pixels / d * bytes_per_pixel < limit →
  ∃ num_chunks, autochunk available dataset mem_limit = Some num_chunks.
Proof.
  cbv zeta. intros Hd Hdiv Hfit. unfold autochunk.
  destruct (find _ _) as [n|] eqn:E; [eauto|].
  exfalso. eapply find_none with (x := d) in E.
  - apply andb_false_iff in E as [E|E].
    + apply Z.eqb_neq in E. contradiction.
    + apply Z.ltb_ge in E. lia.
  - apply in_map_iff. exists (d - 1). split; [lia|].
    unfold range. apply in_map_iff. exists (Z.to_nat (d - 1)).
    split; [lia|]. apply in_seq. lia.
Qed.


(** ** Which pixel a point falls in *)

Lemma Qfloor_iff (q : Q) (n : Z) :
  Qfloor q = n ↔ (inject_Z n <= q)%Q ∧ (q < inject_Z (n + 1))%Q.
Proof.
  split.
  - intros <-. split; [apply Qfloor_le | apply Qlt_floor].
  - intros [Hlo Hhi].
    assert (n <= Qfloor q).
    { rewrite <- (Qfloor_Z n). now apply Qfloor_resp_le. }
    assert (Qfloor q < n + 1).
    { rewrite Zlt_Qlt. apply Qle_lt_trans with q; [apply Qfloor_le | exact Hhi]. }
    lia.
Qed.

(** The index of a coordinate counted in steps of a positive size. *)
Lemma floor_step_iff (t o s : Q) (n : Z) :
  (0 < s)%Q →
  Qfloor ((t - o) / s) = n
  ↔ (o + inject_Z n * s <= t)%Q ∧ (t < o + inject_Z (n + 1) * s)%Q.
Proof.
  intros Hs. rewrite Qfloor_iff.
  assert (E : ((t - o) / s * s == t - o)%Q) by (field; lra).
  split; intros [Hlo Hhi].
  - apply (Qmult_le_compat_r _ _ s) in Hlo; [|lra].
    apply (Qmult_lt_compat_r _ _ s) in Hhi; [|exact Hs].
    rewrite E in Hlo, Hhi. split; lra.
  - split.
    + apply Qle_shift_div_l; [exact Hs | lra].
    + apply Qlt_shift_div_r; [exact Hs | lra].
Qed.

(** The same in steps of a negative size: the cell is closed at its upper
    side. *)
Lemma floor_neg_step_iff (t o s : Q) (n : Z) :
  (s < 0)%Q →
  Qfloor ((t - o) / s) = n
  ↔ (o + inject_Z (n + 1) * s < t)%Q ∧ (t <= o + inject_Z n * s)%Q.
Proof.
  intros Hs. rewrite (Qfloor_comp _ _ (neg_step t o s Hs)).
  rewrite floor_step_iff by lra.
  split; intros [Hlo Hhi]; split; lra.
Qed.




(** ** What the operations leave alone, and how they fail *)

(** One path that is not on file is enough for [gdal.Open] to fail. *)
Lemma open_all_missing (paths : list string) (fs : files) :
  Exists (fun p => fs !! p = None) paths →
  open_all paths fs = (Raise RuntimeError, fs).
Proof.
  intros H. unfold open_all. f_equal.
  induction paths as [|p paths IH]; [inversion H|].
  cbn [mapM]. destruct (gdal_Open fs p) as [d|e] eqn:E.
  - cbn [mbind result_bind]. rewrite IH; [reflexivity|].
    apply Exists_cons in H as [H|H]; [|exact H].
    unfold gdal_Open in E. rewrite H in E. discriminate.
  - unfold gdal_Open in E. destruct (fs !! p); [discriminate|].
    injection E as <-. reflexivity.
Qed.

(** X8.  Inputs that are not there.  When one of the paths given is not on
    file, [stack_images] (given two paths or more), [mosaic_images],
    [combine_masks] and [classify_image] raise the error of [gdal.Open]
    and leave the files as they were; [mosaic_images] and [combine_masks]
    given no path at all raise [IndexError], again without writing. *)
Theorem missing_inputs_raise (paths : list string) (out : string) (fs : files)
    (geometry_mode combination_func : string) (nodata available : Z)
    (model : Model) (num_chunks : option Z) :
  (Exists (fun p => fs !! p = None) paths →
     ((1 < length paths)%nat →
        stack_images paths out geometry_mode fs = (Raise RuntimeError, fs))
     ∧ mosaic_images paths out nodata fs = (Raise RuntimeError, fs)
     ∧ combine_masks paths out combination_func geometry_mode fs
       = (Raise RuntimeError, fs)
     ∧ Forall (fun p => fs !! p = None →
                 classify_image available model p out num_chunks nodata fs
                 = (Raise RuntimeError, fs)) paths)
  ∧ mosaic_images [] out nodata fs = (Raise IndexError, fs)
  ∧ (geometry_mode = "intersect" ∨ geometry_mode = "union" →
     combine_masks [] out combination_func geometry_mode fs
     = (Raise IndexError, fs)).
Proof.
  split; [|split].
  - intros H. pose proof (open_all_missing paths fs H) as Hopen.
    split; [|split; [|split]].
    + intros Hlen. unfold stack_images.
      destruct (Z.leb_spec (Z.of_nat (length paths)) 1) as [|_]; [lia|].
      unfold mbind, io_bind. now rewrite Hopen.
    + unfold mosaic_images, mbind, io_bind. now rewrite Hopen.
    + unfold combine_masks, mbind, io_bind. now rewrite Hopen.
    + apply List.Forall_forall. intros p _ Hp.
      unfold classify_image, mbind, io_bind, open, gdal_Open. now rewrite Hp.
  - reflexivity.
  - intros [-> | ->]; reflexivity.
Qed.

Lemma combine_loop_unknown cf gf poly (masks : list Dataset) out_mask :
  cf ≠ "or" → cf ≠ "and" → cf ≠ "nor" → masks ≠ [] →
  ∃ e, combine_loop cf gf poly masks out_mask = Raise e.
Proof.
  intros Hor Hand Hnor Hne. destruct masks as [|in_mask rest]; [congruence|].
  cbn [combine_loop].
  apply String.eqb_neq in Hor, Hand, Hnor. rewrite Hor, Hand, Hnor.
  destruct (String.eqb gf "intersect").
  - destruct (pixel_bounds_from_polygon out_mask poly) as [[[[a b] c] d]|e];
      [|cbn; eauto].
    destruct (pixel_bounds_from_polygon in_mask poly) as [[[[a' b'] c'] d']|e];
      cbn; eauto.
  - destruct (String.eqb gf "union"); [|cbn; eauto].
    destruct (pixel_bounds_from_polygon out_mask _) as [[[[a b] c] d]|e];
      [|cbn; eauto].
    destruct (pixel_bounds_from_polygon in_mask _) as [[[[a' b'] c'] d']|e];
      cbn; eauto.
Qed.

(** X9.  Names that are not known.  A geometry mode other than ["intersect"]
    and ["union"] makes [stack_images] and [combine_masks] raise before
    they write anything; a combination other than ["or"], ["and"] and
    ["nor"] keeps [combine_masks] from ever returning, though the test
    comes only in the loop, after the output is created. *)
Theorem unknown_names_raise (paths : list string) (out : string) (fs : files)
    (geometry_mode combination_func : string) :
  (geometry_mode ≠ "intersect" → geometry_mode ≠ "union" →
     (∃ e, stack_images paths out geometry_mode fs = (Raise e, fs))
     ∧ (∃ e, combine_masks paths out combination_func geometry_mode fs
             = (Raise e, fs)))
  ∧ (combination_func ≠ "or" → combination_func ≠ "and" →
     combination_func ≠ "nor" →
     ∃ e, fst (combine_masks paths out combination_func geometry_mode fs)
          = Raise e).
Proof.
  split.
  - intros Hi Hu. apply String.eqb_neq in Hi, Hu.
    assert (Hpoly : ∀ rasters,
              get_combined_polygon rasters geometry_mode
              = Raise (Exception "Invalid geometry mode")).
    { intros rasters. unfold get_combined_polygon. now rewrite Hi, Hu. }
    split.
    + unfold stack_images.
      destruct (_ <=? 1); [unfold lift; eauto|].
      unfold mbind, io_bind, lift, open_all.
      destruct (mapM (gdal_Open fs) paths) as [rasters|e]; [|eauto].
      destruct (first_of rasters) as [first|e]; [|eauto].
      rewrite Hpoly. eauto.
    + unfold combine_masks, mbind, io_bind, lift, open_all.
      destruct (mapM (gdal_Open fs) paths) as [masks|e]; [|eauto].
      rewrite Hpoly. eauto.
  - intros Hor Hand Hnor.
    unfold combine_masks, mbind, io_bind, lift, open_all, flush.
    destruct (mapM (gdal_Open fs) paths) as [masks|e]; [|cbn; eauto].
    destruct (get_combined_polygon masks geometry_mode) as [poly|e];
      [|cbn; eauto].
    destruct (first_of masks) as [first|e] eqn:Hfirst; [|cbn; eauto].
    destruct (create_new_image_from_polygon _ _ _ _ _ _) as [out_mask|e];
      [|cbn; eauto].
    destruct (combine_loop_unknown combination_func geometry_mode poly masks
                (fill out_mask 1) Hor Hand Hnor) as [e He].
    { destruct masks; [discriminate | congruence]. }
    rewrite He. cbn. eauto.
Qed.


(** X11.  An image of one band cannot be classified.  Whatever the model, the
    chunk count and the nodata value, [classify_image] on a raster of one
    band raises [ValueError]: the array of such a raster has two axes and
    [reshape_raster_for_ml] unpacks three.  The class image is created
    before, and stays on file with every pixel zero. *)
Theorem classify_image_one_band (available : Z) (model : Model)
    (image_path class_out_dir : string) (num_chunks : option Z) (nodata : Z)
    (fs : files) (image : Dataset) :
  fs !! image_path = Some image →
  RasterCount image = 1 →
  1 <= RasterXSize image → 1 <= RasterYSize image →
  ∃ class_out_image,
    classify_image available model image_path class_out_dir num_chunks nodata fs
    = (Raise ValueError, <[class_out_dir := class_out_image]> fs)
    ∧ RasterXSize class_out_image = RasterXSize image
    ∧ RasterYSize class_out_image = RasterYSize image
    ∧ pixels class_out_image
      = blank 1 (RasterYSize image) (RasterXSize image).
Proof.
  intros Hfile Hone HX HY.
  unfold classify_image, mbind, io_bind, lift, open, flush, gdal_Open.
  rewrite Hfile. unfold create_matching_dataset, driver_Create.
  destruct (Z.ltb_spec (RasterXSize image) 1); [lia|].
  destruct (Z.ltb_spec (RasterYSize image) 1); [lia|].
  cbn [orb mbind result_bind].
  unfold GetVirtualMemArray. rewrite Hone. cbn [Z.eqb Pos.eqb reshape_raster_for_ml].
  eexists. split; [reflexivity|]. cbn. auto.
Qed.

(** ** Copying through a window that spans whole bands *)

Lemma zip_with_ext_in {A B C} (f g : A → B → C) (l : list A) : ∀ k : list B,
  (∀ a b, In a l → In b k → f a b = g a b) →
  zip_with f l k = zip_with g l k.
Proof.
  induction l as [|a l IH]; intros [|b k] H; try reflexivity.
  cbn [zip_with]. f_equal.
  - apply H; now left.
  - apply IH. intros a' b' Ha Hb. apply H; now right.
Qed.

Lemma zip_with_snd {A B} (f : A → B → B) (l : list A) : ∀ k : list B,
  length l = length k →
  (∀ a b, In a l → In b k → f a b = b) →
  zip_with f l k = k.
Proof.
  induction l as [|a l IH]; intros [|b k] Hlen H; try discriminate;
    [reflexivity|].
  cbn [zip_with]. f_equal.
  - apply H; now left.
  - apply IH; [now injection Hlen|].
    intros a' b' Ha Hb. apply H; now right.
Qed.

Section CopyBands.
Variable where_ : Z → bool.
Variables y x : Z.

Lemma view_rows (a : list band) :
  Forall (rows_ok y x) a →
  map (fun band => map (slice 0 x) (slice 0 y band)) a = a.
Proof.
  intros Hall. rewrite <- (map_id a) at 2. apply map_ext_in.
  intros band Hband. apply (proj1 (List.Forall_forall _ _) Hall) in Hband.
  destruct Hband as [Hy Hrows]. rewrite <- Hy, slice_all.
  rewrite <- (map_id band) at 2. apply map_ext_in.
  intros row Hrow. apply (proj1 (List.Forall_forall _ _) Hrows) in Hrow.
  rewrite <- Hrow. apply slice_all.
Qed.

Lemma overlay_stretch (dst src : list band) :
  length dst = length src → Forall (rows_ok y x) dst → Forall (rows_ok y x) src →
  zip_with (fun dst_band src_band =>
              zip_with (fun dst_row src_row =>
                          zip_with (fun d s => if where_ s then s else d)
                                   dst_row (stretch (length dst_row) src_row))
                       dst_band (stretch (length dst_band) src_band))
           dst (stretch (length dst) src)
  = overlay where_ dst src.
Proof.
  intros Hlen Hdst Hsrc. rewrite stretch_same by congruence.
  unfold overlay. apply zip_with_ext_in. intros db sb Hdb Hsb.
  apply (proj1 (List.Forall_forall _ _) Hdst) in Hdb as [Hdy Hdx].
  apply (proj1 (List.Forall_forall _ _) Hsrc) in Hsb as [Hsy Hsx].
  rewrite stretch_same by lia.
  apply zip_with_ext_in. intros dr sr Hdr Hsr.
  apply (proj1 (List.Forall_forall _ _) Hdx) in Hdr.
  apply (proj1 (List.Forall_forall _ _) Hsx) in Hsr.
  rewrite stretch_same by lia. reflexivity.
Qed.

Lemma overlay_rows_ok (dst src : list band) :
  Forall (rows_ok y x) dst → Forall (rows_ok y x) src →
  Forall (rows_ok y x) (overlay where_ dst src).
Proof.
  intros Hdst. revert src.
  induction Hdst as [|db dst [Hdy Hdx] _ IH]; intros [|sb src] Hsrc;
    try constructor.
  - apply Forall_cons in Hsrc as [[Hsy Hsx] _].
    split.
    + rewrite length_zip_with. lia.
    + clear Hdy Hsy. revert sb Hsx.
      induction Hdx as [|dr db Hdr _ IHr]; intros [|sr sb] Hsx;
        try constructor.
      * apply Forall_cons in Hsx as [Hsr _]. rewrite length_zip_with. lia.
      * apply Forall_cons in Hsx as [_ Hsx]. now apply IHr.
  - apply Forall_cons in Hsrc as [_ Hsrc]. now apply IH.
Qed.

Lemma overlay_length (dst src : list band) :
  length dst = length src → length (overlay where_ dst src) = length src.
Proof. intros H. unfold overlay. rewrite length_zip_with_r_eq; auto. Qed.

Lemma write_rows (a new : list band) :
  length a = length new → Forall (rows_ok y x) a → Forall (rows_ok y x) new →
  zip_with (fun band new_band =>
              slice_write 0 y
                (zip_with (fun row new_row => slice_write 0 x new_row row)
                          (slice 0 y band) new_band)
                band)
           a new
  = new.
Proof.
  intros Hlen Ha Hnew. apply zip_with_snd; [exact Hlen|].
  intros band nb Hband Hnb.
  apply (proj1 (List.Forall_forall _ _) Ha) in Hband as [Hby Hbx].
  apply (proj1 (List.Forall_forall _ _) Hnew) in Hnb as [Hny Hnx].
  rewrite <- Hby, slice_all, slice_write_all.
  apply zip_with_snd; [lia|].
  intros row nr Hrow Hnr.
  apply (proj1 (List.Forall_forall _ _) Hbx) in Hrow.
  rewrite <- Hrow. apply slice_write_all.
Qed.

(** Copying an array of [b] bands over the bands [b0 .. b0 + b] of
    another, all rows and columns: the bands before and after stay, those
    between come out laid over by the source. *)
Lemma copyto_bands (B b b0 : Z) (dst src : list band) :
  0 <= b0 → 0 <= b → b0 + b <= B → 0 <= y → 0 <= x →
  shaped B y x dst → shaped b y x src →
  copyto (B, y, x, dst) b0 (b0 + b) 0 y 0 x (b, y, x, src) where_
  = Ok (firstn (Z.to_nat b0) dst
        ++ overlay where_ (firstn (Z.to_nat b) (skipn (Z.to_nat b0) dst)) src
        ++ skipn (Z.to_nat (b0 + b)) dst).
Proof.
  intros Hb0 Hb HB Hy Hx [HdB Hdst] [Hsb Hsrc].
  unfold copyto, window3, slice_len.
  rewrite !clip_inside by lia.
  rewrite !Z.sub_0_r, !Z.max_r by lia.
  replace (b0 + b - b0) with b by lia.
  unfold can_broadcast. rewrite !Z.eqb_refl. cbn [orb andb snd].
  rewrite slice_inside by lia.
  replace (b0 + b - b0) with b by lia.
  set (view := firstn (Z.to_nat b) (skipn (Z.to_nat b0) dst)).
  assert (Hview : Forall (rows_ok y x) view).
  { apply Forall_take, Forall_drop. exact Hdst. }
  assert (Hvlen : length view = length src).
  { unfold view. rewrite length_take, length_drop. lia. }
  rewrite (view_rows view Hview).
  rewrite (overlay_stretch view src Hvlen Hview Hsrc).
  f_equal. unfold write_window3.
  rewrite slice_inside by lia.
  replace (b0 + b - b0) with b by lia. fold view.
  rewrite write_rows.
  - apply slice_write_inside; lia.
  - rewrite overlay_length; congruence.
  - exact Hview.
  - now apply overlay_rows_ok.
Qed.
End CopyBands.

Lemma overlay_all (where_ : Z → bool) (dst src : list band) :
  (∀ v, where_ v = true) →
  Forall2 (Forall2 (fun d s : list Z => length d = length s)) dst src →
  overlay where_ dst src = src.
Proof.
  intros Hw H. unfold overlay.
  induction H as [|db sb dst src Hb _ IH]; [reflexivity|].
  cbn [zip_with]. f_equal; [|exact IH].
  clear IH. induction Hb as [|dr sr db sb Hr _ IHb]; [reflexivity|].
  cbn [zip_with]. f_equal; [|exact IHb].
  clear IHb. revert sr Hr. induction dr as [|d dr IHr]; intros [|s sr] Hr;
    try discriminate; [reflexivity|].
  cbn [zip_with]. rewrite Hw. f_equal. apply IHr. now injection Hr.
Qed.

Lemma shaped_alike (b y x : Z) (dst src : list band) :
  shaped b y x dst → shaped b y x src →
  Forall2 (Forall2 (fun d s : list Z => length d = length s)) dst src.
Proof.
  intros [Hdb Hdst] [Hsb Hsrc].
  assert (Hlen : length dst = length src) by lia. clear Hdb Hsb.
  revert src Hlen Hsrc.
  induction Hdst as [|db dst [Hdy Hdx] _ IH]; intros [|sb src] Hlen Hsrc;
    try discriminate; constructor.
  - apply Forall_cons in Hsrc as [[Hsy Hsx] _].
    assert (Hl : length db = length sb) by lia. clear Hdy Hsy Hlen IH.
    revert sb Hl Hsx.
    induction Hdx as [|dr db Hdr _ IHr]; intros [|sr sb] Hl Hsx;
      try discriminate; constructor.
    + apply Forall_cons in Hsx as [Hsr _]. lia.
    + apply Forall_cons in Hsx as [_ Hsx]. apply IHr; [now injection Hl | exact Hsx].
  - apply Forall_cons in Hsrc as [_ Hsrc]. apply IH; [now injection Hlen | exact Hsrc].
Qed.

(** ** Rasters on one grid *)

Lemma foot_of_bounds (d : Dataset) :
  (0 < gt_1 (GetGeoTransform d))%Q → (gt_5 (GetGeoTransform d) < 0)%Q →
  0 <= RasterXSize d → 0 <= RasterYSize d →
  ∃ f, get_raster_bounds d = [f] ∧ foot_of d f.
Proof.
  intros Hw Hh HX HY.
  destruct (footprint_sides d Hw Hh HX HY) as (f & Hf & F1 & F2 & F3 & F4).
  exists f. unfold foot_of. auto.
Qed.

Lemma foot_of_coincide (d d' : Dataset) (f : rect) :
  coincide d d' → foot_of d f → foot_of d' f.
Proof.
  intros (E0 & E1 & E3 & E5 & EX & EY) (F1 & F2 & F3 & F4).
  unfold foot_of. rewrite EX, EY, E0, E1, E3, E5. auto.
Qed.

Lemma foot_same_region (d : Dataset) (f g : rect) :
  foot_of d f → foot_of d g → same_region f g.
Proof.
  intros (F1 & F2 & F3 & F4) (G1 & G2 & G3 & G4).
  unfold same_region. rewrite F1, F2, F3, F4. auto.
Qed.

Lemma foot_ordered (d : Dataset) (f : rect) :
  (0 < gt_1 (GetGeoTransform d))%Q → (gt_5 (GetGeoTransform d) < 0)%Q →
  0 <= RasterXSize d → 0 <= RasterYSize d →
  foot_of d f → (x_lo f <= x_hi f)%Q ∧ (y_lo f <= y_hi f)%Q.
Proof.
  intros Hw Hh HX HY (F1 & F2 & F3 & F4).
  assert (0 <= gt_1 (GetGeoTransform d) * inject_Z (RasterXSize d))%Q
    by (apply steps_nonneg; [lra | exact HX]).
  assert (0 <= - gt_5 (GetGeoTransform d) * inject_Z (RasterYSize d))%Q
    by (apply steps_nonneg; [lra | exact HY]).
  split; lra.
Qed.

(** Rectangles with the sides of [f] intersect in such a rectangle. *)
Lemma inter_same_region (f a b : rect) :
  (x_lo f <= x_hi f)%Q → (y_lo f <= y_hi f)%Q →
  same_region f a → same_region f b →
  nonempty (rect_inter a b) = true ∧ same_region f (rect_inter a b).
Proof.
  intros Hx Hy (A1 & A2 & A3 & A4) (B1 & B2 & B3 & B4).
  assert (M1 : (Qmax (x_lo a) (x_lo b) == x_lo f)%Q)
    by (rewrite Q.max_l; lra).
  assert (M2 : (Qmin (x_hi a) (x_hi b) == x_hi f)%Q)
    by (rewrite Q.min_l; lra).
  assert (M3 : (Qmax (y_lo a) (y_lo b) == y_lo f)%Q)
    by (rewrite Q.max_l; lra).
  assert (M4 : (Qmin (y_hi a) (y_hi b) == y_hi f)%Q)
    by (rewrite Q.min_l; lra).
  split.
  - unfold nonempty. apply andb_true_iff.
    split; apply Qle_bool_iff; cbn; lra.
  - unfold same_region. cbn. auto.
Qed.

Lemma intersection_covers (f : rect) (p q : polygon) :
  (x_lo f <= x_hi f)%Q → (y_lo f <= y_hi f)%Q →
  covers f p → covers f q → covers f (Intersection p q).
Proof.
  intros Hx Hy [Hp Hpall] [Hq Hqall]. split.
  - destruct p as [|a p]; [congruence|]. destruct q as [|b q]; [congruence|].
    apply Forall_cons in Hpall as [Ha _]. apply Forall_cons in Hqall as [Hb _].
    unfold Intersection. cbn [flat_map].
    rewrite (proj1 (inter_same_region f a b Hx Hy Ha Hb)). discriminate.
  - unfold Intersection. apply Forall_flat_map.
    eapply Forall_impl; [exact Hpall|]. intros a Ha. cbn beta.
    apply Forall_flat_map.
    eapply Forall_impl; [exact Hqall|]. intros b Hb. cbn beta.
    destruct (inter_same_region f a b Hx Hy Ha Hb) as [-> Hs].
    constructor; [exact Hs | constructor].
Qed.

Lemma union_covers (f : rect) (p q : polygon) :
  covers f p → covers f q → covers f (Union p q).
Proof.
  intros [Hp Hpall] [Hq Hqall]. split.
  - unfold Union. destruct p; [congruence | discriminate].
  - apply Forall_app. auto.
Qed.

Lemma fold_covers (f : rect) (op : polygon → polygon → polygon)
    (others : list polygon) :
  (∀ p q, covers f p → covers f q → covers f (op p q)) →
  ∀ first, covers f first → Forall (covers f) others →
           covers f (fold_left op others first).
Proof.
  intros Hop. induction others as [|q others IH]; intros first Hfirst Hall;
    [exact Hfirst|].
  apply Forall_cons in Hall as [Hq Hall].
  cbn [fold_left]. apply IH; auto.
Qed.

(** The polygon that the rasters of one grid combine to, in either
    geometry mode. *)
Lemma combined_covers (f : rect) (rasters : list Dataset) (geometry_mode : string) :
  (x_lo f <= x_hi f)%Q → (y_lo f <= y_hi f)%Q →
  geometry_mode = "intersect" ∨ geometry_mode = "union" →
  rasters ≠ [] →
  Forall (fun r => covers f (get_raster_bounds r)) rasters →
  ∃ p, get_combined_polygon rasters geometry_mode = Ok p ∧ covers f p.
Proof.
  intros Hx Hy Hmode Hne Hall.
  destruct rasters as [|first others]; [congruence|].
  apply Forall_cons in Hall as [Hfirst Hall].
  assert (Hmap : Forall (covers f) (map get_raster_bounds others)).
  { apply Forall_map. exact Hall. }
  unfold get_combined_polygon. cbn [map].
  destruct Hmode as [-> | ->]; cbn [String.eqb Ascii.eqb Bool.eqb];
    cbn [multiple_intersection multiple_union]; unfold Simplify;
    eexists; (split; [reflexivity|]); apply fold_covers; auto.
  - intros p q. now apply intersection_covers.
  - apply union_covers.
Qed.

Lemma envelope_covers (f : rect) (p : polygon) :
  covers f p →
  ∃ a b c d, GetEnvelope p = (a, b, c, d)
    ∧ (a == x_lo f)%Q ∧ (b == x_hi f)%Q ∧ (c == y_lo f)%Q ∧ (d == y_hi f)%Q.
Proof.
  intros [Hne Hall]. destruct p as [|r rs]; [congruence|].
  apply Forall_cons in Hall as [(R1 & R2 & R3 & R4) Hall].
  cbn [GetEnvelope].
  generalize dependent (y_hi r). generalize dependent (y_lo r).
  generalize dependent (x_hi r). generalize dependent (x_lo r).
  clear Hne r.
  induction Hall as [|g rs (G1 & G2 & G3 & G4) _ IH]; intros a Ha b Hb c Hc d Hd.
  - exists a, b, c, d. cbn. auto.
  - cbn [fold_left]. apply IH.
    + rewrite Q.min_l; lra.
    + rewrite Q.max_l; lra.
    + rewrite Q.min_l; lra.
    + rewrite Q.max_l; lra.
Qed.

(** The window, in a raster, of a polygon that covers its footprint: the
    whole raster. *)
Lemma window_whole (o : Dataset) (f : rect) (p : polygon) :
  (0 < gt_1 (GetGeoTransform o))%Q → (gt_5 (GetGeoTransform o) < 0)%Q →
  0 <= RasterXSize o → 0 <= RasterYSize o →
  foot_of o f → covers f p →
  pixel_bounds_from_polygon o p = Ok (0, RasterXSize o, 0, RasterYSize o).
Proof.
  intros Hw Hh HX HY Hf Hp.
  destruct (foot_of_bounds o Hw Hh HX HY) as (fo & Hfo & Hfoot).
  destruct (foot_ordered o f Hw Hh HX HY Hf) as [Ox Oy].
  assert (Hcov : covers f (Intersection (get_raster_bounds o) p)).
  { apply intersection_covers; try assumption. rewrite Hfo. split; [discriminate|].
    constructor; [|constructor]. now apply (foot_same_region o). }
  destruct (envelope_covers f _ Hcov) as (a & b & c & d & Henv & A & B & C & D).
  destruct Hf as (F1 & F2 & F3 & F4).
  rewrite (pixel_bounds_of_envelope o Hw Hh p a b c d Henv) by lra.
  unfold column_of, row_of.
  rewrite (floor_whole _ _ _ 0), (floor_whole _ _ _ (RasterXSize o)),
          (floor_whole _ _ _ 0), (floor_whole _ _ _ (RasterYSize o));
    try lra; try reflexivity.
  all: first [rewrite A, F1 | rewrite B, F2 | rewrite C, F3 | rewrite D, F4];
    ring.
Qed.

(** The image created from a polygon that covers the footprint of [r], at
    the pixel size of [r]: a blank image on the grid of [r]. *)
Lemma create_whole (r : Dataset) (f : rect) (p : polygon) (bands : Z)
    (projection : string) (datatype : GDALDataType) :
  (0 < gt_1 (GetGeoTransform r))%Q → (gt_5 (GetGeoTransform r) < 0)%Q →
  1 <= RasterXSize r → 1 <= RasterYSize r →
  foot_of r f → covers f p →
  ∃ o, create_new_image_from_polygon p (gt_1 (GetGeoTransform r))
         (gt_5 (GetGeoTransform r) * -1)%Q bands projection datatype = Ok o
    ∧ coincide r o
    ∧ RasterCount o = bands
    ∧ GetProjection o = projection
    ∧ DataType o = datatype
    ∧ pixels o = blank bands (RasterYSize r) (RasterXSize r).
Proof.
  intros Hw Hh HX HY (F1 & F2 & F3 & F4) Hp.
  destruct (envelope_covers f p Hp) as (a & b & c & d & Henv & A & B & C & D).
  unfold create_new_image_from_polygon. rewrite Henv. cbn [r_div Q_arith].
  destruct (Qeq_bool (gt_1 (GetGeoTransform r)) 0) eqn:Ex.
  { apply Qeq_bool_iff in Ex. lra. }
  destruct (Qeq_bool (gt_5 (GetGeoTransform r) * -1) 0) eqn:Ey.
  { apply Qeq_bool_iff in Ey. lra. }
  cbn [mbind result_bind].
  rewrite (int_of_Q_whole _ (RasterXSize r)), (int_of_Q_whole _ (RasterYSize r)).
  - unfold driver_Create.
    destruct (Z.ltb_spec (RasterXSize r) 1); [lia|].
    destruct (Z.ltb_spec (RasterYSize r) 1); [lia|].
    cbn [orb]. eexists. split; [reflexivity|].
    unfold coincide, blank. cbn. repeat split; auto; try reflexivity.
    + lra.
    + lra.
    + ring.
  - rewrite D, C, F3, F4. field. lra.
  - rewrite B, A, F1, F2. field. lra.
Qed.

Lemma open_all_found (paths : list string) (rasters : list Dataset) (fs : files) :
  Forall2 (fun p r => fs !! p = Some r) paths rasters →
  open_all paths fs = (Ok rasters, fs).
Proof.
  intros H. unfold open_all. f_equal.
  induction H as [|p r paths rasters Hp _ IH]; [reflexivity|].
  assert (E : gdal_Open fs p = Ok r) by (unfold gdal_Open; now rewrite Hp).
  cbn [mapM]. rewrite E. cbn [mbind result_bind]. rewrite IH. reflexivity.
Qed.

(** The array of a well-formed raster with its first axis, whether GDAL
    hands it out with two axes or with three. *)
Lemma expand_well_formed (r : Dataset) :
  well_formed r →
  expand_if_2d (GetVirtualMemArray r)
  = (RasterCount r, RasterYSize r, RasterXSize r, pixels r).
Proof.
  intros (_ & _ & _ & Hb & _). unfold GetVirtualMemArray.
  destruct (Z.eqb_spec (RasterCount r) 1) as [E|_]; [|reflexivity].
  cbn [expand_if_2d]. rewrite E in *.
  destruct (pixels r) as [|band [|band' rest]]; try (cbn in Hb; lia).
  reflexivity.
Qed.

Lemma set_pixels_same (d : Dataset) : set_pixels d (pixels d) = d.
Proof. now destruct d. Qed.

Lemma total_layers_bound (rasters : list Dataset) :
  Forall well_formed rasters → Z.of_nat (length rasters) <= total_layers rasters.
Proof.
  unfold total_layers. induction 1 as [|r rasters (_ & _ & Hb & _) _ IH].
  - cbn. lia.
  - cbn [map fold_right length]. lia.
Qed.

Lemma splice_twice {A} (P src rest : list A) (L b t : nat) :
  (L + b <= length P)%nat → length src = b →
  firstn (L + b) (firstn L P ++ src ++ skipn (L + b) P)
  ++ rest ++ skipn (L + b + t) (firstn L P ++ src ++ skipn (L + b) P)
  = firstn L P ++ (src ++ rest) ++ skipn (L + b + t) P.
Proof.
  intros HP Hsrc.
  assert (Htake : length (firstn L P) = L) by (rewrite length_take; lia).
  rewrite (app_assoc (firstn L P) src).
  assert (Hlen : length (firstn L P ++ src) = (L + b)%nat)
    by (rewrite length_app; lia).
  rewrite <- Hlen at 1. rewrite take_app_length.
  rewrite <- Hlen at 1.
  rewrite drop_app_add, drop_drop.
  now rewrite <- !app_assoc.
Qed.

Section OneGrid.
Variable first : Dataset.
Variable f : rect.
Variable combined : polygon.
Hypothesis width_pos : (0 < gt_1 (GetGeoTransform first))%Q.
Hypothesis height_neg : (gt_5 (GetGeoTransform first) < 0)%Q.
Hypothesis first_ok : well_formed first.
Hypothesis first_foot : foot_of first f.
Hypothesis combined_covers_f : covers f combined.

Lemma window_on_grid (r : Dataset) :
  coincide first r →
  pixel_bounds_from_polygon r combined
  = Ok (0, RasterXSize first, 0, RasterYSize first).
Proof using width_pos height_neg first_ok first_foot combined_covers_f.
  intros Hr. pose proof Hr as (E0 & E1 & E3 & E5 & EX & EY).
  destruct first_ok as (HX & HY & _).
  rewrite <- EX, <- EY. apply (window_whole r f).
  - now rewrite E1.
  - now rewrite E5.
  - lia.
  - lia.
  - now apply (foot_of_coincide first).
  - exact combined_covers_f.
Qed.

Lemma window_of_bounds_on_grid (cur r : Dataset) :
  coincide first cur → coincide first r →
  pixel_bounds_from_polygon cur (get_raster_bounds r)
  = Ok (0, RasterXSize first, 0, RasterYSize first).
Proof using width_pos height_neg first_ok first_foot.
  intros Hcur Hr.
  pose proof Hcur as (E0 & E1 & E3 & E5 & EX & EY).
  pose proof Hr as (R0 & R1 & R3 & R5 & RX & RY).
  destruct first_ok as (HX & HY & _).
  destruct (foot_of_bounds r) as (g & Hg & Hfoot);
    [now rewrite R1 | now rewrite R5 | lia | lia |].
  rewrite <- EX, <- EY. apply (window_whole cur f).
  - now rewrite E1.
  - now rewrite E5.
  - lia.
  - lia.
  - now apply (foot_of_coincide first).
  - rewrite Hg. split; [discriminate|]. constructor; [|constructor].
    apply (foot_same_region r); [|exact Hfoot].
    now apply (foot_of_coincide first).
Qed.

(** The loop of [stack_images] on rasters of one grid: the bands of each
    go after those of the rasters before it. *)
Lemma stack_loop_on_grid (B : Z) (rasters : list Dataset) :
  ∀ (present_layer : Z) (cur : Dataset),
    Forall well_formed rasters → Forall (coincide first) rasters →
    coincide first cur → RasterCount cur = B → B ≠ 1 →
    shaped B (RasterYSize first) (RasterXSize first) (pixels cur) →
    0 <= present_layer → present_layer + total_layers rasters <= B →
    stack_loop combined rasters present_layer cur
    = (Ok tt,
       set_pixels cur
         (firstn (Z.to_nat present_layer) (pixels cur)
          ++ concat (map pixels rasters)
          ++ skipn (Z.to_nat (present_layer + total_layers rasters))
                   (pixels cur))).
Proof using width_pos height_neg first_ok first_foot combined_covers_f.
  induction rasters as [|r rasters IH];
    intros L cur Hok Hgrid Hcur HB Hmany Hshape HL Hroom.
  - cbn [stack_loop map concat total_layers fold_right app].
    rewrite Z.add_0_r, firstn_skipn, set_pixels_same. reflexivity.
  - apply Forall_cons in Hok as [Hr Hok].
    apply Forall_cons in Hgrid as [Hrg Hgrid].
    pose proof Hr as (RX & RY & RB & Hrshape).
    pose proof Hrg as (_ & _ & _ & _ & EX & EY).
    pose proof Hcur as (_ & _ & _ & _ & CX & CY).
    pose proof first_ok as (HX & HY & _).
    assert (Hrest : 0 <= total_layers rasters).
    { pose proof (total_layers_bound rasters Hok). lia. }
    change (total_layers (r :: rasters))
      with (RasterCount r + total_layers rasters) in *.
    cbn [stack_loop].
    rewrite (window_on_grid cur Hcur), (window_on_grid r Hrg).
    cbn [mbind result_bind].
    rewrite (expand_well_formed r Hr).
    unfold GetVirtualMemArray at 1. rewrite HB.
    destruct (Z.eqb_spec B 1) as [|_]; [contradiction|].
    cbn [three_axes mbind result_bind].
    rewrite EX, EY in Hrshape.
    assert (Hview : window3 (RasterCount r, RasterYSize r, RasterXSize r, pixels r)
                      0 (RasterCount r) 0 (RasterYSize first)
                      0 (RasterXSize first)
                    = (RasterCount r, RasterYSize first, RasterXSize first,
                       pixels r)).
    { unfold window3, slice_len. rewrite EX, EY.
      rewrite !clip_inside by lia. rewrite !Z.sub_0_r, !Z.max_r by lia.
      now rewrite (view_all _ _ _ _ Hrshape). }
    rewrite Hview, CX, CY.
    rewrite (copyto_bands (fun _ => true) _ _ B (RasterCount r) L
               (pixels cur) (pixels r)); try assumption; try lia.
    rewrite overlay_all; [|reflexivity|].
    2:{ apply (shaped_alike (RasterCount r) (RasterYSize first)
                 (RasterXSize first)); [|exact Hrshape].
        destruct Hshape as [Hlen Hall]. split.
        - rewrite length_take, length_drop. lia.
        - apply Forall_take, Forall_drop. exact Hall. }
    set (P := pixels cur) in *.
    set (P' := firstn (Z.to_nat L) P ++ pixels r
               ++ skipn (Z.to_nat (L + RasterCount r)) P).
    assert (HPlen : Z.of_nat (length P) = B) by apply Hshape.
    assert (Hrlen : Z.of_nat (length (pixels r)) = RasterCount r) by apply Hrshape.
    assert (Htake : length (firstn (Z.to_nat L) P) = Z.to_nat L).
    { rewrite length_take. lia. }
    rewrite (IH (L + RasterCount r) (set_pixels cur P')); try assumption;
      try lia.
    + f_equal. cbn [set_pixels pixels RasterXSize RasterYSize RasterCount
                    GetGeoTransform GetProjection DataType].
      f_equal. cbn [map concat]. unfold P'.
      rewrite Z.add_assoc, !Z2Nat.inj_add by lia.
      apply splice_twice; lia.
    + destruct Hshape as [Hlen Hall]. unfold P'. split.
      * cbn [set_pixels pixels]. rewrite !length_app, length_drop. lia.
      * cbn [set_pixels pixels]. apply Forall_app. split.
        { apply Forall_take. exact Hall. }
        apply Forall_app. split; [apply Hrshape|].
        apply Forall_drop. exact Hall.
Qed.

(** The loop of [mosaic_images] on rasters of one grid and one band
    count: each raster is laid over the mosaic of those before it. *)
Lemma mosaic_loop_on_grid (nodata : Z) (rasters : list Dataset) :
  ∀ cur : Dataset,
    Forall well_formed rasters →
    Forall (fun r => coincide first r ∧ RasterCount r = RasterCount first)
           rasters →
    coincide first cur → RasterCount cur = RasterCount first →
    RasterCount first ≠ 1 →
    shaped (RasterCount first) (RasterYSize first) (RasterXSize first)
           (pixels cur) →
    mosaic_loop nodata rasters cur
    = (Ok tt,
       set_pixels cur
         (fold_left (mosaic_of nodata) (map pixels rasters) (pixels cur))).
Proof using width_pos height_neg first_ok first_foot.
  induction rasters as [|r rasters IH];
    intros cur Hok Hgrid Hcur HB Hmany Hshape.
  - cbn [mosaic_loop map fold_left]. now rewrite set_pixels_same.
  - apply Forall_cons in Hok as [Hr Hok].
    apply Forall_cons in Hgrid as [[Hrg Hrb] Hgrid].
    pose proof Hr as (RX & RY & RB & Hrshape).
    pose proof Hrg as (_ & _ & _ & _ & EX & EY).
    pose proof Hcur as (_ & _ & _ & _ & CX & CY).
    pose proof first_ok as (HX & HY & HB1 & _).
    cbn [mosaic_loop].
    rewrite (expand_well_formed r Hr).
    rewrite (window_of_bounds_on_grid cur r Hcur Hrg).
    cbn [mbind result_bind].
    unfold GetVirtualMemArray. rewrite HB.
    destruct (Z.eqb_spec (RasterCount first) 1) as [|_]; [contradiction|].
    cbn [three_axes mbind result_bind].
    rewrite EX, EY, Hrb in *. rewrite CX, CY.
    change (RasterCount first) with (0 + RasterCount first) at 2.
    rewrite (copyto_bands _ _ _ (RasterCount first) (RasterCount first) 0
               (pixels cur) (pixels r)); try assumption; try lia.
    assert (HPlen : Z.of_nat (length (pixels cur)) = RasterCount first)
      by apply Hshape.
    change (Z.to_nat 0) with 0%nat. rewrite Z.add_0_l.
    rewrite take_0, drop_0. cbn [app].
    rewrite firstn_all2 by lia. rewrite skipn_all2 by lia.
    rewrite app_nil_r.
    rewrite IH; try assumption.
    + cbn [map fold_left]. reflexivity.
    + cbn [set_pixels pixels]. destruct Hshape as [Hlen Hall].
      destruct Hrshape as [Hrlen Hrall]. split.
      * unfold mosaic_of. rewrite overlay_length; lia.
      * apply overlay_rows_ok; assumption.
Qed.
End OneGrid.

Lemma blank_shaped (b y x : Z) :
  0 <= b → 0 <= y → 0 <= x → shaped b y x (blank b y x).
Proof.
  intros Hb Hy Hx. unfold shaped, blank. rewrite repeat_length. split; [lia|].
  apply List.Forall_forall. intros band ->%repeat_spec.
  rewrite repeat_length. split; [lia|].
  apply List.Forall_forall. intros row ->%repeat_spec.
  rewrite repeat_length. lia.
Qed.

Lemma coincide_refl (d : Dataset) : coincide d d.
Proof. unfold coincide. repeat split; reflexivity. Qed.

(** The footprints of rasters on one grid all have the sides of the
    footprint of the first. *)
Lemma bounds_cover (first : Dataset) (f : rect) (rasters : list Dataset) :
  (0 < gt_1 (GetGeoTransform first))%Q → (gt_5 (GetGeoTransform first) < 0)%Q →
  0 <= RasterXSize first → 0 <= RasterYSize first →
  foot_of first f →
  Forall (coincide first) rasters →
  Forall (fun r => covers f (get_raster_bounds r)) rasters.
Proof.
  intros Hw Hh HX HY Hf Hall. eapply Forall_impl; [exact Hall|].
  intros r Hr. pose proof Hr as (E0 & E1 & E3 & E5 & EX & EY).
  destruct (foot_of_bounds r) as (g & Hg & Hfoot);
    [now rewrite E1 | now rewrite E5 | lia | lia |].
  rewrite Hg. split; [discriminate|]. constructor; [|constructor].
  apply (foot_same_region r); [|exact Hfoot].
  now apply (foot_of_coincide first).
Qed.



(** ** The class map, pixel by pixel *)

(** Rows of one length, laid end to end and cut again at that length. *)
Lemma rows_of_concat {A} (X : nat) (rows : list (list A)) :
  Forall (fun row => length row = X) rows →
  map (fun j => firstn X (skipn (j * X) (concat rows))) (seq 0 (length rows))
  = rows.
Proof.
  induction 1 as [|row rows Hrow _ IH]; [reflexivity|].
  cbn [length seq map concat]. f_equal.
  - cbn [Nat.mul skipn]. now apply take_app_length'.
  - rewrite <- seq_shift, map_map. rewrite <- IH at 2.
    apply map_ext. intros j. f_equal.
    replace (S j * X)%nat with (length row + j * X)%nat by lia.
    apply drop_app_add.
Qed.

(** The labels of the samples of an image, cut into the rows of the class
    map. *)
Lemma reshape_labels (g : sample → Z) (image : Dataset) :
  0 <= RasterXSize image → 0 <= RasterYSize image →
  reshape_ml_out_to_raster (map g (samples_of image))
                           (RasterXSize image) (RasterYSize image)
  = Ok (map (fun j => map (fun i => g (sample_at (pixels image) j i))
                          (seq 0 (Z.to_nat (RasterXSize image))))
            (seq 0 (Z.to_nat (RasterYSize image)))).
Proof.
  intros HX HY. unfold reshape_ml_out_to_raster, samples_of.
  set (X := Z.to_nat (RasterXSize image)).
  set (Y := Z.to_nat (RasterYSize image)).
  set (rows := map (fun j => map (fun i => g (sample_at (pixels image) j i))
                                 (seq 0 X)) (seq 0 Y)).
  assert (E : map g (flat_map (fun j => map (fun i => sample_at (pixels image) j i)
                                            (seq 0 X)) (seq 0 Y))
              = concat rows).
  { rewrite flat_map_concat_map, concat_map, !map_map. unfold rows.
    f_equal. apply map_ext. intros j. now rewrite map_map. }
  rewrite E.
  assert (Hrows : Forall (fun row => length row = X) rows).
  { unfold rows. apply Forall_map. apply List.Forall_forall. intros j _.
    now rewrite length_map, length_seq. }
  assert (Hlen : length rows = Y)
    by (unfold rows; now rewrite length_map, length_seq).
  assert (Hcat : length (concat rows) = (Y * X)%nat).
  { rewrite <- Hlen. clear Hlen E. induction Hrows as [|row rows Hr _ IH];
      [reflexivity|].
    cbn [concat length]. rewrite length_app, IH, Hr. lia. }
  rewrite Hcat.
  destruct (Z.eqb_spec (Z.of_nat (Y * X)) (RasterYSize image * RasterXSize image))
    as [_|Hne]; [|unfold X, Y in Hne; lia].
  f_equal. rewrite <- Hlen at 1. now apply rows_of_concat.
Qed.

(** The flat class map of [classify_image] where its quick check agrees
    with the nodata value. *)
Lemma class_out_array_labels model image_array nodata num_chunks :
  1 <= num_chunks →
  contains_0 image_array = true ∨ nodata = 0 →
  class_out_array model image_array (Some num_chunks) nodata
  = Ok (labelled (predict_one model) nodata (all_not nodata) image_array).
Proof.
  intros Hk Hcheck. rewrite class_out_array_chunks by exact Hk. f_equal.
  unfold good_indices, good_samples, enumerate, range, predict.
  rewrite Nat2Z.id.
  destruct (contains_0 image_array) eqn:E.
  - apply (scatter_kept (predict_one model) nodata (all_not nodata) image_array []).
  - destruct Hcheck as [?| ->]; [discriminate|].
    pose proof (no_zero_all_not _ E) as Hall.
    pose proof (scatter_kept (predict_one model) 0 (all_not 0) image_array [])
      as L.
    cbn [length app] in L.
    rewrite (filter_all (all_not 0)) in L by exact Hall.
    rewrite filter_all_snd in L by exact Hall.
    rewrite map_fst_combine in L
      by now rewrite length_map, length_seq.
    exact L.
Qed.

(** What [classify_image] writes for an image of several bands. *)
Lemma classify_image_run (available : Z) (model : Model)
    (image_path class_out_dir : string) (num_chunks nodata : Z)
    (fs : files) (image : Dataset) :
  fs !! image_path = Some image →
  1 <= RasterXSize image → 1 <= RasterYSize image →
  RasterCount image ≠ 1 →
  1 <= num_chunks →
  contains_0 (samples_of image) = true ∨ nodata = 0 →
  classify_image available model image_path class_out_dir
                 (Some num_chunks) nodata fs
  = (Ok class_out_dir,
     <[class_out_dir := class_image_of model nodata image]> fs).
Proof.
  intros Hfile HX HY Hbands Hk Hcheck.
  unfold classify_image, mbind, io_bind, lift, open, flush, gdal_Open,
    mret, io_ret.
  rewrite Hfile. unfold create_matching_dataset, driver_Create.
  destruct (Z.ltb_spec (RasterXSize image) 1); [lia|].
  destruct (Z.ltb_spec (RasterYSize image) 1); [lia|].
  cbn [orb mbind result_bind].
  unfold GetVirtualMemArray.
  destruct (Z.eqb_spec (RasterCount image) 1) as [|_]; [contradiction|].
  cbn [reshape_raster_for_ml].
  change (flat_map _ (seq 0 (Z.to_nat (RasterYSize image))))
    with (samples_of image).
  rewrite (class_out_array_labels model (samples_of image) nodata num_chunks Hk
             Hcheck).
  unfold labelled.
  rewrite (reshape_labels _ image) by lia.
  rewrite insert_insert_eq. reflexivity.
Qed.


(** ** Masks from a model *)

Lemma class_map_rows (model : Model) (nodata : Z) (image : Dataset) :
  length (class_map_of model nodata image) = Z.to_nat (RasterYSize image)
  ∧ Forall (fun row => length row = Z.to_nat (RasterXSize image))
           (class_map_of model nodata image).
Proof.
  unfold class_map_of. rewrite length_map, length_seq. split; [reflexivity|].
  apply Forall_map, List.Forall_forall. intros j _.
  now rewrite length_map, length_seq.
Qed.


(** ** Chunk counts found by [autochunk] *)


(** ** Names and paths *)

Lemma append_empty (s : string) : EmptyString +:+ s = s.
Proof. reflexivity. Qed.

Lemma append_String (c : Ascii.ascii) (a b : string) :
  String c a +:+ b = String c (a +:+ b).
Proof. reflexivity. Qed.

Ltac str_step :=
  rewrite ?append_empty, ?append_String;
  cbn [str_split occurs cut_after_last rstrip endswith str_join].

Lemma occurs_append (c : Ascii.ascii) (a b : string) :
  occurs c (a +:+ b) = occurs c a || occurs c b.
Proof.
  induction a as [|x a IH]; str_step; [reflexivity|].
  now rewrite IH, orb_assoc.
Qed.

Lemma str_split_parts (sep : Ascii.ascii) (s : string) :
  ∃ part parts, str_split sep s = part :: parts.
Proof.
  induction s as [|c s (part & parts & IH)]; str_step; [eauto|].
  destruct (Ascii.eqb c sep); [eauto|]. rewrite IH. eauto.
Qed.

(** A string without the separator is one part. *)
Lemma str_split_whole (sep : Ascii.ascii) (s : string) :
  occurs sep s = false → str_split sep s = [s].
Proof.
  induction s as [|c s IH]; str_step; [reflexivity|].
  intros [Hc Hs]%orb_false_iff. rewrite Hc, (IH Hs). reflexivity.
Qed.

(** Splitting at a separator splits what is before it and what is after. *)
Lemma str_split_append (sep : Ascii.ascii) (a b : string) :
  str_split sep (a +:+ String sep b) = str_split sep a ++ str_split sep b.
Proof.
  induction a as [|c a IH]; str_step.
  - now rewrite Ascii.eqb_refl.
  - destruct (Ascii.eqb c sep); rewrite IH; [reflexivity|].
    destruct (str_split_parts sep a) as (part & parts & ->). reflexivity.
Qed.

(** Joining parts that are free of the separator and splitting again
    gives the parts. *)
Lemma str_split_join (sep : Ascii.ascii) (parts : list string) :
  parts ≠ [] → Forall (fun part => occurs sep part = false) parts →
  str_split sep (str_join sep parts) = parts.
Proof.
  intros Hne Hall. induction Hall as [|part parts Hpart Hall IH]; [congruence|].
  destruct parts as [|next parts].
  - str_step. now apply str_split_whole.
  - change (str_join sep (part :: next :: parts))
      with (part +:+ String sep (str_join sep (next :: parts))).
    rewrite str_split_append, IH by discriminate.
    now rewrite (str_split_whole sep part Hpart).
Qed.

Lemma item_first {A} (x : A) (l : list A) : item 0 (x :: l) = Ok x.
Proof.
  unfold item. cbn [Z.ltb Z.compare].
  destruct (Z.ltb_spec 0 (Z.of_nat (length (x :: l)))) as [_|H];
    [reflexivity | cbn [length] in H; lia].
Qed.

Lemma item_last {A} (l : list A) (x : A) : item (-1) (l ++ [x]) = Ok x.
Proof.
  unfold item. rewrite length_app. cbn [length Z.ltb Z.compare].
  destruct (Z.leb_spec 0 (-1 + Z.of_nat (length l + 1))) as [_|H]; [|lia].
  destruct (Z.ltb_spec (-1 + Z.of_nat (length l + 1))
                       (Z.of_nat (length l + 1))) as [_|H]; [|lia].
  cbn [andb].
  replace (Z.to_nat (-1 + Z.of_nat (length l + 1))) with (length l + 0)%nat
    by lia.
  now rewrite lookup_app_r, Nat.add_comm, Nat.add_sub by lia.
Qed.

Lemma cut_after_last_whole (sep : Ascii.ascii) (s : string) :
  occurs sep s = false → cut_after_last sep s = (EmptyString, s).
Proof.
  induction s as [|c s IH]; str_step; [reflexivity|].
  intros [Hc Hs]%orb_false_iff. now rewrite (IH Hs), Hc.
Qed.

Lemma cut_after_last_append (sep : Ascii.ascii) (d t : string) :
  occurs sep t = false →
  cut_after_last sep (d +:+ String sep t) = (d +:+ String sep EmptyString, t).
Proof.
  intros Ht. induction d as [|c d IH]; str_step.
  - now rewrite (cut_after_last_whole sep t Ht), Ascii.eqb_refl.
  - rewrite IH. now destruct d.
Qed.

Lemma rstrip_sep (sep : Ascii.ascii) (d : string) :
  rstrip sep (d +:+ String sep EmptyString) = rstrip sep d.
Proof.
  induction d as [|c d IH]; str_step.
  - now rewrite Ascii.eqb_refl.
  - now rewrite IH.
Qed.

Lemma rstrip_whole (sep : Ascii.ascii) (d : string) :
  endswith sep d = false → rstrip sep d = d.
Proof.
  induction d as [|c d IH]; [reflexivity|].
  destruct d as [|c' d].
  - str_step. now intros ->.
  - intros H. change (endswith sep (String c' d) = false) in H.
    cbn [rstrip] in *. now rewrite (IH H).
Qed.

Lemma endswith_append (sep : Ascii.ascii) (d : string) :
  endswith sep (d +:+ String sep EmptyString) = true.
Proof.
  induction d as [|c d IH]; str_step; [apply Ascii.eqb_refl|].
  destruct d; [cbn in *; assumption | exact IH].
Qed.

(** X15.  The mask of an image.  For an image [n.e] in a directory [d], where
    the name [n] holds neither a dot nor a slash, the rest [e] no slash
    and [d] does not end in a slash, [get_mask_path] is [d/n.msk]; for a
    bare file name [n.e] it is [n.msk].  The name is cut at its first dot:
    whatever follows it, further dots included, is replaced. *)
Theorem get_mask_path_of_image (d n e : string) :
  occurs "/" n = false → occurs "." n = false → occurs "/" e = false →
  endswith "/" d = false →
  get_mask_path (d +:+ "/" +:+ n +:+ "." +:+ e) = Ok (d +:+ "/" +:+ n +:+ ".msk")
  ∧ get_mask_path (n +:+ "." +:+ e) = Ok (n +:+ ".msk").
Proof.
  intros Hn Hdot He Hd.
  assert (Hname : occurs "/" (n +:+ String "." e) = false).
  { rewrite occurs_append, Hn. cbn. exact He. }
  assert (Hstem : item 0 (str_split "." (n +:+ String "." e)) = Ok n).
  { rewrite str_split_append, (str_split_whole "." n Hdot). apply item_first. }
  unfold get_mask_path, basename, dirname. split.
  - change (d +:+ "/" +:+ n +:+ "." +:+ e)
      with (d +:+ String "/" (n +:+ String "." e)).
    rewrite (cut_after_last_append "/" d _ Hname). cbn [fst snd].
    rewrite Hstem. cbn [mbind result_bind]. f_equal.
    rewrite rstrip_sep, (rstrip_whole "/" d Hd).
    assert (Hstart : startswith "/" (n +:+ ".msk") = false).
    { destruct n as [|a n]; [reflexivity|].
      rewrite append_String. cbn [startswith]. cbn [occurs] in Hn.
      now apply orb_false_iff in Hn as [-> _]. }
    unfold join. rewrite Hstart.
    destruct d as [|c d]; [reflexivity|].
    rewrite Hd. reflexivity.
  - change (n +:+ "." +:+ e) with (n +:+ String "." e).
    rewrite (cut_after_last_whole "/" _ Hname). cbn [fst snd].
    rewrite Hstem. cbn [mbind result_bind rstrip]. f_equal.
    unfold join.
    assert (Hstart : startswith "/" (n +:+ ".msk") = false).
    { destruct n as [|a n]; [reflexivity|].
      rewrite append_String. cbn [startswith]. cbn [occurs] in Hn.
      now apply orb_false_iff in Hn as [-> _]. }
    now rewrite Hstart.
Qed.

(** X16.  The parts of a Sentinel-2 name.  For a path [d/name.e] whose name is
    made of parts joined by underscores, the parts free of underscores,
    dots and slashes, [get_sen_2_granule_id] is the name,
    [get_sen_2_image_orbit] its fifth part and [get_sen_2_image_tile] its
    sixth; a name of fewer parts raises [IndexError]. *)
Theorem sen_2_name_parts (d e : string) (comps : list string) :
  comps ≠ [] →
  Forall (fun part => occurs "_" part = false ∧ occurs "." part = false
                      ∧ occurs "/" part = false) comps →
  occurs "/" e = false →
  let image_name := d +:+ "/" +:+ str_join "_" comps +:+ "." +:+ e in
  get_sen_2_granule_id image_name = Ok (str_join "_" comps)
  ∧ get_sen_2_image_orbit image_name = item 4 comps
  ∧ get_sen_2_image_tile image_name = item 5 comps.
Proof.
  intros Hne Hall He image_name.
  set (name := str_join "_" comps) in *.
  assert (Hfree : ∀ c, c ≠ "_"%char →
            Forall (fun part => occurs c part = false) comps →
            occurs c name = false).
  { intros c Hc Hparts. unfold name. clear Hall Hne.
    induction Hparts as [|part parts Hpart Hparts IH]; [reflexivity|].
    destruct parts as [|next parts]; [exact Hpart|].
    change (str_join "_" (part :: next :: parts))
      with (part +:+ String "_" (str_join "_" (next :: parts))).
    rewrite occurs_append, Hpart. cbn [occurs orb].
    rewrite IH.
    assert (Ascii.eqb "_" c = false) as -> by (apply Ascii.eqb_neq; congruence).
    reflexivity. }
  assert (Hdot : occurs "." name = false).
  { apply Hfree; [discriminate|]. eapply Forall_impl; [exact Hall|].
    now intros part (_ & ? & _). }
  assert (Hslash : occurs "/" name = false).
  { apply Hfree; [discriminate|]. eapply Forall_impl; [exact Hall|].
    now intros part (_ & _ & ?). }
  assert (Hlast : item (-1) (str_split "/" image_name) = Ok (name +:+ String "." e)).
  { unfold image_name.
    change (d +:+ "/" +:+ name +:+ "." +:+ e)
      with (d +:+ String "/" (name +:+ String "." e)).
    rewrite str_split_append.
    rewrite (str_split_whole "/" (name +:+ String "." e)).
    - apply item_last.
    - rewrite occurs_append, Hslash. cbn. exact He. }
  assert (Hstem : item 0 (str_split "." (name +:+ String "." e)) = Ok name).
  { rewrite str_split_append, (str_split_whole "." name Hdot). apply item_first. }
  assert (Hcomps : str_split "_" name = comps).
  { apply str_split_join; [exact Hne|]. eapply Forall_impl; [exact Hall|].
    now intros part (? & _). }
  unfold get_sen_2_granule_id, get_sen_2_image_orbit, get_sen_2_image_tile.
  rewrite Hlast. cbn [mbind result_bind]. rewrite Hstem.
  cbn [mbind result_bind]. rewrite Hcomps. auto.
Qed.

(** ** The masked composite on one grid *)

Lemma zip_with3_repeat {A B C D} (f : A → B → C → D) (c : C) (l1 : list A) :
  ∀ (l2 : list B) (n : nat),
    (length l1 <= n)%nat →
    zip_with3 f l1 l2 (repeat c n) = zip_with (fun a b => f a b c) l1 l2.
Proof.
  induction l1 as [|a l1 IH]; intros [|b l2] [|n] Hn; try reflexivity;
    cbn [length] in Hn; try lia.
  cbn [repeat zip_with3 zip_with]. f_equal. apply IH. lia.
Qed.

Lemma zip_with3_ext_in {A B C D} (f g : A → B → C → D) (l1 : list A) :
  ∀ (l2 : list B) (l3 : list C),
    (∀ a b c, In a l1 → In b l2 → In c l3 → f a b c = g a b c) →
    zip_with3 f l1 l2 l3 = zip_with3 g l1 l2 l3.
Proof.
  induction l1 as [|a l1 IH]; intros [|b l2] [|c l3] H; try reflexivity.
  cbn [zip_with3]. f_equal.
  - apply H; now left.
  - apply IH. intros a' b' c' Ha Hb Hc. apply H; now right.
Qed.

Lemma zip_with3_length {A B C D} (f : A → B → C → D) (l1 : list A) :
  ∀ (l2 : list B) (l3 : list C),
    length l2 = length l1 → length l3 = length l1 →
    length (zip_with3 f l1 l2 l3) = length l1.
Proof.
  induction l1 as [|a l1 IH]; intros [|b l2] [|c l3] H2 H3;
    try discriminate; [reflexivity|].
  cbn [zip_with3 length]. f_equal. apply IH; [now injection H2 | now injection H3].
Qed.

Lemma zip_with3_Forall {A B C D} (P : D → Prop) (f : A → B → C → D)
    (l1 : list A) :
  ∀ (l2 : list B) (l3 : list C),
    (∀ a b c, In a l1 → In b l2 → In c l3 → P (f a b c)) →
    Forall P (zip_with3 f l1 l2 l3).
Proof.
  induction l1 as [|a l1 IH]; intros [|b l2] [|c l3] H; try constructor.
  - apply H; now left.
  - apply IH. intros a' b' c' Ha Hb Hc. apply H; now right.
Qed.

Lemma zip_with_Forall {A B D} (P : D → Prop) (f : A → B → D) (l1 : list A) :
  ∀ l2 : list B,
    (∀ a b, In a l1 → In b l2 → P (f a b)) →
    Forall P (zip_with f l1 l2).
Proof.
  induction l1 as [|a l1 IH]; intros [|b l2] H; try constructor.
  - apply H; now left.
  - apply IH. intros a' b' Ha Hb. apply H; now right.
Qed.

Lemma masked_over_shaped (b y x : Z) (mask : band) (below above : list band) :
  rows_ok y x mask → shaped b y x below → shaped b y x above →
  shaped b y x (masked_over mask below above).
Proof.
  intros [Hmy Hmx] [Hb Hbelow] [Ha Habove].
  assert (Hlen : length below = length above) by lia.
  unfold masked_over. split.
  - rewrite length_zip_with_l_eq by exact Hlen. exact Hb.
  - apply zip_with_Forall. intros bb ab Hbb Hab.
    apply (proj1 (List.Forall_forall _ _) Hbelow) in Hbb as [Hby Hbx].
    apply (proj1 (List.Forall_forall _ _) Habove) in Hab as [Hay Hax].
    split.
    + rewrite zip_with3_length; lia.
    + apply zip_with3_Forall. intros br ar mr Hbr Har Hmr.
      apply (proj1 (List.Forall_forall _ _) Hbx) in Hbr.
      apply (proj1 (List.Forall_forall _ _) Hax) in Har.
      apply (proj1 (List.Forall_forall _ _) Hmx) in Hmr.
      rewrite zip_with3_length; lia.
Qed.

(** Copying a whole array over another of its shape where a mask of one
    band, repeated over the bands, is not zero. *)
Lemma copyto_where_whole (b y x : Z) (dst src : list band) (mask : band) :
  0 <= b → 0 <= y → 0 <= x →
  shaped b y x dst → shaped b y x src → rows_ok y x mask →
  copyto_where (b, y, x, dst) 0 b 0 y 0 x (b, y, x, src)
               (b, y, x, repeat mask (Z.to_nat b))
  = Ok (masked_over mask dst src).
Proof.
  intros Hb Hy Hx Hdst Hsrc Hmask.
  pose proof Hdst as [Hdb Hdall]. pose proof Hsrc as [Hsb Hsall].
  pose proof Hmask as [Hmy Hmx].
  assert (Hn : (length dst <= Z.to_nat b)%nat) by lia.
  unfold copyto_where, window3, slice_len.
  rewrite !clip_inside by lia. rewrite !Z.sub_0_r, !Z.max_r by lia.
  unfold can_broadcast. rewrite !Z.eqb_refl. cbn [orb andb snd].
  rewrite (view_all b y x dst Hdst).
  rewrite stretch_same by lia.
  rewrite stretch_same by (rewrite repeat_length; lia).
  rewrite zip_with3_repeat by exact Hn.
  assert (E : zip_with
                (fun dst_band src_band =>
                   zip_with3
                     (fun dst_row src_row where_row =>
                        zip_with3 (fun d s w => if w =? 0 then d else s)
                                  dst_row (stretch (length dst_row) src_row)
                                  (stretch (length dst_row) where_row))
                     dst_band (stretch (length dst_band) src_band)
                     (stretch (length dst_band) mask))
                dst src
              = masked_over mask dst src).
  { unfold masked_over. apply zip_with_ext_in. intros db sb Hdb' Hsb'.
    apply (proj1 (List.Forall_forall _ _) Hdall) in Hdb' as [Hdy Hdx].
    apply (proj1 (List.Forall_forall _ _) Hsall) in Hsb' as [Hsy Hsx].
    rewrite !stretch_same by lia.
    apply zip_with3_ext_in. intros dr sr mr Hdr Hsr Hmr.
    apply (proj1 (List.Forall_forall _ _) Hdx) in Hdr.
    apply (proj1 (List.Forall_forall _ _) Hsx) in Hsr.
    apply (proj1 (List.Forall_forall _ _) Hmx) in Hmr.
    rewrite !stretch_same by lia. reflexivity. }
  rewrite E. f_equal. apply (write_all b y x); [exact Hdst|].
  now apply masked_over_shaped.
Qed.

(** Negating a mask twice leaves what the copy reads of it. *)
Lemma masked_over_not_not (mask : band) (below above : list band) :
  masked_over
    (map (map (fun v => if (if v =? 0 then 1 else 0) =? 0 then 1 else 0)) mask)
    below above
  = masked_over mask below above.
Proof.
  unfold masked_over. apply zip_with_ext_in. intros bb ab _ _.
  revert bb ab. induction mask as [|mr mask IH]; intros [|br bb] [|ar ab];
    try reflexivity.
  cbn [map zip_with3]. f_equal; [|apply IH].
  clear IH. revert br ar. induction mr as [|w mr IHr]; intros [|d br] [|s ar];
    try reflexivity.
  cbn [map zip_with3]. f_equal; [|apply IHr].
  now destruct (w =? 0).
Qed.

(** A well-formed mask of one band. *)
Lemma mask_band (m : Dataset) :
  well_formed m → RasterCount m = 1 →
  ∃ mb, pixels m = [mb] ∧ rows_ok (RasterYSize m) (RasterXSize m) mb.
Proof.
  intros (_ & _ & _ & Hlen & Hall) Hone. rewrite Hone in Hlen.
  destruct (pixels m) as [|mb [|mb' rest]]; try (cbn in Hlen; lia).
  exists mb. split; [reflexivity|]. now apply Forall_cons in Hall as [? _].
Qed.

(** The masked array of a raster and a mask of one band on its grid, as
    the copy reads them: the array of the raster with its first axis,
    and the mask repeated over the bands. *)
Lemma get_masked_array_on_grid (fs : files) (r m : Dataset) (mask_path : string)
    (mb : band) :
  fs !! mask_path = Some m →
  well_formed r →
  RasterCount m = 1 → pixels m = [mb] →
  RasterXSize m = RasterXSize r → RasterYSize m = RasterYSize r →
  ∃ data mask,
    get_masked_array fs r mask_path = Ok (data, mask)
    ∧ expand_if_2d data
      = (RasterCount r, RasterYSize r, RasterXSize r, pixels r)
    ∧ expand_if_2d (logical_not mask)
      = (RasterCount r, RasterYSize r, RasterXSize r,
         repeat (map (map (fun v => if (if v =? 0 then 1 else 0) =? 0
                                    then 1 else 0)) mb)
                (Z.to_nat (RasterCount r))).
Proof.
  intros Hfile Hr Hone Hpix EX EY.
  pose proof (expand_well_formed r Hr) as Hexp.
  unfold get_masked_array, gdal_Open. rewrite Hfile.
  cbn [mbind result_bind].
  unfold GetVirtualMemArray in *. rewrite Hone, Hpix, EX, EY.
  cbn [Z.eqb Pos.eqb hd].
  destruct (Z.eqb_spec (RasterCount r) 1) as [E|_].
  - cbn [logical_not]. unfold ma_array. cbn [shape].
    rewrite bool_decide_eq_true_2 by reflexivity.
    eexists _, _. split; [reflexivity|]. split; [exact Hexp|].
    cbn [logical_not expand_if_2d]. rewrite E.
    change (Z.to_nat 1) with 1%nat. cbn [repeat]. do 2 f_equal.
    rewrite map_map. apply map_ext. intros row. now rewrite map_map.
  - unfold project_array. cbn [logical_not]. unfold ma_array. cbn [shape].
    rewrite bool_decide_eq_true_2 by reflexivity.
    eexists _, _. split; [reflexivity|]. split; [exact Hexp|].
    cbn [logical_not expand_if_2d]. rewrite !map_repeat. do 2 f_equal.
    rewrite map_map. apply map_ext. intros row. now rewrite map_map.
Qed.

Lemma coincide_trans (a b c : Dataset) :
  coincide a b → coincide b c → coincide a c.
Proof.
  intros (A0 & A1 & A3 & A5 & AX & AY) (B0 & B1 & B3 & B5 & BX & BY).
  unfold coincide. rewrite B0, B1, B3, B5, BX, BY. repeat split; assumption.
Qed.

Section Composite.
Variable first : Dataset.
Variable f : rect.
Variable composite_out_path : string.
Hypothesis width_pos : (0 < gt_1 (GetGeoTransform first))%Q.
Hypothesis height_neg : (gt_5 (GetGeoTransform first) < 0)%Q.
Hypothesis first_ok : well_formed first.
Hypothesis first_foot : foot_of first f.

(** The loop of [composite_images_with_mask] on rasters of one grid and
    one band count, each with a mask of one band on that grid: each raster
    is laid over the composite of those before it wherever its mask is
    not zero. *)
Lemma composite_loop_on_grid (rasters : list Dataset) :
  ∀ (paths mask_paths : list string) (masks : list Dataset)
    (seen : list string) (cur : Dataset) (fs : files),
    Forall2 (fun p mp => get_mask_path p = Ok mp) paths mask_paths →
    Forall2 (fun mp m => fs !! mp = Some m) mask_paths masks →
    Forall (fun mp => mp ≠ composite_out_path) mask_paths →
    length paths = length rasters →
    Forall well_formed rasters →
    Forall (fun r => coincide first r ∧ RasterCount r = RasterCount first)
           rasters →
    Forall (fun m => well_formed m ∧ RasterCount m = 1 ∧ coincide first m)
           masks →
    coincide first cur → RasterCount cur = RasterCount first →
    shaped (RasterCount first) (RasterYSize first) (RasterXSize first)
           (pixels cur) →
    composite_loop composite_out_path (zip paths rasters) cur seen
                   (<[composite_out_path := cur]> fs)
    = (Ok (seen ++ mask_paths),
       <[composite_out_path :=
           set_pixels cur
             (fold_left (fun below rm =>
                           masked_over (hd [] (pixels (snd rm))) below
                                       (pixels (fst rm)))
                        (zip rasters masks) (pixels cur))]> fs).
Proof using width_pos height_neg first_ok first_foot.
  induction rasters as [|r rasters IH];
    intros paths mask_paths masks seen cur fs Hmp Hmf Hout Hlen Hok Hgrid
           Hmasks Hcur HB Hshape.
  - destruct paths; [|discriminate].
    inversion Hmp; subst. inversion Hmf; subst.
    cbn [zip zip_with composite_loop fold_left]. unfold mret, io_ret.
    now rewrite app_nil_r, set_pixels_same.
  - destruct paths as [|p paths]; [discriminate|].
    inversion Hmp as [|? mp ? mps Hp Hmp']; subst.
    inversion Hmf as [|? m ? ms Hm Hmf']; subst.
    apply Forall_cons in Hout as [Hne Hout].
    apply Forall_cons in Hok as [Hr Hok].
    apply Forall_cons in Hgrid as [[Hrg Hrb] Hgrid].
    apply Forall_cons in Hmasks as [(Hmok & Hmone & Hmg) Hmasks].
    pose proof first_ok as (HX & HY & HB1 & _).
    pose proof Hrg as (_ & _ & _ & _ & EX & EY).
    pose proof Hmg as (_ & _ & _ & _ & MX & MY).
    pose proof Hcur as (_ & _ & _ & _ & CX & CY).
    destruct (mask_band m Hmok Hmone) as (mb & Hmpix & Hmb).
    rewrite MX, MY in Hmb.
    assert (Hcur_ok : well_formed cur).
    { unfold well_formed. rewrite CX, CY, HB. auto. }
    destruct (get_masked_array_on_grid (<[composite_out_path := cur]> fs)
                r m mp mb) as (data & mask & Hget & Hdata & Hwhere);
      try assumption; try congruence.
    { rewrite lookup_insert_ne by congruence. exact Hm. }
    cbn [zip zip_with composite_loop].
    rewrite (expand_well_formed cur Hcur_ok).
    rewrite (window_of_bounds_on_grid first f width_pos height_neg first_ok
               first_foot cur r Hcur Hrg).
    cbn [mbind result_bind]. rewrite Hp. cbn [mbind result_bind].
    rewrite Hget. cbn [mbind result_bind fst].
    rewrite Hdata, Hwhere, HB, CX, CY, Hrb, EX, EY.
    pose proof Hr as (_ & _ & _ & Hrshape). rewrite Hrb, EX, EY in Hrshape.
    rewrite (copyto_where_whole _ _ _ (pixels cur) (pixels r)); try lia;
      try assumption.
    2:{ destruct Hmb as [Hmy Hmx]. split; [now rewrite length_map|].
        apply Forall_map. eapply Forall_impl; [exact Hmx|].
        intros row Hrow. cbn beta. now rewrite length_map. }
    cbn [mbind result_bind].
    rewrite masked_over_not_not.
    rewrite insert_insert_eq.
    rewrite (IH paths mps ms (seen ++ [mp])); try assumption.
    + rewrite <- app_assoc. cbn [app fold_left fst snd set_pixels pixels].
      rewrite Hmpix. reflexivity.
    + now injection Hlen.
    + cbn [set_pixels pixels]. now apply masked_over_shaped.
Qed.

(** The loop of [combine_masks] on masks of one band on one grid, in the
    mode ["union"] with the combination ["or"]: every turn succeeds. *)
Lemma combine_loop_on_grid (poly : polygon) (out_mask : Dataset)
    (masks : list Dataset) :
  Forall (fun m => well_formed m ∧ RasterCount m = 1 ∧ coincide first m)
         masks →
  coincide first out_mask → RasterCount out_mask = 1 →
  combine_loop "or" "union" poly masks out_mask = Ok tt.
Proof using width_pos height_neg first_ok first_foot.
  intros Hmasks Hout Hone.
  induction Hmasks as [|m masks (Hmok & Hmone & Hmg) _ IH]; [reflexivity|].
  pose proof first_ok as (HX & HY & _).
  cbn [combine_loop]. cbn [String.eqb Ascii.eqb Bool.eqb].
  rewrite (window_of_bounds_on_grid first f width_pos height_neg first_ok
             first_foot out_mask m Hout Hmg).
  rewrite (window_of_bounds_on_grid first f width_pos height_neg first_ok
             first_foot m m Hmg Hmg).
  cbn [mbind result_bind].
  unfold GetVirtualMemArray. rewrite Hone, Hmone.
  cbn [Z.eqb Pos.eqb window2 bitwise].
  destruct Hout as (_ & _ & _ & _ & OX & OY).
  destruct Hmg as (_ & _ & _ & _ & MX & MY).
  rewrite OX, OY, MX, MY.
  unfold axes_agree. rewrite !Z.eqb_refl. cbn [orb andb mbind result_bind].
  exact IH.
Qed.
End Composite.

Lemma fill_blank (d : Dataset) (b y x v : Z) :
  pixels d = blank b y x →
  pixels (fill d v)
  = repeat (repeat (repeat v (Z.to_nat x)) (Z.to_nat y)) (Z.to_nat b).
Proof.
  intros H. unfold fill, blank in *. cbn [set_pixels pixels]. rewrite H.
  now rewrite !map_repeat.
Qed.

(** [combine_masks] with ["or"] and ["union"] on masks of one band on one
    grid returns, and the mask it writes is all ones. *)
Lemma combine_masks_on_grid (first : Dataset) (mask_paths : list string)
    (masks : list Dataset) (out_path : string) (fs : files) :
  (0 < gt_1 (GetGeoTransform first))%Q → (gt_5 (GetGeoTransform first) < 0)%Q →
  well_formed first →
  masks ≠ [] →
  Forall2 (fun mp m => fs !! mp = Some m) mask_paths masks →
  Forall (fun m => well_formed m ∧ RasterCount m = 1 ∧ coincide first m)
         masks →
  ∃ aggregate,
    combine_masks mask_paths out_path "or" "union" fs
    = (Ok out_path, <[out_path := aggregate]> fs)
    ∧ pixels aggregate
      = [repeat (repeat 1 (Z.to_nat (RasterXSize first)))
                (Z.to_nat (RasterYSize first))]
    ∧ RasterCount aggregate = 1
    ∧ coincide first aggregate.
Proof.
  intros Hw Hh Hfirst Hne Hfiles Hmasks.
  pose proof Hfirst as (HX & HY & _).
  destruct (foot_of_bounds first Hw Hh ltac:(lia) ltac:(lia))
    as (f & _ & Hfoot).
  destruct (foot_ordered first f Hw Hh ltac:(lia) ltac:(lia) Hfoot) as [Ox Oy].
  assert (Hgrid : Forall (coincide first) masks).
  { eapply Forall_impl; [exact Hmasks|]. now intros m (_ & _ & ?). }
  destruct (combined_covers f masks "union" Ox Oy ltac:(now right) Hne)
    as (p & Hpoly & Hcov).
  { apply (bounds_cover first); try assumption; lia. }
  destruct masks as [|m1 ms]; [congruence|].
  pose proof Hmasks as Hm1. apply Forall_cons in Hm1 as [(Hm1ok & Hm1one & Hm1g) _].
  pose proof Hm1g as (E0 & E1 & E3 & E5 & EX & EY).
  destruct (create_whole m1 f p 1 (GetProjection m1) GDT_Byte)
    as (o & Hcreate & Hco & HoB & _ & _ & Hopix);
    [now rewrite E1 | now rewrite E5 | lia | lia
     | now apply (foot_of_coincide first) | exact Hcov |].
  assert (Hfo : coincide first o) by now apply (coincide_trans first m1).
  exists (fill o 1). split; [|split; [|split]].
  - unfold combine_masks, mbind, io_bind, lift, flush, mret, io_ret.
    rewrite (open_all_found _ _ _ Hfiles). rewrite Hpoly. cbn [first_of].
    rewrite Hcreate.
    rewrite (combine_loop_on_grid first f Hw Hh Hfirst Hfoot); try assumption.
    now rewrite insert_insert_eq.
  - rewrite (fill_blank o 1 (RasterYSize m1) (RasterXSize m1) 1 Hopix).
    now rewrite EX, EY.
  - exact HoB.
  - destruct Hfo as (? & ? & ? & ? & ? & ?). unfold coincide. cbn. auto 10.
Qed.

Lemma found_after_insert (paths : list string) (ds : list Dataset)
    (out : string) (d : Dataset) (fs : files) :
  Forall2 (fun p m => fs !! p = Some m) paths ds →
  Forall (fun p => p ≠ out) paths →
  Forall2 (fun p m => <[out := d]> fs !! p = Some m) paths ds.
Proof.
  induction 1 as [|p m paths ds Hm _ IH]; intros Hout; constructor.
  - apply Forall_cons in Hout as [Hne _].
    rewrite lookup_insert_ne by congruence. exact Hm.
  - apply Forall_cons in Hout as [_ Hout]. now apply IH.
Qed.


(** ** The window of a footprint *)


(** ** Rasters on one lattice of pixels *)

Lemma lattice_le (o s : Q) (a b : Z) :
  (0 < s)%Q → a <= b → (o + inject_Z a * s <= o + inject_Z b * s)%Q.
Proof.
  intros Hs Hab. apply Qplus_le_r. apply Qmult_le_compat_r; [|lra].
  now rewrite <- Zle_Qle.
Qed.

Lemma lattice_ge (o s : Q) (a b : Z) :
  (s < 0)%Q → a <= b → (o + inject_Z b * s <= o + inject_Z a * s)%Q.
Proof.
  intros Hs Hab.
  pose proof (lattice_le o (- s) a b ltac:(lra) Hab). lra.
Qed.

Lemma lattice_max (o s x y : Q) (a b : Z) :
  (0 < s)%Q → (x == o + inject_Z a * s)%Q → (y == o + inject_Z b * s)%Q →
  (Qmax x y == o + inject_Z (Z.max a b) * s)%Q
  ∧ (Qmin x y == o + inject_Z (Z.min a b) * s)%Q.
Proof.
  intros Hs Hx Hy. destruct (Z.le_ge_cases a b) as [H|H].
  - pose proof (lattice_le o s a b Hs H).
    rewrite Z.max_r, Z.min_l by lia. split.
    + rewrite Q.max_r; lra.
    + rewrite Q.min_l; lra.
  - pose proof (lattice_le o s b a Hs H).
    rewrite Z.max_l, Z.min_r by lia. split.
    + rewrite Q.max_l; lra.
    + rewrite Q.min_r; lra.
Qed.

Lemma lattice_max_neg (o s x y : Q) (a b : Z) :
  (s < 0)%Q → (x == o + inject_Z a * s)%Q → (y == o + inject_Z b * s)%Q →
  (Qmax x y == o + inject_Z (Z.min a b) * s)%Q
  ∧ (Qmin x y == o + inject_Z (Z.max a b) * s)%Q.
Proof.
  intros Hs Hx Hy. destruct (Z.le_ge_cases a b) as [H|H].
  - pose proof (lattice_ge o s a b Hs H).
    rewrite Z.max_r, Z.min_l by lia. split.
    + rewrite Q.max_l; lra.
    + rewrite Q.min_r; lra.
  - pose proof (lattice_ge o s b a Hs H).
    rewrite Z.max_l, Z.min_r by lia. split.
    + rewrite Q.max_r; lra.
    + rewrite Q.min_l; lra.
Qed.

(** The window, in a raster, of a rectangle whose sides lie on lines of
    its grid, inside the raster. *)
Lemma window_on_lattice (r : Dataset) (q : rect) (i0 i1 j0 j1 : Z) :
  let gt := GetGeoTransform r in
  (0 < gt_1 gt)%Q → (gt_5 gt < 0)%Q →
  0 <= i0 → i0 < i1 → i1 <= RasterXSize r →
  0 <= j0 → j0 < j1 → j1 <= RasterYSize r →
  (x_lo q == gt_0 gt + inject_Z i0 * gt_1 gt)%Q →
  (x_hi q == gt_0 gt + inject_Z i1 * gt_1 gt)%Q →
  (y_hi q == gt_3 gt + inject_Z j0 * gt_5 gt)%Q →
  (y_lo q == gt_3 gt + inject_Z j1 * gt_5 gt)%Q →
  pixel_bounds_from_polygon r [q] = Ok (i0, i1, j0, j1).
Proof.
  intros gt Hw Hh Hi0 Hi Hi1 Hj0 Hj Hj1 Q1 Q2 Q3 Q4.
  destruct (footprint_sides r Hw Hh ltac:(lia) ltac:(lia))
    as (f & Hf & F1 & F2 & F3 & F4).
  fold gt in F1, F2, F3, F4.
  assert (F1' : (x_lo f == gt_0 gt + inject_Z 0 * gt_1 gt)%Q)
    by (rewrite F1; ring).
  assert (F2' : (x_hi f == gt_0 gt + inject_Z (RasterXSize r) * gt_1 gt)%Q)
    by (rewrite F2; ring).
  assert (F3' : (y_lo f == gt_3 gt + inject_Z (RasterYSize r) * gt_5 gt)%Q)
    by (rewrite F3; ring).
  assert (F4' : (y_hi f == gt_3 gt + inject_Z 0 * gt_5 gt)%Q)
    by (rewrite F4; ring).
  destruct (lattice_max _ _ _ _ _ _ Hw F1' Q1) as [M1 _].
  destruct (lattice_max _ _ _ _ _ _ Hw F2' Q2) as [_ M2].
  destruct (lattice_max_neg _ _ _ _ _ _ Hh F3' Q4) as [M3 _].
  destruct (lattice_max_neg _ _ _ _ _ _ Hh F4' Q3) as [_ M4].
  rewrite Z.max_r in M1 by lia. rewrite Z.min_r in M2 by lia.
  rewrite Z.min_r in M3 by lia. rewrite Z.max_r in M4 by lia.
  pose proof (lattice_le (gt_0 gt) (gt_1 gt) i0 i1 Hw ltac:(lia)) as Lx.
  pose proof (lattice_ge (gt_3 gt) (gt_5 gt) j0 j1 Hh ltac:(lia)) as Ly.
  assert (Hne : nonempty (rect_inter f q) = true).
  { unfold nonempty. apply andb_true_iff.
    split; apply Qle_bool_iff; cbn; lra. }
  rewrite (pixel_bounds_of_envelope r Hw Hh [q]
             (Qmax (x_lo f) (x_lo q)) (Qmin (x_hi f) (x_hi q))
             (Qmax (y_lo f) (y_lo q)) (Qmin (y_hi f) (y_hi q))).
  - unfold column_of, row_of. fold gt.
    rewrite (floor_whole _ _ _ i0), (floor_whole _ _ _ i1),
            (floor_whole _ _ _ j0), (floor_whole _ _ _ j1);
      try lra; try reflexivity; assumption.
  - rewrite Hf. unfold Intersection. cbn [flat_map app]. now rewrite Hne.
  - lra.
  - lra.
Qed.

(** The image created from a polygon whose envelope has its sides on
    lines of a grid: as many columns and rows as lie between them. *)
Lemma create_on_lattice (p : polygon) (a b c e o_x o_y w h : Q)
    (i0 i1 j0 j1 bands : Z) (projection : string) (datatype : GDALDataType) :
  GetEnvelope p = (a, b, c, e) →
  (0 < w)%Q → (h < 0)%Q → i0 < i1 → j0 < j1 →
  (a == o_x + inject_Z i0 * w)%Q → (b == o_x + inject_Z i1 * w)%Q →
  (e == o_y + inject_Z j0 * h)%Q → (c == o_y + inject_Z j1 * h)%Q →
  create_new_image_from_polygon p w (h * -1)%Q bands projection datatype
  = Ok {| RasterXSize := i1 - i0; RasterYSize := j1 - j0;
          RasterCount := bands;
          GetGeoTransform := GeoTransform a w 0%Q e 0%Q (h * -1 * -1)%Q;
          GetProjection := projection; DataType := datatype;
          pixels := blank bands (j1 - j0) (i1 - i0) |}.
Proof.
  intros Henv Hw Hh Hi Hj Q1 Q2 Q3 Q4.
  unfold create_new_image_from_polygon. rewrite Henv. cbn [r_div Q_arith].
  destruct (Qeq_bool w 0) eqn:Ex.
  { apply Qeq_bool_iff in Ex. lra. }
  destruct (Qeq_bool (h * -1) 0) eqn:Ey.
  { apply Qeq_bool_iff in Ey. lra. }
  cbn [mbind result_bind].
  rewrite (int_of_Q_whole _ (i1 - i0)), (int_of_Q_whole _ (j1 - j0)).
  - unfold driver_Create.
    destruct (Z.ltb_spec (i1 - i0) 1); [lia|].
    destruct (Z.ltb_spec (j1 - j0) 1); [lia|].
    reflexivity.
  - rewrite Q3, Q4. unfold Zminus. rewrite inject_Z_plus, inject_Z_opp.
    field. lra.
  - rewrite Q1, Q2. unfold Zminus. rewrite inject_Z_plus, inject_Z_opp.
    field. lra.
Qed.

Lemma crop_shaped (b y x y0 y1 x0 x1 : Z) (a : list band) :
  shaped b y x a → 0 <= y0 → y0 <= y1 → y1 <= y → 0 <= x0 → x0 <= x1 → x1 <= x →
  shaped b (y1 - y0) (x1 - x0) (crop y0 y1 x0 x1 a).
Proof.
  intros [Hb Hall] Hy0 Hy Hy1 Hx0 Hx Hx1. unfold crop. split.
  - now rewrite length_map.
  - apply Forall_map. eapply Forall_impl; [exact Hall|].
    intros band [Hby Hbx]. cbn beta.
    rewrite slice_inside by lia. split.
    + rewrite length_map, length_take, length_drop. lia.
    + apply Forall_map, Forall_take, Forall_drop.
      eapply Forall_impl; [exact Hbx|]. intros row Hrow. cbn beta in *.
      rewrite slice_inside by lia. rewrite length_take, length_drop. lia.
Qed.

(** One turn of the loop of [stack_images], given the windows: the part of
    the raster in its window goes to the next bands of the output. *)
Lemma stack_turn (combined : polygon) (rest : list Dataset) (r cur : Dataset)
    (L x0 x1 y0 y1 : Z) :
  well_formed r →
  RasterCount cur ≠ 1 →
  shaped (RasterCount cur) (RasterYSize cur) (RasterXSize cur) (pixels cur) →
  pixel_bounds_from_polygon cur combined
  = Ok (0, RasterXSize cur, 0, RasterYSize cur) →
  pixel_bounds_from_polygon r combined = Ok (x0, x1, y0, y1) →
  0 <= x0 → x1 <= RasterXSize r → x1 - x0 = RasterXSize cur →
  0 <= y0 → y1 <= RasterYSize r → y1 - y0 = RasterYSize cur →
  0 <= RasterXSize cur → 0 <= RasterYSize cur →
  0 <= L → L + RasterCount r <= RasterCount cur →
  stack_loop combined (r :: rest) L cur
  = stack_loop combined rest (L + RasterCount r)
      (set_pixels cur
         (firstn (Z.to_nat L) (pixels cur)
          ++ crop y0 y1 x0 x1 (pixels r)
          ++ skipn (Z.to_nat (L + RasterCount r)) (pixels cur))).
Proof.
  intros Hr Hmany Hshape Hwcur Hwr Hx0 Hx1 HX Hy0 Hy1 HY HXc HYc HL Hroom.
  pose proof Hr as (RX & RY & RB & Hrshape).
  cbn [stack_loop]. rewrite Hwcur, Hwr. cbn [mbind result_bind].
  rewrite (expand_well_formed r Hr).
  unfold GetVirtualMemArray.
  destruct (Z.eqb_spec (RasterCount cur) 1) as [|_]; [contradiction|].
  cbn [three_axes mbind result_bind].
  assert (Hcrop : shaped (RasterCount r) (RasterYSize cur) (RasterXSize cur)
                         (crop y0 y1 x0 x1 (pixels r))).
  { rewrite <- HX, <- HY. apply (crop_shaped _ (RasterYSize r) (RasterXSize r));
      try assumption; lia. }
  assert (Hview : window3 (RasterCount r, RasterYSize r, RasterXSize r, pixels r)
                    0 (RasterCount r) y0 y1 x0 x1
                  = (RasterCount r, RasterYSize cur, RasterXSize cur,
                     crop y0 y1 x0 x1 (pixels r))).
  { unfold window3, slice_len. rewrite !clip_inside by lia.
    rewrite Z.sub_0_r, !Z.max_r by lia. rewrite HX, HY.
    assert (E : slice 0 (RasterCount r) (pixels r) = pixels r).
    { destruct Hrshape as [Hlen _]. rewrite <- Hlen. apply slice_all. }
    now rewrite E. }
  rewrite Hview.
  rewrite (copyto_bands (fun _ => true) _ _ (RasterCount cur) (RasterCount r) L
             (pixels cur) (crop y0 y1 x0 x1 (pixels r))); try assumption;
    try lia.
  rewrite overlay_all; [reflexivity | reflexivity |].
  apply (shaped_alike (RasterCount r) (RasterYSize cur) (RasterXSize cur));
    [|exact Hcrop].
  destruct Hshape as [Hlen Hall]. split.
  - rewrite length_take, length_drop. lia.
  - apply Forall_take, Forall_drop. exact Hall.
Qed.


(** ** Mosaics of rasters on one lattice of pixels *)

Section CopyInset.
Variable where_ : Z → bool.
Variables Y X y0 y1 x0 x1 : Z.
Hypothesis rows_in : 0 <= y0 ∧ y0 <= y1 ∧ y1 <= Y.
Hypothesis cols_in : 0 <= x0 ∧ x0 <= x1 ∧ x1 <= X.

Lemma inset_row_written (row patch : list Z) :
  Z.of_nat (length row) = X → Z.of_nat (length patch) = x1 - x0 →
  slice_write x0 x1
    (zip_with (fun d s => if where_ s then s else d)
              (slice x0 x1 row) (stretch (length (slice x0 x1 row)) patch))
    row
  = inset_row where_ (Z.to_nat x0) row patch.
Proof using cols_in.
  intros Hrow Hpatch. unfold inset_row.
  rewrite slice_write_inside, slice_inside by lia.
  rewrite stretch_same by (rewrite length_take, length_drop; lia).
  replace (Z.to_nat (x1 - x0)) with (length patch) by lia.
  replace (Z.to_nat x1) with (Z.to_nat x0 + length patch)%nat by lia.
  reflexivity.
Qed.

Lemma inset_rows_written (rows patch : list (list Z)) :
  Forall (fun row : list Z => Z.of_nat (length row) = X) rows →
  length rows = length patch →
  Forall (fun row : list Z => Z.of_nat (length row) = x1 - x0) patch →
  zip_with (fun row new_row => slice_write x0 x1 new_row row) rows
    (zip_with (fun dst_row src_row =>
                 zip_with (fun d s => if where_ s then s else d)
                          dst_row (stretch (length dst_row) src_row))
              (map (slice x0 x1) rows) patch)
  = zip_with (inset_row where_ (Z.to_nat x0)) rows patch.
Proof using cols_in.
  intros Hrows. revert patch.
  induction Hrows as [|row rows Hrow _ IH]; intros [|prow patch] Hlen Hpx;
    try discriminate; [reflexivity|].
  apply Forall_cons in Hpx as [Hprow Hpx].
  cbn [map zip_with]. f_equal.
  - now apply inset_row_written.
  - apply IH; [now injection Hlen | exact Hpx].
Qed.

Lemma inset_band_written (band patch : band) :
  rows_ok Y X band → rows_ok (y1 - y0) (x1 - x0) patch →
  slice_write y0 y1
    (zip_with (fun row new_row => slice_write x0 x1 new_row row)
       (slice y0 y1 band)
       (zip_with (fun dst_row src_row =>
                    zip_with (fun d s => if where_ s then s else d)
                             dst_row (stretch (length dst_row) src_row))
                 (map (slice x0 x1) (slice y0 y1 band))
                 (stretch (length (map (slice x0 x1) (slice y0 y1 band)))
                          patch)))
    band
  = inset_band where_ (Z.to_nat y0) (Z.to_nat x0) band patch.
Proof using rows_in cols_in.
  intros [Hby Hbx] [Hpy Hpx]. unfold inset_band.
  rewrite slice_write_inside by lia. rewrite slice_inside by lia.
  replace (Z.to_nat (y1 - y0)) with (length patch) by lia.
  replace (Z.to_nat y1) with (Z.to_nat y0 + length patch)%nat by lia.
  set (rows := firstn (length patch) (skipn (Z.to_nat y0) band)).
  assert (Hrows : Forall (fun row : list Z => Z.of_nat (length row) = X) rows)
    by (apply Forall_take, Forall_drop; exact Hbx).
  assert (Hlen : length rows = length patch)
    by (unfold rows; rewrite length_take, length_drop; lia).
  rewrite stretch_same by (now rewrite length_map).
  now rewrite inset_rows_written.
Qed.

(** Copying an array over a window of another that spans all bands. *)
Lemma copyto_inset (B : Z) (dst src : list band) :
  0 <= B →
  shaped B Y X dst → shaped B (y1 - y0) (x1 - x0) src →
  copyto (B, Y, X, dst) 0 B y0 y1 x0 x1 (B, y1 - y0, x1 - x0, src) where_
  = Ok (inset where_ (Z.to_nat y0) (Z.to_nat x0) dst src).
Proof using rows_in cols_in.
  intros HB [HdB Hdst] [HsB Hsrc].
  assert (Hlen : length dst = length src) by lia.
  assert (E : slice 0 B dst = dst) by (rewrite <- HdB; apply slice_all).
  assert (W : ∀ new, slice_write 0 B new dst = new)
    by (intros new; rewrite <- HdB; apply slice_write_all).
  unfold copyto, window3, slice_len.
  rewrite !clip_inside by lia. rewrite Z.sub_0_r, !Z.max_r by lia.
  unfold can_broadcast. rewrite !Z.eqb_refl. cbn [orb andb snd].
  rewrite E. unfold write_window3. rewrite E, W.
  rewrite stretch_same by (rewrite length_map; now symmetry).
  f_equal. unfold inset.
  clear - Hlen Hdst Hsrc rows_in cols_in. revert src Hlen Hsrc.
  induction Hdst as [|band dst Hband _ IH]; intros [|pband src] Hlen Hsrc;
    try discriminate; [reflexivity|].
  apply Forall_cons in Hsrc as [Hpband Hsrc].
  cbn [map zip_with]. f_equal.
  - now apply inset_band_written.
  - apply IH; [now injection Hlen | exact Hsrc].
Qed.
End CopyInset.

Lemma inset_row_length (where_ : Z → bool) (x0 : nat) (row patch : list Z) :
  (x0 + length patch <= length row)%nat →
  length (inset_row where_ x0 row patch) = length row.
Proof.
  intros H. unfold inset_row.
  rewrite !length_app, length_zip_with, !length_take, !length_drop. lia.
Qed.

Lemma inset_shaped (where_ : Z → bool) (B Y X yp xp : Z) (y0 x0 : nat)
    (below patch : list band) :
  shaped B Y X below → shaped B yp xp patch →
  Z.of_nat y0 + yp <= Y → Z.of_nat x0 + xp <= X →
  shaped B Y X (inset where_ y0 x0 below patch).
Proof.
  intros [Hb Hbelow] [Hp Hpatch] Hy Hx.
  assert (Hlen : length below = length patch) by lia.
  unfold inset. split.
  - rewrite length_zip_with_l_eq by exact Hlen. exact Hb.
  - apply zip_with_Forall. intros band pband Hband Hpband.
    apply (proj1 (List.Forall_forall _ _) Hbelow) in Hband as [Hby Hbx].
    apply (proj1 (List.Forall_forall _ _) Hpatch) in Hpband as [Hpy Hpx].
    unfold inset_band. split.
    + rewrite !length_app, length_zip_with, !length_take, !length_drop. lia.
    + apply Forall_app. split; [apply Forall_take; exact Hbx|].
      apply Forall_app. split; [|apply Forall_drop; exact Hbx].
      apply zip_with_Forall. intros row prow Hrow Hprow.
      assert (Hrow' : Z.of_nat (length row) = X).
      { assert (Hin : Forall (fun row : list Z => Z.of_nat (length row) = X)
                        (firstn (length pband) (skipn y0 band)))
          by (apply Forall_take, Forall_drop; exact Hbx).
        exact (proj1 (List.Forall_forall _ _) Hin row Hrow). }
      apply (proj1 (List.Forall_forall _ _) Hpx) in Hprow.
      rewrite inset_row_length; lia.
Qed.

(** One turn of the loop of [mosaic_images], given the window of the
    raster in the output: the raster is laid into the output there. *)
Lemma mosaic_turn (nodata : Z) (rest : list Dataset) (r cur : Dataset)
    (x0 x1 y0 y1 : Z) :
  well_formed r →
  RasterCount cur ≠ 1 → RasterCount r = RasterCount cur →
  shaped (RasterCount cur) (RasterYSize cur) (RasterXSize cur) (pixels cur) →
  pixel_bounds_from_polygon cur (get_raster_bounds r) = Ok (x0, x1, y0, y1) →
  0 <= x0 → x1 <= RasterXSize cur → x1 - x0 = RasterXSize r →
  0 <= y0 → y1 <= RasterYSize cur → y1 - y0 = RasterYSize r →
  mosaic_loop nodata (r :: rest) cur
  = mosaic_loop nodata rest
      (set_pixels cur
         (inset (fun v => negb (v =? nodata)) (Z.to_nat y0) (Z.to_nat x0)
                (pixels cur) (pixels r))).
Proof.
  intros Hr Hmany HB Hshape Hwin Hx0 Hx1 HX Hy0 Hy1 HY.
  pose proof Hr as (RX & RY & RB & Hrshape).
  cbn [mosaic_loop]. rewrite (expand_well_formed r Hr), Hwin.
  cbn [mbind result_bind]. unfold GetVirtualMemArray.
  destruct (Z.eqb_spec (RasterCount cur) 1) as [|_]; [contradiction|].
  cbn [three_axes mbind result_bind].
  rewrite HB, <- HX, <- HY in *.
  rewrite (copyto_inset (fun v => negb (v =? nodata)) (RasterYSize cur)
             (RasterXSize cur) y0 y1 x0 x1); try assumption; try lia.
  reflexivity.
Qed.


(** ** Worked runs *)

(** One chunk against seven, on nine samples (a remainder of two) and on
    fourteen (none): the same class maps, nodata where a band is zero. *)
Example classify_one_chunk_against_seven :
  pixels <$> snd (classify_image 100 first_band_model "nine.tif" "class.tif"
                    (Some 1) 0 samples_on_file) !! "class.tif"
  = Some [[[11; 12; 13]; [14; 0; 16]; [0; 18; 19]]]
  ∧ pixels <$> snd (classify_image 100 first_band_model "nine.tif" "class.tif"
                      (Some 7) 0 samples_on_file) !! "class.tif"
    = Some [[[11; 12; 13]; [14; 0; 16]; [0; 18; 19]]]
  ∧ pixels <$> snd (classify_image 100 first_band_model "fourteen.tif"
                      "class.tif" (Some 1) 0 samples_on_file) !! "class.tif"
    = Some [[[11; 12; 13; 14; 15; 16; 17]; [18; 19; 0; 12; 13; 14; 15]]]
  ∧ pixels <$> snd (classify_image 100 first_band_model "fourteen.tif"
                      "class.tif" (Some 7) 0 samples_on_file) !! "class.tif"
    = Some [[[11; 12; 13; 14; 15; 16; 17]; [18; 19; 0; 12; 13; 14; 15]]].
Proof. vm_compute. repeat split; reflexivity. Qed.


(** C2, where the code falls short of it.  With the nodata value 5 and a
    raster that holds no zero, the quick check for a zero finds nothing to
    mask: the sample whose first band is 5 is classified like any other
    (label 15) where the claim has nodata (5). *)
Theorem classify_image_checks_for_zero_not_nodata :
  fst (classify_image 100 first_band_model "five.tif" "class.tif" (Some 1) 5
         samples_on_file) = Ok "class.tif"
  ∧ pixels <$> snd (classify_image 100 first_band_model "five.tif" "class.tif"
                      (Some 1) 5 samples_on_file) !! "class.tif"
    = Some [[[15; 13]]]
  ∧ reshape_raster_for_ml (GetVirtualMemArray sentinel_five)
    = Ok [[5; 7]; [3; 4]]
  ∧ labelled (predict_one first_band_model) 5 (all_not 5) [[5; 7]; [3; 4]]
    = [5; 13].
Proof. vm_compute. repeat split; reflexivity. Qed.

(** C3, where the code falls short of it.  The AND of a mask with itself
    comes out all ones, not the mask. *)
Theorem combine_masks_and_is_not_the_mask :
  fst (combine_masks ["m.msk"; "m.msk"] "out.msk" "and" "intersect"
         masks_on_file) = Ok "out.msk"
  ∧ pixels <$> snd (combine_masks ["m.msk"; "m.msk"] "out.msk" "and" "intersect"
                      masks_on_file) !! "out.msk"
    = Some [[[1; 1]; [1; 1]]]
  ∧ pixels <$> masks_on_file !! "m.msk" = Some [[[1; 0]; [0; 1]]].
Proof. vm_compute. repeat split; reflexivity. Qed.

(** The other two laws of the specification hold of the output, which is
    all ones whatever the inputs. *)
Example combine_masks_or_and_nor :
  pixels <$> snd (combine_masks ["m.msk"; "ones.msk"] "out.msk" "or" "intersect"
                    masks_on_file) !! "out.msk"
  = Some [[[1; 1]; [1; 1]]]
  ∧ pixels <$> snd (combine_masks ["zeros.msk"; "zeros.msk"] "out.msk" "nor"
                      "intersect" masks_on_file) !! "out.msk"
    = Some [[[1; 1]; [1; 1]]].
Proof. vm_compute. repeat split; reflexivity. Qed.

(** C5, where the code falls short of it.  The array of a one-band output
    has two axes, and indexing it with three raises before anything is
    copied: the output stays zero. *)
Theorem mosaic_images_one_band_fails :
  fst (mosaic_images ["one.tif"; "one.tif"] "out.tif" 0
         (<["one.tif" := one_band]> ∅)) = Raise IndexError
  ∧ pixels <$> snd (mosaic_images ["one.tif"; "one.tif"] "out.tif" 0
                      (<["one.tif" := one_band]> ∅)) !! "out.tif"
    = Some [[[0; 0]; [0; 0]]]
  ∧ pixels one_band = [[[5; 6]; [7; 8]]].
Proof. vm_compute. repeat split; reflexivity. Qed.




Example pixel_bounds_of_a_polygon :
  pixel_bounds_from_polygon tile_east [Rect 15 42 33 78] = Ok (1, 4, 2, 6).
Proof. vm_compute. reflexivity. Qed.

(** C9 for a list of one path. *)
Lemma stack_images_requires_two_witness :
  stack_images ["east.tif"] "out.tif" "intersect" tiles
  = (Raise (StackImagesException
              "stack_images requires at least two input images"), tiles).
Proof.
  apply (stack_images_requires_two ["east.tif"] "out.tif" "intersect" tiles).
  cbn. lia.
Defined.


(** X4.  The scenario of the specification: stacking the two tiles gives four
    bands of six columns and ten rows, at the corner of the overlap. *)
Example stack_images_scenario :
  fst (stack_images ["east.tif"; "west.tif"] "out.tif" "intersect" tiles) = Ok tt
  ∧ (fun d => (RasterXSize d, RasterYSize d, RasterCount d, GetGeoTransform d,
               map (hd []) (pixels d)))
      <$> snd (stack_images ["east.tif"; "west.tif"] "out.tif" "intersect" tiles)
            !! "out.tif"
    = Some (6, 10, 4, north_up 0 100 10,
            [repeat 7 6; repeat 8 6; repeat 5 6; repeat 6 6]).
Proof. vm_compute. split; reflexivity. Qed.



(** X3 on four pixels of two bytes with 100 bytes to spare: one chunk. *)
Lemma autochunk_smallest_divisor_witness :
  1 <= 1 < 4
  ∧ 4 mod 1 = 0
  ∧ 4 / 1 * 2 < 100
  ∧ ∀ m, 1 <= m < 1 → ¬ (4 mod m = 0 ∧ 4 / m * 2 < 100).
Proof.
  exact (autochunk_smallest_divisor 100 four_pixels None 1 eq_refl).
Defined.




Example pixel_bounds_of_a_polygon_elsewhere :
  Intersection (get_raster_bounds tile_east) [Rect 200 300 0 50] = []
  ∧ pixel_bounds_from_polygon tile_east [Rect 200 300 0 50] = Ok (0, 0, 10, 10).
Proof. vm_compute. split; reflexivity. Qed.


(** X11 for the raster of one band. *)
Lemma classify_image_one_band_witness :
  ∃ class_out_image,
    classify_image 100 first_band_model "one.tif" "class.tif" (Some 2) 0
      (<["one.tif" := one_band]> ∅)
    = (Raise ValueError,
       <["class.tif" := class_out_image]> (<["one.tif" := one_band]> ∅))
    ∧ RasterXSize class_out_image = RasterXSize one_band
    ∧ RasterYSize class_out_image = RasterYSize one_band
    ∧ pixels class_out_image
      = blank 1 (RasterYSize one_band) (RasterXSize one_band).
Proof.
  apply (classify_image_one_band 100 first_band_model "one.tif" "class.tif"
           (Some 2) 0 (<["one.tif" := one_band]> ∅) one_band).
  - reflexivity.
  - reflexivity.
  - vm_compute. discriminate.
  - vm_compute. discriminate.
Defined.

Lemma four_pixels_well_formed :
  Forall well_formed [four_pixels; four_pixels_later].
Proof.
  repeat constructor; unfold well_formed, shaped; cbn; repeat split; try lia;
    repeat constructor.
Qed.



Example mosaic_of_four_pixels :
  fst (mosaic_images ["four.tif"; "later.tif"] "out.tif" 0 pair_on_file) = Ok tt
  ∧ pixels <$> snd (mosaic_images ["four.tif"; "later.tif"] "out.tif" 0
                      pair_on_file) !! "out.tif"
    = Some [ [[1; 9]; [3; 4]]; [[9; 6]; [9; 9]] ].
Proof. vm_compute. split; reflexivity. Qed.


(** X15 for an image with two dots in its name. *)
Lemma get_mask_path_of_image_witness :
  get_mask_path ("/data/t36" +:+ "/" +:+ "S2A_T36MZE" +:+ "." +:+ "v2.tif")
  = Ok ("/data/t36" +:+ "/" +:+ "S2A_T36MZE" +:+ ".msk")
  ∧ get_mask_path ("S2A_T36MZE" +:+ "." +:+ "v2.tif")
    = Ok ("S2A_T36MZE" +:+ ".msk").
Proof.
  apply (get_mask_path_of_image "/data/t36" "S2A_T36MZE" "v2.tif");
    reflexivity.
Defined.

(** X16 for the name of a Sentinel-2 product. *)
Lemma sen_2_name_parts_witness :
  let comps := ["S2A"; "MSIL1C"; "20170101T082332"; "N0204"; "R121"; "T36MZE";
                "20170101T084243"] in
  let image_name := "/data/in" +:+ "/" +:+ str_join "_" comps +:+ "." +:+ "SAFE" in
  get_sen_2_granule_id image_name = Ok (str_join "_" comps)
  ∧ get_sen_2_image_orbit image_name = item 4 comps
  ∧ get_sen_2_image_tile image_name = item 5 comps.
Proof.
  apply (sen_2_name_parts "/data/in" "SAFE"
           ["S2A"; "MSIL1C"; "20170101T082332"; "N0204"; "R121"; "T36MZE";
            "20170101T084243"]).
  - discriminate.
  - repeat constructor.
  - reflexivity.
Defined.

Example sen_2_tile_and_orbit :
  get_sen_2_image_tile
    "/data/in/S2A_MSIL1C_20170101T082332_N0204_R121_T36MZE_20170101T084243.SAFE"
  = Ok "T36MZE"
  ∧ get_sen_2_image_orbit
      "/data/in/S2A_MSIL1C_20170101T082332_N0204_R121_T36MZE_20170101T084243.SAFE"
    = Ok "R121"
  ∧ get_sen_2_image_tile "/data/in/S2A_MSIL1C_20170101T082332.SAFE"
    = Raise IndexError.
Proof. vm_compute. repeat split; reflexivity. Qed.


(** With the default clear class 0 and the nodata value 0 of the
    classifier, the pixels that hold a zero in some band are the ones
    marked as clear. *)
Example create_mask_from_model_on_nine_samples :
  pixels <$> snd (create_mask_from_model 100 first_band_model "/tmp/td"
                    "nine.tif" 0 3 samples_on_file) !! "nine.msk"
  = Some [[[0; 0; 0]; [0; 1; 0]; [1; 0; 0]]]
  ∧ snd (create_mask_from_model 100 first_band_model "/tmp/td"
           "nine.tif" 0 3 samples_on_file) !! "/tmp/td/cat_mask.tif" = None.
Proof. vm_compute. split; reflexivity. Qed.


(** The composite of the two rasters: the later one where its mask is
    set, zeros included, the earlier one where only its own mask is set,
    zero in the pixel that no mask clears; the mask of the composite is
    clear there all the same.  A raster of one band composites as well. *)
Example composite_of_four_pixels :
  pixels <$> snd (composite_images_with_mask ["four.tif"; "later.tif"]
                    "comp.tif" pair_with_masks) !! "comp.tif"
  = Some [ [[0; 9]; [3; 0]]; [[9; 0]; [7; 0]] ]
  ∧ pixels <$> snd (composite_images_with_mask ["four.tif"; "later.tif"]
                      "comp.tif" pair_with_masks) !! "comp.msk"
    = Some [ [[1; 1]; [1; 1]] ]
  ∧ fst (composite_images_with_mask ["one.tif"; "one.tif"] "comp.tif"
           one_with_mask) = Ok "comp.tif"
  ∧ pixels <$> snd (composite_images_with_mask ["one.tif"; "one.tif"]
                      "comp.tif" one_with_mask) !! "comp.tif"
    = Some [ [[5; 0]; [0; 8]] ].
Proof. vm_compute. repeat split; reflexivity. Qed.


(** The search of [autochunk] on four pixels of two bytes under a limit of
    five bytes finds the divisor two. *)
Lemma autochunk_finds_witness :
  ∃ num_chunks, autochunk 100 four_pixels (Some 5) = Some num_chunks.
Proof.
  apply (autochunk_finds 100 four_pixels (Some 5) 2).
  - vm_compute. split; [discriminate | reflexivity].
  - reflexivity.
  - reflexivity.
Defined.


Lemma aside_well_formed : well_formed four_pixels ∧ well_formed four_pixels_aside.
Proof.
  split; unfold well_formed, shaped; cbn; repeat split; try lia;
    repeat constructor.
Qed.


Example stack_of_four_pixels_aside :
  fst (stack_images ["four.tif"; "aside.tif"] "out.tif" "intersect"
         aside_on_file) = Ok tt
  ∧ pixels <$> snd (stack_images ["four.tif"; "aside.tif"] "out.tif"
                      "intersect" aside_on_file) !! "out.tif"
    = Some [ [[4]]; [[8]]; [[0]]; [[9]] ].
Proof. vm_compute. split; reflexivity. Qed.


Example mosaic_of_four_pixels_aside :
  fst (mosaic_images ["four.tif"; "aside.tif"] "out.tif" 0 aside_on_file)
  = Ok tt
  ∧ pixels <$> snd (mosaic_images ["four.tif"; "aside.tif"] "out.tif" 0
                      aside_on_file) !! "out.tif"
    = Some [ [[1; 2; 0]; [3; 4; 9]; [0; 9; 9]];
             [[5; 6; 0]; [7; 9; 0]; [0; 9; 9]] ].
Proof. vm_compute. split; reflexivity. Qed.
